(** * Pullus sheets backup: a shallow embedding of [backup_sheets.py]

    The development follows the layout of the Python module:
    - [sanitize_error_message] (the three [re.sub] passes),
    - [RateLimiter] ([exponential_backoff_with_jitter] and the retry
      [wrapper] built by [rate_limit_decorator]),
    - [SheetsBackup] ([_fetch_sheet_data], [_upload_to_s3],
      [backup_single_sheet], [backup_all_sheets], [send_notification]),
    - [main] and its exit codes.

    Effects are made explicit.  Everything the program writes to the outside
    (log records, sleeps, object-store writes, webhook posts) is collected in
    a chronological trace; everything it reads from the outside (remote
    answers, the random generator, the wall clock) is an argument. *)

From Stdlib Require Import ZArith QArith Qminmax Lqa Ascii String List Bool Lia.
From stdpp Require Import gmap strings.

Local Open Scope string_scope.
Local Open Scope list_scope.

(** ** Text helpers

    A Python [str] is modelled as a [string] whose characters are the code
    points below 256. *)

Module Text.

Definition code (c : ascii) : nat := nat_of_ascii c.

Definition between (lo hi n : nat) : bool := (lo <=? n)%nat && (n <=? hi)%nat.

(** [\s] of a [str] pattern, restricted to code points below 256. *)
Definition is_space (c : ascii) : bool :=
  let n := code c in
  between 9 13 n || between 28 32 n || (n =? 133)%nat || (n =? 160)%nat.

(** The character class [[a-zA-Z0-9_-]]. *)
Definition is_id_char (c : ascii) : bool :=
  let n := code c in
  between 97 122 n || between 65 90 n || between 48 57 n
  || (n =? 95)%nat || (n =? 45)%nat.

(** [str.lower] on one code point below 256. *)
Definition lower_char (c : ascii) : ascii :=
  let n := code c in
  if between 65 90 n || (between 192 222 n && negb (n =? 215)%nat)
  then ascii_of_nat (n + 32) else c.

Fixpoint lower (s : string) : string :=
  match s with
  | EmptyString => EmptyString
  | String c t => String (lower_char c) (lower t)
  end.

Fixpoint starts_with (p s : string) : bool :=
  match p, s with
  | EmptyString, _ => true
  | String a p', String b s' => Ascii.eqb a b && starts_with p' s'
  | String _ _, EmptyString => false
  end.

(** Python's [needle in hay]. *)
Fixpoint contains (needle hay : string) : bool :=
  starts_with needle hay ||
  match hay with
  | EmptyString => false
  | String _ t => contains needle t
  end.

(** The longest prefix without whitespace: what a greedy [[^\s]*] takes. *)
Fixpoint non_space_run (s : string) : string :=
  match s with
  | EmptyString => EmptyString
  | String c t => if is_space c then EmptyString else String c (non_space_run t)
  end.

Fixpoint drop (n : nat) (s : string) : string :=
  match n, s with
  | O, _ => s
  | S k, String _ t => drop k t
  | S _, EmptyString => EmptyString
  end.

(** The next [n] characters exist and all satisfy [p]. *)
Fixpoint all_next (p : ascii -> bool) (n : nat) (s : string) : bool :=
  match n with
  | O => true
  | S k => match s with
           | EmptyString => false
           | String c t => p c && all_next p k t
           end
  end.

End Text.

(** ** [sanitize_error_message] *)

(** [re.sub(r'[a-zA-Z0-9_-]{44}', '[SHEET_ID]', s)]: leftmost,
    non-overlapping matches, scanning left to right.  [skip] counts the
    characters of the current match that are still to be dropped. *)
Fixpoint sub_sheet_id (skip : nat) (s : string) : string :=
  match s with
  | EmptyString => EmptyString
  | String c t =>
      match skip with
      | S k => sub_sheet_id k t
      | O => if Text.all_next Text.is_id_char 44 s
             then "[SHEET_ID]" ++ sub_sheet_id 43 t
             else String c (sub_sheet_id 0 t)
      end
  end.

(** [re.sub] for a pattern of the shape [<test at the position>[^\s]*]: a
    match that starts at a position runs to the end of the run of
    non-whitespace characters.  [in_match] says that the scan is inside a
    match. *)
Fixpoint sub_url (matches_at : string -> bool) (placeholder : string)
    (in_match : bool) (s : string) : string :=
  match s with
  | EmptyString => EmptyString
  | String c t =>
      if in_match then
        if Text.is_space c
        then String c (sub_url matches_at placeholder false t)
        else sub_url matches_at placeholder true t
      else if matches_at s
           then placeholder ++ sub_url matches_at placeholder true t
           else String c (sub_url matches_at placeholder false t)
  end.

(** [https://sheets\.googleapis\.com/[^\s]*] matches at the head of [s]. *)
Definition sheets_url_at (s : string) : bool :=
  Text.starts_with "https://sheets.googleapis.com/" s.

(** [https://[^\s]*googleapis\.com[^\s]*] matches at the head of [s]: after
    the scheme, the run of non-whitespace characters holds the host text. *)
Definition google_url_at (s : string) : bool :=
  Text.starts_with "https://" s
  && Text.contains "googleapis.com" (Text.non_space_run (Text.drop 8 s)).

Definition sanitize_error_message (error_msg : string) : string :=
  let error_msg := sub_sheet_id 0 error_msg in
  let error_msg := sub_url sheets_url_at "[SHEETS_API_URL]" false error_msg in
  let error_msg := sub_url google_url_at "[GOOGLE_API_URL]" false error_msg in
  error_msg.

Example sanitize_ex1 :
  sanitize_error_message
    "404 at https://sheets.googleapis.com/v4/spreadsheets/1AbCdEfGhIjKlMnOpQrStUvWxYz0123456789_-ABCDEF/values x"
  = "404 at [SHEETS_API_URL] x".
Proof. vm_compute. reflexivity. Qed.

(** ** Python values, exceptions and outcomes *)

(** The values an attribute such as [retry-after] can hold: a number or a
    text.  [None] is the absent case of the surrounding [option]. *)
Inductive pyval : Type :=
| PyNum (q : Q)
| PyStr (s : string).

(** Truth value of [if v:]. *)
Definition truthy (v : pyval) : bool :=
  match v with
  | PyNum q => negb (Qeq_bool q 0)
  | PyStr s => negb (String.eqb s "")
  end.

(** [e.resp]: the attributes the retry wrapper looks at, and the items of
    the response seen as a mapping.  An [httplib2.Response] is a [dict]
    whose items are the HTTP headers, keyed by their lower-case names; a
    header is an item of the mapping and not an attribute of the object.
    No statement of the module reads the items. *)
Record response : Type := {
  status : option Z;            (* [hasattr(e.resp, 'status')] and its value *)
  retry_after : option pyval;   (* [getattr(e.resp, 'retry-after', None)] *)
  headers : list (string * string)   (* the items [e.resp[name]] *)
}.

(** An instance of [Exception]: its class name, its [resp] attribute when it
    has one, and [str(e)]. *)
Record exn : Type := {
  exc_class : string;
  exc_resp : option response;
  exc_text : string
}.

Definition builtin_error (cls text : string) : exn :=
  {| exc_class := cls; exc_resp := None; exc_text := text |}.

Inductive result (A : Type) : Type :=
| Return (a : A)
| Raise (e : exn).
Arguments Return {A} a.
Arguments Raise {A} e.

Definition is_raise {A} (r : result A) : bool :=
  match r with Raise _ => true | Return _ => false end.

(** ** Tabular data

    pandas is a library outside the repository.  A [DataFrame] is modelled by
    the per-worksheet frames it was concatenated from; every frame carries
    the added [sheet_name] column. *)

Definition row : Type := list string.

Record frame : Type := {
  frame_title : string;       (* value of the [sheet_name] column *)
  frame_header : row;
  frame_rows : list row
}.

Definition DataFrame : Type := list frame.

(** [len(df)] *)
Definition df_len (df : DataFrame) : nat :=
  list_sum (map (fun f => List.length (frame_rows f)) df).

(** [df.empty]: some axis has length 0.  A frame always has the [sheet_name]
    column, so only the row axis can be empty. *)
Definition df_empty (df : DataFrame) : bool := (df_len df =? 0)%nat.

(** ** Events and the effect monad *)

Inductive level : Type := INFO | WARNING | ERROR.

(** One constructor per log call of the module, with the interpolated
    values as arguments. *)
Inductive logmsg : Type :=
| SuccessAfter (attempts : nat)
| RateLimitedHeader (delay : Q)
| RateLimitedBackoff (delay : Q)
| ServerErrorRetry (status_code : Z) (delay : Q)
| NonRetryableStatus (status_code : Z) (err : string)
| QuotaRateRetry (delay : Q)
| NonRetryable (err : string)
| MaxRetriesExceeded (max_retries : Z)
| FetchingData (sheet_name : string)
| FetchedRows (rows : nat) (sheet_name : string)
| NoDataFound (sheet_name : string)
| FetchFailed (sheet_name err : string)
| Uploaded (sheet_name s3_url : string)
| UploadFailed (sheet_name err : string)
| BackedUp (sheet_name : string) (rows : nat) (duration : Q)
| BackupFailed (sheet_name err : string)
| StartingBackup
| ProcessingSheet (i total : nat) (sheet_name : string)
| WaitingBeforeNext (delay : Q)
| BackupCompleted
| NotificationSent
| NotificationFailed (err : string)
| SheetsApiInitialized
| SheetsApiInitFailed (err : string)
| S3Initialized
| S3InitFailed (err : string)
| AllSucceeded (total : nat)
| SomeSucceeded (successful total : nat)
| AllFailed (total : nat)
| CriticalError (err : string).

(** The backup outcome of one sheet: the dict built by
    [backup_single_sheet]. *)
Record outcome : Type := {
  o_sheet_name : string;
  success : bool;
  error : option string;
  s3_url : option string;
  rows_backed_up : nat;
  duration_seconds : Q
}.

Inductive event : Type :=
| EvCall (attempt : nat)                       (* the wrapper calls [func] *)
| EvSleep (seconds : Q)                        (* [time.sleep] *)
| EvLog (lvl : level) (msg : logmsg)           (* a [logger] call *)
| EvPut (bucket : string) (key : string) (body : DataFrame)  (* [put_object] *)
| EvPost (status : string) (results : list outcome).   (* the webhook post *)

Definition trace : Type := list event.

(** A computation: what it emitted, and how it ended. *)
Definition M (A : Type) : Type := (trace * result A)%type.

Definition ret {A} (a : A) : M A := ([], Return a).
Definition raise {A} (e : exn) : M A := ([], Raise e).
Definition emit (ev : event) : M unit := ([ev], Return tt).
Definition log (lvl : level) (msg : logmsg) : M unit := emit (EvLog lvl msg).

Definition bind {A B} (m : M A) (k : A -> M B) : M B :=
  match m with
  | (tr, Return a) => let '(tr', r) := k a in (tr ++ tr', r)
  | (tr, Raise e) => (tr, Raise e)
  end.

(** [try: m / except Exception as e: h e] *)
Definition try_except {A} (m : M A) (h : exn -> M A) : M A :=
  match m with
  | (tr, Return a) => (tr, Return a)
  | (tr, Raise e) => let '(tr', r) := h e in (tr ++ tr', r)
  end.

Notation "x <- m ;; k" := (bind m (fun x => k))
  (at level 100, m at next level, right associativity, only parsing).
Notation "m ;;; k" := (bind m (fun _ => k))
  (at level 100, right associativity, only parsing).

(** [time.sleep(seconds)]: a negative argument raises [ValueError]. *)
Definition time_sleep (seconds : Q) : M unit :=
  if Qle_bool 0 seconds then emit (EvSleep seconds)
  else raise (builtin_error "ValueError" "sleep length must be non-negative").

(** ** [RateLimiter] *)

Record RateLimiter : Type := {
  max_retries : Z;
  base_delay : Q;
  max_delay : Q
}.

(** [RateLimiter.__init__] *)
Definition RateLimiter_init (max_retries : Z) : RateLimiter :=
  {| max_retries := max_retries; base_delay := 1; max_delay := 60 |}.

(** [RateLimiter()]: every use in the module takes the default. *)
Definition default_limiter : RateLimiter := RateLimiter_init 5.

(** The float that [base_delay * (2 ** attempt)] converts the integer power
    to.  Powers of two up to [2 ** 1023] are floats; from [2 ** 1024] on the
    conversion raises [OverflowError]. *)
Definition float_of_pow2 (attempt : nat) : M Q :=
  if (attempt <? 1024)%nat then ret (inject_Z (2 ^ Z.of_nat attempt))
  else raise (builtin_error "OverflowError" "int too large to convert to float").

(** The local [delay] of [exponential_backoff_with_jitter], before the
    jitter is added. *)
Definition backoff_delay (self : RateLimiter) (attempt : nat) : M Q :=
  p <- float_of_pow2 attempt ;;
  ret (Qmin (base_delay self * p) (max_delay self)).

(** [random] is the value [random.random()] returns.  The sum and the
    products are the exact rational ones; the code rounds each of them to
    the nearest double, so that a statement about the returned delay is
    made with closed bounds, which rounding to nearest keeps. *)
Definition exponential_backoff_with_jitter
    (self : RateLimiter) (attempt : nat) (random : Q) : M Q :=
  delay <- backoff_delay self attempt ;;
  let jitter := (delay * (1 # 4) * random)%Q in
  ret (delay + jitter)%Q.

(** What the [except] block of the wrapper decides. *)
Inductive control : Type :=
| Retry (delay : Q)     (* fall through to the sleep test *)
| Break.                (* [break] *)

Section Executor.

(** [float(s)] for a text [s]: [None] stands for [ValueError]. *)
Variable float_of_str : string -> option Q.

(** [float(v)].  The text of the [ValueError] ends with [repr(s)], written
    here for a text without quotes or escapes. *)
Definition py_float (v : pyval) : M Q :=
  match v with
  | PyNum q => ret q
  | PyStr s =>
      match float_of_str s with
      | Some q => ret q
      | None => raise (builtin_error "ValueError"
                         ("could not convert string to float: '" ++ s ++ "'"))
      end
  end.

(** [hasattr(e, 'resp') and hasattr(e.resp, 'status')], with the status
    when the test holds. *)
Definition status_of (e : exn) : option Z :=
  match exc_resp e with
  | Some r => status r
  | None => None
  end.

(** [getattr(e.resp, 'retry-after', None)] *)
Definition retry_after_of (e : exn) : option pyval :=
  match exc_resp e with
  | Some r => retry_after r
  | None => None
  end.

(** ["quota" in str(e).lower() or "rate" in str(e).lower()] *)
Definition quota_or_rate (e : exn) : bool :=
  Text.contains "quota" (Text.lower (exc_text e))
  || Text.contains "rate" (Text.lower (exc_text e)).

(** The body of [except Exception as e:] up to the sleep test. *)
Definition handle_failure (self : RateLimiter) (attempt : nat) (random : Q)
    (e : exn) : M control :=
  match status_of e with
  | Some status_code =>
      if (status_code =? 429)%Z then
        match retry_after_of e with
        | Some v =>
            if truthy v then
              delay <- py_float v ;;
              log WARNING (RateLimitedHeader delay) ;;;
              ret (Retry delay)
            else
              delay <- exponential_backoff_with_jitter self attempt random ;;
              log WARNING (RateLimitedBackoff delay) ;;;
              ret (Retry delay)
        | None =>
            delay <- exponential_backoff_with_jitter self attempt random ;;
            log WARNING (RateLimitedBackoff delay) ;;;
            ret (Retry delay)
        end
      else if (500 <=? status_code)%Z then
        delay <- exponential_backoff_with_jitter self attempt random ;;
        log WARNING (ServerErrorRetry status_code delay) ;;;
        ret (Retry delay)
      else
        log ERROR (NonRetryableStatus status_code
                     (sanitize_error_message (exc_text e))) ;;;
        ret Break
  | None =>
      if quota_or_rate e then
        delay <- exponential_backoff_with_jitter self attempt random ;;
        log WARNING (QuotaRateRetry delay) ;;;
        ret (Retry delay)
      else
        log ERROR (NonRetryable (sanitize_error_message (exc_text e))) ;;;
        ret Break
  end.

(** [raise last_exception]: raising [None] is a [TypeError]. *)
Definition raise_last {A} (last_exception : option exn) : M A :=
  match last_exception with
  | Some e => raise e
  | None => raise (builtin_error "TypeError"
                     "exceptions must derive from BaseException")
  end.

(** The [for attempt in range(self.max_retries)] loop of [wrapper] over the
    attempts still to run, followed by [raise last_exception].
    [func attempt] is what the wrapped function does when it is called in
    that attempt; [rand attempt] is the draw of [random.random()] there. *)
Fixpoint retry_loop {A} (self : RateLimiter) (rand : nat -> Q)
    (func : nat -> M A) (todo : list nat) (last_exception : option exn)
    : M A :=
  match todo with
  | [] => raise_last last_exception
  | attempt :: rest =>
      try_except
        (emit (EvCall attempt) ;;;
         result <- func attempt ;;
         (if (0 <? attempt)%nat then log INFO (SuccessAfter (attempt + 1))
          else ret tt) ;;;
         ret result)
        (fun e =>
           c <- handle_failure self attempt (rand attempt) e ;;
           match c with
           | Break => raise_last (Some e)
           | Retry delay =>
               (if (Z.of_nat attempt <? max_retries self - 1)%Z
                then time_sleep delay
                else log ERROR (MaxRetriesExceeded (max_retries self))) ;;;
               retry_loop self rand func rest (Some e)
           end)
  end.

(** [rate_limit_decorator(func)]: the wrapper. *)
Definition wrapper {A} (self : RateLimiter) (rand : nat -> Q)
    (func : nat -> M A) : M A :=
  retry_loop self rand func (seq 0 (Z.to_nat (max_retries self))) None.

End Executor.

(** ** The extraction adapter: [_fetch_sheet_data] *)

(** "Pad or truncate row to match header length" (both branches of the
    worksheet loop do the same). *)
Definition reshape_row (header : row) (r : row) : row :=
  if (List.length r <? List.length header)%nat then
    r ++ repeat "" (List.length header - List.length r)
  else if (List.length header <? List.length r)%nat then
    firstn (List.length header) r
  else r.

(** One worksheet: the frame appended to [all_data], if any.  [values] is
    [result.get('values', [])]. *)
Definition reshape_sheet (sheet_title : string) (values : list row)
    : option frame :=
  if (3 <? List.length values)%nat then
    let header := nth 2 values [] in
    let data_rows := map (reshape_row header) (skipn 3 values) in
    match data_rows with
    | [] => None
    | _ => Some {| frame_title := sheet_title; frame_header := header;
                   frame_rows := data_rows |}
    end
  else if (1 <? List.length values)%nat then
    let header := nth 0 values [] in
    let data_rows := map (reshape_row header) (skipn 1 values) in
    match data_rows with
    | [] => None
    | _ => Some {| frame_title := sheet_title; frame_header := header;
                   frame_rows := data_rows |}
    end
  else None.

(** What the libraries answer during one call of the function: the
    spreadsheet service, and pandas where a call of it can raise. *)
Record sheets_service : Type := {
  (* titles of [spreadsheets().get(...).execute().get('sheets', [])] *)
  spreadsheets_get : string -> result (list string);
  (* [spreadsheets().values().get(...).execute().get('values', [])] for the
     range of one title *)
  values_get : string -> string -> result (list row);
  (* the exception of [pd.DataFrame(data_rows, columns=header)] or of
     [df['sheet_name'] = sheet_title] for one worksheet, if they raise *)
  dataframe_error : frame -> option exn;
  (* the exception of [pd.concat(all_data, ignore_index=True)], if it
     raises *)
  concat_error : list frame -> option exn
}.

Definition lift {A} (r : result A) : M A := ([], r).

(** The body of [if values:] for one worksheet: the frames it appends to
    [all_data]. *)
Definition sheet_frames (svc : sheets_service) (sheet_title : string)
    (values : list row) : M (list frame) :=
  match reshape_sheet sheet_title values with
  | Some f =>
      match dataframe_error svc f with
      | Some e => raise e
      | None => ret [f]
      end
  | None => ret []
  end.

(** The loop over the worksheets, returning [all_data]. *)
Fixpoint fetch_sheets (svc : sheets_service) (sheet_id : string)
    (titles : list string) : M (list frame) :=
  match titles with
  | [] => ret []
  | sheet_title :: rest =>
      values <- lift (values_get svc sheet_id sheet_title) ;;
      fr <- sheet_frames svc sheet_title values ;;
      time_sleep 2 ;;;
      more <- fetch_sheets svc sheet_id rest ;;
      ret (fr ++ more)
  end.

(** The undecorated [_fetch_sheet_data]. *)
Definition fetch_sheet_data_body (svc : sheets_service)
    (sheet_id sheet_name : string) : M DataFrame :=
  try_except
    (log INFO (FetchingData sheet_name) ;;;
     titles <- lift (spreadsheets_get svc sheet_id) ;;
     all_data <- fetch_sheets svc sheet_id titles ;;
     match all_data with
     | _ :: _ =>
         match concat_error svc all_data with
         | Some e => raise e
         | None =>
             log INFO (FetchedRows (df_len all_data) sheet_name) ;;;
             ret all_data
         end
     | [] =>
         log WARNING (NoDataFound sheet_name) ;;;
         ret []
     end)
    (fun e =>
       log ERROR (FetchFailed sheet_name (sanitize_error_message (exc_text e))) ;;;
       raise e).

(** ** The archival adapter: [_upload_to_s3] *)

(** [datetime.now(wat_tz)]: the wall clock in Africa/Lagos. *)
Record datetime : Type := {
  year : nat; month : nat; day : nat;
  hour : nat; minute : nat; second : nat
}.

Definition digit (n : nat) : ascii := ascii_of_nat (48 + n mod 10).

(** Two decimal digits, zero padded. *)
Definition pad2 (n : nat) : string :=
  String (digit (n / 10)) (String (digit n) EmptyString).

(** [%Y] for a four-digit year. *)
Definition fmt_year (y : nat) : string := pad2 (y / 100) ++ pad2 (y mod 100).

(** [%I]: hour of the 12-hour clock, 01 to 12. *)
Definition hour12 (h : nat) : nat :=
  if (h mod 12 =? 0)%nat then 12 else h mod 12.

(** [%p] *)
Definition am_pm (h : nat) : string := if (h <? 12)%nat then "AM" else "PM".

(** [strftime('%Y%m%d_%I-%M%p_WAT')] *)
Definition strftime_key (t : datetime) : string :=
  fmt_year (year t) ++ pad2 (month t) ++ pad2 (day t) ++ "_"
  ++ pad2 (hour12 (hour t)) ++ "-" ++ pad2 (minute t) ++ am_pm (hour t)
  ++ "_WAT".

(** [f"pullus/sales/{sheet_name}/{timestamp}.parquet"] *)
Definition s3_key_of (sheet_name : string) (t : datetime) : string :=
  "pullus/sales/" ++ sheet_name ++ "/" ++ strftime_key t ++ ".parquet".

(** [f"{self.bucket_name}"]: the environment variable may be unset. *)
Definition str_of_bucket (bucket_name : option string) : string :=
  match bucket_name with
  | Some b => b
  | None => "None"
  end.

(** [f"s3://{self.bucket_name}/{s3_key}"] *)
Definition s3_url_of (bucket_name : option string) (s3_key : string) : string :=
  "s3://" ++ str_of_bucket bucket_name ++ "/" ++ s3_key.

(** The undecorated [_upload_to_s3].  [now] is the clock reading of this
    call; [put_error] is the exception that serialising or [put_object]
    raises in this call, if any.  The stored body is the data itself. *)
Definition upload_to_s3_body (bucket_name : option string) (now : datetime)
    (put_error : option exn) (data : DataFrame) (sheet_name : string)
    : M string :=
  try_except
    (let s3_key := s3_key_of sheet_name now in
     match put_error with
     | Some e => raise e
     | None => emit (EvPut (str_of_bucket bucket_name) s3_key data)
     end ;;;
     let s3_url := s3_url_of bucket_name s3_key in
     log INFO (Uploaded sheet_name s3_url) ;;;
     ret s3_url)
    (fun e =>
       log ERROR (UploadFailed sheet_name (exc_text e)) ;;;
       raise e).

(** The bucket contents after a trace: each [put_object] binds its key,
    replacing what the key held. *)
Fixpoint s3_objects (tr : trace) (store : gmap string DataFrame)
    : gmap string DataFrame :=
  match tr with
  | [] => store
  | EvPut _ key body :: rest => s3_objects rest (<[key := body]> store)
  | _ :: rest => s3_objects rest store
  end.

(** ** The environment of one run

    Everything the process reads from outside, as functions of where in the
    run it is read: the item being processed and the attempt of the retry
    wrapper. *)
Record env : Type := {
  float_of_str : string -> option Q;          (* [float(s)], [None]: [ValueError] *)
  google_init : option exn;                   (* raised in [_init_google_sheets] *)
  aws_init : option exn;                      (* raised in [_init_aws_s3] *)
  bucket_name : option string;                (* [os.getenv('AWS_S3_BUCKET')] *)
  sheets_at : string -> nat -> sheets_service;  (* item, attempt *)
  fetch_random : string -> nat -> Q;          (* [random.random()] in a fetch retry *)
  now_at : string -> nat -> datetime;         (* clock of an upload call *)
  put_error_at : string -> nat -> option exn; (* failure of an upload call *)
  upload_random : string -> nat -> Q;         (* [random.random()] in an upload retry *)
  pause_random : nat -> Q;                    (* [random.uniform(1, 3)] after item [i] *)
  elapsed : string -> Q;                      (* [round(time.time() - start_time, 2)] *)
  post_error : option exn;                    (* failure of the webhook post *)
  notify_random : nat -> Q
}.

(** ** [SheetsBackup] *)

(** [__init__]: the two client initialisations log and re-raise. *)
Definition SheetsBackup_init (E : env) : M unit :=
  match google_init E with
  | Some e => log ERROR (SheetsApiInitFailed (exc_text e)) ;;; raise e
  | None => log INFO SheetsApiInitialized
  end ;;;
  match aws_init E with
  | Some e => log ERROR (S3InitFailed (exc_text e)) ;;; raise e
  | None => log INFO S3Initialized
  end.

(** The decorated methods: [@RateLimiter().rate_limit_decorator]. *)
Definition _fetch_sheet_data (E : env) (sheet_id sheet_name : string)
    : M DataFrame :=
  wrapper (float_of_str E) default_limiter (fetch_random E sheet_name)
    (fun attempt =>
       fetch_sheet_data_body (sheets_at E sheet_name attempt) sheet_id sheet_name).

Definition _upload_to_s3 (E : env) (data : DataFrame) (sheet_name : string)
    : M string :=
  wrapper (float_of_str E) default_limiter (upload_random E sheet_name)
    (fun attempt =>
       upload_to_s3_body (bucket_name E) (now_at E sheet_name attempt)
         (put_error_at E sheet_name attempt) data sheet_name).

(** The initial [result] dict of [backup_single_sheet]. *)
Definition initial_outcome (sheet_name : string) : outcome :=
  {| o_sheet_name := sheet_name; success := false; error := None;
     s3_url := None; rows_backed_up := 0; duration_seconds := 0 |}.

(** [backup_single_sheet], over the two calls it makes. *)
Definition backup_single_sheet_with (fetch : M DataFrame)
    (upload : DataFrame -> M string) (duration : Q) (sheet_name : string)
    : M outcome :=
  try_except
    (data <- fetch ;;
     if df_empty data then
       log WARNING (NoDataFound sheet_name) ;;;
       ret {| o_sheet_name := sheet_name; success := false;
              error := Some "No data found in sheet";
              s3_url := None; rows_backed_up := 0; duration_seconds := 0 |}
     else
       url <- upload data ;;
       log INFO (BackedUp sheet_name (df_len data) duration) ;;;
       ret {| o_sheet_name := sheet_name; success := true; error := None;
              s3_url := Some url; rows_backed_up := df_len data;
              duration_seconds := duration |})
    (fun e =>
       log ERROR (BackupFailed sheet_name (sanitize_error_message (exc_text e))) ;;;
       ret {| o_sheet_name := sheet_name; success := false;
              error := Some (sanitize_error_message (exc_text e));
              s3_url := None; rows_backed_up := 0;
              duration_seconds := duration |}).

Definition backup_single_sheet (E : env) (sheet_name sheet_id : string)
    : M outcome :=
  backup_single_sheet_with
    (_fetch_sheet_data E sheet_id sheet_name)
    (fun data => _upload_to_s3 E data sheet_name)
    (elapsed E sheet_name) sheet_name.

(** The loop of [backup_all_sheets] from item [i] on; [total] is
    [len(SHEETS_CONFIG)].  The outcomes appended to [backup_results]. *)
Fixpoint backup_loop (E : env) (total i : nat) (items : list (string * string))
    : M (list outcome) :=
  match items with
  | [] => ret []
  | (sheet_name, sheet_id) :: rest =>
      log INFO (ProcessingSheet (i + 1) total sheet_name) ;;;
      r <- backup_single_sheet E sheet_name sheet_id ;;
      (if (Z.of_nat i <? Z.of_nat total - 1)%Z then
         let delay := (5 + pause_random E i)%Q in
         log INFO (WaitingBeforeNext delay) ;;;
         time_sleep delay
       else ret tt) ;;;
      rs <- backup_loop E total (S i) rest ;;
      ret (r :: rs)
  end.

(** [SHEETS_CONFIG.items()] is the list of (name, identifier) pairs in the
    order of the mapping. *)
Definition backup_all_sheets (E : env) (SHEETS_CONFIG : list (string * string))
    : M (list outcome) :=
  log INFO StartingBackup ;;;
  results <- backup_loop E (List.length SHEETS_CONFIG) 0 SHEETS_CONFIG ;;
  log INFO BackupCompleted ;;;
  ret results.

(** The header status of the notification. *)
Definition notification_status (results : list outcome) : string :=
  let successful := List.filter success results in
  let failed := List.filter (fun r => negb (success r)) results in
  match failed, successful with
  | _ :: _, _ => "PARTIAL SUCCESS"
  | [], _ :: _ => "SUCCESS"
  | [], [] => "FAILED"
  end.

(** The undecorated [send_notification]: its own handler logs and returns. *)
Definition send_notification_body (E : env) (results : list outcome) : M unit :=
  try_except
    (match post_error E with
     | Some e => raise e
     | None => emit (EvPost (notification_status results) results)
     end ;;;
     log INFO NotificationSent)
    (fun e => log ERROR (NotificationFailed (exc_text e))).

Definition send_notification (E : env) (results : list outcome) : M unit :=
  wrapper (float_of_str E) default_limiter (notify_random E)
    (fun _ => send_notification_body E results).

(** ** [main] *)

(** The summary of [main]: the log line and the argument of [exit]. *)
Definition exit_classification (results : list outcome) : trace * Z :=
  let successful := List.length (List.filter success results) in
  let total := List.length results in
  if (successful =? total)%nat then
    ([EvLog INFO (AllSucceeded total)], 0%Z)
  else if (0 <? successful)%nat then
    ([EvLog WARNING (SomeSucceeded successful total)], 1%Z)
  else
    ([EvLog ERROR (AllFailed total)], 2%Z).

(** The part of the [try] block of [main] that can raise. *)
Definition orchestrate (E : env) (SHEETS_CONFIG : list (string * string))
    : M (list outcome) :=
  SheetsBackup_init E ;;;
  results <- backup_all_sheets E SHEETS_CONFIG ;;
  send_notification E results ;;;
  ret results.

(** [main]: the trace of the run and the process exit code.  [exit] raises
    [SystemExit], which [except Exception] does not catch. *)
Definition main (E : env) (SHEETS_CONFIG : list (string * string)) : trace * Z :=
  match orchestrate E SHEETS_CONFIG with
  | (tr, Return results) =>
      let '(tr', code) := exit_classification results in (tr ++ tr', code)
  | (tr, Raise e) =>
      (tr ++ [EvLog ERROR (CriticalError (exc_text e))], 3%Z)
  end.

(** * Properties *)

(** ** The effect monad *)

Lemma bind_ret_l {A B} (a : A) (k : A -> M B) : bind (ret a) k = k a.
Proof. unfold bind, ret. destruct (k a) as [tr r]. reflexivity. Qed.

Lemma bind_raise_l {A B} (e : exn) (k : A -> M B) : bind (raise e) k = raise e.
Proof. reflexivity. Qed.

Lemma bind_emit {B} (ev : event) (k : unit -> M B) :
  bind (emit ev) k = (ev :: fst (k tt), snd (k tt)).
Proof. unfold bind, emit. destruct (k tt) as [tr r]. reflexivity. Qed.

Lemma bind_pair_return {A B} (tr : trace) (a : A) (k : A -> M B) :
  bind (tr, Return a) k = (tr ++ fst (k a), snd (k a)).
Proof. unfold bind. destruct (k a) as [tr' r]. reflexivity. Qed.

Lemma bind_pair_raise {A B} (tr : trace) (e : exn) (k : A -> M B) :
  bind (tr, Raise e) k = (tr, Raise e).
Proof. reflexivity. Qed.

Lemma try_except_return {A} (tr : trace) (a : A) (h : exn -> M A) :
  try_except (tr, Return a) h = (tr, Return a).
Proof. reflexivity. Qed.

Lemma try_except_raise {A} (tr : trace) (e : exn) (h : exn -> M A) :
  try_except (tr, Raise e) h = (tr ++ fst (h e), snd (h e)).
Proof. unfold try_except. destruct (h e) as [tr' r]. reflexivity. Qed.

(** ** Backoff arithmetic *)

Definition is_log (ev : event) : bool :=
  match ev with EvLog _ _ => true | _ => false end.

Definition is_sleep (ev : event) : bool :=
  match ev with EvSleep _ => true | _ => false end.

Lemma float_of_pow2_small (attempt : nat) :
  (attempt < 1024)%nat ->
  float_of_pow2 attempt = ret (inject_Z (2 ^ Z.of_nat attempt)).
Proof.
  intros H. unfold float_of_pow2.
  destruct (Nat.ltb_spec attempt 1024) as [_ | Hge]; [reflexivity | lia].
Qed.

Lemma float_of_pow2_large (attempt : nat) :
  (1024 <= attempt)%nat ->
  float_of_pow2 attempt
  = raise (builtin_error "OverflowError" "int too large to convert to float").
Proof.
  intros H. unfold float_of_pow2.
  destruct (Nat.ltb_spec attempt 1024) as [Hlt | _]; [lia | reflexivity].
Qed.

Lemma backoff_delay_small (n : Z) (attempt : nat) :
  (attempt < 1024)%nat ->
  backoff_delay (RateLimiter_init n) attempt
  = ret (Qmin (1 * inject_Z (2 ^ Z.of_nat attempt)) 60).
Proof.
  intros H. unfold backoff_delay. rewrite (float_of_pow2_small _ H).
  rewrite bind_ret_l. reflexivity.
Qed.

Lemma pow2_Q_pos (i : nat) : (0 < inject_Z (2 ^ Z.of_nat i))%Q.
Proof.
  change 0%Q with (inject_Z 0). rewrite <- Zlt_Qlt.
  apply Z.pow_pos_nonneg; lia.
Qed.

Lemma pow2_Q_mono (i j : nat) :
  (i <= j)%nat -> (inject_Z (2 ^ Z.of_nat i) <= inject_Z (2 ^ Z.of_nat j))%Q.
Proof.
  intros H. rewrite <- Zle_Qle. apply Z.pow_le_mono_r; lia.
Qed.

Lemma Qmin_cap_mono (x y c : Q) : (x <= y)%Q -> (Qmin x c <= Qmin y c)%Q.
Proof.
  intros H. apply Q.min_glb.
  - eapply Qle_trans; [apply Q.le_min_l | exact H].
  - apply Q.le_min_r.
Qed.

Lemma Qmin_cap_pos (x c : Q) : (0 < x)%Q -> (0 < c)%Q -> (0 < Qmin x c)%Q.
Proof.
  intros Hx Hc. destruct (Q.min_spec x c) as [[_ E] | [_ E]]; rewrite E; assumption.
Qed.

Lemma backoff_delay_large (self : RateLimiter) (attempt : nat) :
  (1024 <= attempt)%nat ->
  backoff_delay self attempt
  = raise (builtin_error "OverflowError" "int too large to convert to float").
Proof.
  intros H. unfold backoff_delay. rewrite (float_of_pow2_large _ H). reflexivity.
Qed.

Lemma backoff_delay_inv (n : Z) (attempt : nat) (d : Q) :
  backoff_delay (RateLimiter_init n) attempt = ret d ->
  (attempt < 1024)%nat /\ d = Qmin (1 * inject_Z (2 ^ Z.of_nat attempt)) 60.
Proof.
  intros H. destruct (Nat.lt_ge_cases attempt 1024) as [Hlt | Hge].
  - rewrite (backoff_delay_small n _ Hlt) in H. unfold ret in H.
    split; [exact Hlt | congruence].
  - rewrite (backoff_delay_large _ _ Hge) in H. discriminate H.
Qed.

Lemma backoff_value_pos (i : nat) :
  (0 < Qmin (1 * inject_Z (2 ^ Z.of_nat i)) 60)%Q.
Proof.
  apply Qmin_cap_pos; [| reflexivity].
  rewrite Qmult_1_l. apply pow2_Q_pos.
Qed.

(** C5, as amended: for every attempt index [i] from 0 to 1023 the delay
    before jitter is [min(1.0 * 2^i, 60.0)], it does not decrease when the
    index grows, and with a draw [r] of [random.random()] in [0, 1) the
    jitter is at most a quarter of it, so the returned delay lies between
    the delay and 1.25 times the delay. *)
Theorem C5_backoff_bounds (n : Z) (i : nat) (r : Q) :
  (i < 1024)%nat -> (0 <= r)%Q -> (r < 1)%Q ->
  exists d t : Q,
    backoff_delay (RateLimiter_init n) i = ret d /\
    (d == Qmin (1 * inject_Z (2 ^ Z.of_nat i)) 60)%Q /\
    (d == Qmin (inject_Z (2 ^ Z.of_nat i)) 60)%Q /\
    (forall (j : nat) (d' : Q),
        (i <= j)%nat ->
        backoff_delay (RateLimiter_init n) j = ret d' -> (d <= d')%Q) /\
    exponential_backoff_with_jitter (RateLimiter_init n) i r = ret t /\
    (0 <= t - d)%Q /\ (t - d <= (1 # 4) * d)%Q /\
    (d <= t)%Q /\ (t <= (5 # 4) * d)%Q.
Proof.
  intros Hi Hr0 Hr1.
  set (d := Qmin (1 * inject_Z (2 ^ Z.of_nat i)) 60).
  exists d, (d + d * (1 # 4) * r)%Q.
  assert (Hd : (0 < d)%Q) by apply backoff_value_pos.
  assert (Hj : (0 <= d * r)%Q) by (apply Qmult_le_0_compat; lra).
  assert (Hk : (d * r <= d)%Q).
  { rewrite <- (Qmult_1_r d) at 2. apply Qmult_le_l; lra. }
  split; [apply backoff_delay_small; exact Hi |].
  split; [reflexivity |].
  split; [unfold d; rewrite Qmult_1_l; reflexivity |].
  split.
  { intros j d' Hij Hd'. apply backoff_delay_inv in Hd' as [_ ->].
    unfold d. apply Qmin_cap_mono. rewrite !Qmult_1_l.
    apply pow2_Q_mono. exact Hij. }
  split.
  { unfold exponential_backoff_with_jitter.
    rewrite (backoff_delay_small n _ Hi), bind_ret_l. reflexivity. }
  repeat split; lra.
Qed.

(** A run of the amended C5 at attempt 3 with the draw 1/2. *)
Lemma C5_backoff_bounds_witness :
  exists d t : Q,
    backoff_delay (RateLimiter_init 5) 3 = ret d /\
    (d == 8)%Q /\
    exponential_backoff_with_jitter (RateLimiter_init 5) 3 (1 # 2) = ret t /\
    (d <= t)%Q /\ (t <= (5 # 4) * d)%Q.
Proof.
  assert (Hi : (3 < 1024)%nat) by lia.
  assert (Hr0 : (0 <= 1 # 2)%Q) by (vm_compute; discriminate).
  assert (Hr1 : (1 # 2 < 1)%Q) by reflexivity.
  destruct (C5_backoff_bounds 5 3 (1 # 2) Hi Hr0 Hr1)
    as (d & t & H1 & _ & H3 & _ & H5 & _ & _ & H8 & H9).
  exists d, t. repeat split; assumption.
Defined.

(** C5, as stated, fails at attempt index 1024: the conversion of
    [2 ** 1024] to a float raises [OverflowError], so no delay is
    computed there. *)
Lemma C5_counterexample :
  backoff_delay default_limiter 1024
  = raise (builtin_error "OverflowError" "int too large to convert to float")
  /\ exponential_backoff_with_jitter default_limiter 1024 (1 # 2)
     = raise (builtin_error "OverflowError" "int too large to convert to float")
  /\ ~ (exists d : Q,
          backoff_delay default_limiter 1024 = ret d
          /\ (d == Qmin (1 * inject_Z (2 ^ 1024)) 60)%Q).
Proof.
  assert (H : backoff_delay default_limiter 1024
              = raise (builtin_error "OverflowError"
                         "int too large to convert to float")).
  { apply backoff_delay_large. lia. }
  split; [exact H |]. split.
  - unfold exponential_backoff_with_jitter. rewrite H. reflexivity.
  - intros (d & Hd & _). rewrite H in Hd. discriminate Hd.
Qed.

(** ** The retry wrapper *)

Section ExecutorFacts.

Variable float_of_str : string -> option Q.
Variable self : RateLimiter.
Variable rand : nat -> Q.

Lemma backoff_cases (attempt : nat) (random : Q) :
  (exists t, exponential_backoff_with_jitter self attempt random = ret t)
  \/ exponential_backoff_with_jitter self attempt random
     = raise (builtin_error "OverflowError" "int too large to convert to float").
Proof.
  unfold exponential_backoff_with_jitter, backoff_delay, float_of_pow2.
  destruct (attempt <? 1024)%nat.
  - left. rewrite !bind_ret_l. eexists. reflexivity.
  - right. reflexivity.
Qed.

Lemma py_float_cases (v : pyval) :
  (exists d, py_float float_of_str v = ret d)
  \/ (exists x, py_float float_of_str v = raise x).
Proof.
  destruct v as [q | s]; simpl.
  - left. eexists. reflexivity.
  - destruct (float_of_str s); [left | right]; eexists; reflexivity.
Qed.

(** The handler only writes log records. *)
Lemma handle_failure_logs (attempt : nat) (random : Q) (e : exn) :
  forallb is_log (fst (handle_failure float_of_str self attempt random e)) = true.
Proof.
  unfold handle_failure.
  destruct (backoff_cases attempt random) as [[t Ht] | Ht]; rewrite !Ht;
    destruct (status_of e) as [s |];
    try destruct (s =? 429)%Z;
    try destruct (retry_after_of e) as [v |];
    try destruct (truthy v);
    try (destruct (py_float_cases v) as [[d Hd] | [x Hd]]; rewrite Hd);
    try destruct (500 <=? s)%Z;
    try destruct (quota_or_rate e);
    reflexivity.
Qed.

Section Loop.

Context {A : Type}.
Variable func : nat -> M A.

Let loop := retry_loop (A := A) float_of_str self rand func.

Lemma retry_loop_return (a : nat) (rest : list nat) (last : option exn)
    (tr : trace) (x : A) :
  func a = (tr, Return x) ->
  loop (a :: rest) last
  = (EvCall a :: tr ++ (if (0 <? a)%nat
                        then [EvLog INFO (SuccessAfter (a + 1))] else []),
     Return x).
Proof.
  intros Hf. unfold loop. cbn [retry_loop].
  rewrite bind_emit, Hf, bind_pair_return.
  destruct (0 <? a)%nat; reflexivity.
Qed.

Lemma retry_loop_crash (a : nat) (rest : list nat) (last : option exn)
    (tr trh : trace) (e x : exn) :
  func a = (tr, Raise e) ->
  handle_failure float_of_str self a (rand a) e = (trh, Raise x) ->
  loop (a :: rest) last = (EvCall a :: tr ++ trh, Raise x).
Proof.
  intros Hf Hh. unfold loop. cbn [retry_loop].
  rewrite bind_emit, Hf, bind_pair_raise. simpl fst; simpl snd.
  rewrite try_except_raise, Hh, bind_pair_raise. reflexivity.
Qed.

Lemma retry_loop_break (a : nat) (rest : list nat) (last : option exn)
    (tr trh : trace) (e : exn) :
  func a = (tr, Raise e) ->
  handle_failure float_of_str self a (rand a) e = (trh, Return Break) ->
  loop (a :: rest) last = (EvCall a :: tr ++ trh, Raise e).
Proof.
  intros Hf Hh. unfold loop. cbn [retry_loop].
  rewrite bind_emit, Hf, bind_pair_raise. simpl fst; simpl snd.
  rewrite try_except_raise, Hh, bind_pair_return. simpl.
  rewrite app_nil_r. reflexivity.
Qed.

Lemma retry_loop_sleep (a : nat) (rest : list nat) (last : option exn)
    (tr trh : trace) (e : exn) (d : Q) :
  func a = (tr, Raise e) ->
  handle_failure float_of_str self a (rand a) e = (trh, Return (Retry d)) ->
  (Z.of_nat a < max_retries self - 1)%Z ->
  (0 <= d)%Q ->
  loop (a :: rest) last
  = (EvCall a :: tr ++ trh ++ EvSleep d :: fst (loop rest (Some e)),
     snd (loop rest (Some e))).
Proof.
  intros Hf Hh Ha Hd. unfold loop. cbn [retry_loop].
  rewrite bind_emit, Hf, bind_pair_raise. simpl fst; simpl snd.
  rewrite try_except_raise, Hh, bind_pair_return.
  destruct (Z.ltb_spec (Z.of_nat a) (max_retries self - 1)) as [_ | Hge]; [| lia].
  unfold time_sleep. apply Qle_bool_iff in Hd. rewrite Hd.
  rewrite bind_emit. simpl. reflexivity.
Qed.

Lemma retry_loop_final (a : nat) (rest : list nat) (last : option exn)
    (tr trh : trace) (e : exn) (d : Q) :
  func a = (tr, Raise e) ->
  handle_failure float_of_str self a (rand a) e = (trh, Return (Retry d)) ->
  (max_retries self - 1 <= Z.of_nat a)%Z ->
  loop (a :: rest) last
  = (EvCall a :: tr ++ trh
       ++ EvLog ERROR (MaxRetriesExceeded (max_retries self))
       :: fst (loop rest (Some e)),
     snd (loop rest (Some e))).
Proof.
  intros Hf Hh Ha. unfold loop. cbn [retry_loop].
  rewrite bind_emit, Hf, bind_pair_raise. simpl fst; simpl snd.
  rewrite try_except_raise, Hh, bind_pair_return.
  destruct (Z.ltb_spec (Z.of_nat a) (max_retries self - 1)) as [Hlt | _]; [lia |].
  unfold log. rewrite bind_emit. simpl. reflexivity.
Qed.

End Loop.

End ExecutorFacts.

Definition is_call (ev : event) : bool :=
  match ev with EvCall _ => true | _ => false end.

(** How many times a trace records a call of the wrapped function, and how
    many sleeps. *)
Definition calls_of (tr : trace) : nat := List.length (List.filter is_call tr).
Definition sleeps_of (tr : trace) : nat := List.length (List.filter is_sleep tr).

(** The failures the specification calls non-retryable: no status 429, no
    status from 500 up, and neither keyword in the text. *)
Definition non_retryable (e : exn) : bool :=
  match status_of e with
  | Some s => negb (s =? 429)%Z && negb (500 <=? s)%Z
  | None => true
  end
  && negb (quota_or_rate e).

(** The record the handler writes for a non-retryable failure. *)
Definition non_retryable_record (e : exn) : logmsg :=
  match status_of e with
  | Some s => NonRetryableStatus s (sanitize_error_message (exc_text e))
  | None => NonRetryable (sanitize_error_message (exc_text e))
  end.

Lemma handle_failure_non_retryable (float_of_str : string -> option Q)
    (self : RateLimiter) (attempt : nat) (random : Q) (e : exn) :
  non_retryable e = true ->
  handle_failure float_of_str self attempt random e
  = ([EvLog ERROR (non_retryable_record e)], Return Break).
Proof.
  unfold non_retryable, non_retryable_record, handle_failure. intros H.
  apply andb_true_iff in H as [Hs Hq]. apply negb_true_iff in Hq.
  destruct (status_of e) as [s |].
  - apply andb_true_iff in Hs as [H1 H2].
    apply negb_true_iff in H1, H2. rewrite H1, H2. reflexivity.
  - rewrite Hq. reflexivity.
Qed.

Lemma calls_of_app (t1 t2 : trace) : calls_of (t1 ++ t2) = (calls_of t1 + calls_of t2)%nat.
Proof. unfold calls_of. rewrite List.filter_app, List.length_app. reflexivity. Qed.

Lemma sleeps_of_app (t1 t2 : trace) :
  sleeps_of (t1 ++ t2) = (sleeps_of t1 + sleeps_of t2)%nat.
Proof. unfold sleeps_of. rewrite List.filter_app, List.length_app. reflexivity. Qed.

(** C4: when the first call fails with a non-retryable failure, the wrapper
    calls the function once, writes one error record, does not sleep and
    raises that failure; the remaining attempts are not used. *)
Theorem C4_non_retryable_aborts {A : Type} (float_of_str : string -> option Q)
    (self : RateLimiter) (rand : nat -> Q) (func : nat -> M A)
    (tr : trace) (e : exn) :
  (1 <= max_retries self)%Z ->
  func 0%nat = (tr, Raise e) ->
  non_retryable e = true ->
  wrapper float_of_str self rand func
  = (EvCall 0 :: tr ++ [EvLog ERROR (non_retryable_record e)], Raise e)
  /\ calls_of (fst (wrapper float_of_str self rand func)) = S (calls_of tr)
  /\ sleeps_of (fst (wrapper float_of_str self rand func)) = sleeps_of tr.
Proof.
  intros Hn Hf He.
  assert (Hw : wrapper float_of_str self rand func
               = (EvCall 0 :: tr ++ [EvLog ERROR (non_retryable_record e)], Raise e)).
  { unfold wrapper.
    destruct (Z.to_nat (max_retries self)) as [| k] eqn:Hk; [lia |].
    cbn [seq].
    apply (retry_loop_break float_of_str self rand func 0 (seq 1 k) None tr _ e Hf).
    apply handle_failure_non_retryable. exact He. }
  rewrite Hw. split; [reflexivity |]. cbn [fst]. split.
  - change (EvCall 0 :: tr ++ [EvLog ERROR (non_retryable_record e)])
      with ([EvCall 0] ++ tr ++ [EvLog ERROR (non_retryable_record e)]).
    rewrite !calls_of_app. cbn. lia.
  - change (EvCall 0 :: tr ++ [EvLog ERROR (non_retryable_record e)])
      with ([EvCall 0] ++ tr ++ [EvLog ERROR (non_retryable_record e)]).
    rewrite !sleeps_of_app. cbn. lia.
Qed.

(** A 404 answer of the spreadsheet service. *)
Definition not_found_error : exn :=
  {| exc_class := "HttpError";
     exc_resp := Some {| status := Some 404%Z; retry_after := None; headers := [] |};
     exc_text := "Requested entity was not found." |}.

(** C4 on a function whose every call answers 404, under the default
    limiter. *)
Lemma C4_non_retryable_aborts_witness :
  wrapper (fun _ => None) default_limiter (fun _ => 1 # 2)
    (fun _ => @raise nat not_found_error)
  = ([EvCall 0; EvLog ERROR (NonRetryableStatus 404 "Requested entity was not found.")],
     Raise not_found_error).
Proof.
  assert (Hn : (1 <= max_retries default_limiter)%Z) by (vm_compute; discriminate).
  assert (Hf : (fun _ : nat => @raise nat not_found_error) 0%nat
               = ([], Raise not_found_error)) by reflexivity.
  assert (He : non_retryable not_found_error = true) by reflexivity.
  exact (proj1 (C4_non_retryable_aborts (fun _ => None) default_limiter
                  (fun _ => 1 # 2) (fun _ => @raise nat not_found_error)
                  [] not_found_error Hn Hf He)).
Defined.

(** The branch of lines 72 to 74: when a failure has status 429 and its
    [retry-after] attribute is truthy (a non-zero number or a non-empty
    text) and [float] converts it to [d], the chosen delay is [d]: no
    backoff is computed, the draw of the random generator and the attempt
    index play no part, and on an attempt before the last the wrapper sleeps
    exactly [d]. *)
Lemma retry_after_attribute_verbatim (float_of_str : string -> option Q)
    (self : RateLimiter) (attempt : nat) (random : Q) (e : exn)
    (v : pyval) (d : Q) :
  status_of e = Some 429%Z ->
  retry_after_of e = Some v ->
  truthy v = true ->
  py_float float_of_str v = ret d ->
  handle_failure float_of_str self attempt random e
  = ([EvLog WARNING (RateLimitedHeader d)], Return (Retry d))
  /\ forall (A : Type) (rand : nat -> Q) (func : nat -> M A) (tr : trace)
       (rest : list nat) (last : option exn),
       rand attempt = random ->
       func attempt = (tr, Raise e) ->
       (Z.of_nat attempt < max_retries self - 1)%Z ->
       (0 <= d)%Q ->
       retry_loop float_of_str self rand func (attempt :: rest) last
       = (EvCall attempt :: tr ++ [EvLog WARNING (RateLimitedHeader d)]
            ++ EvSleep d
            :: fst (retry_loop float_of_str self rand func rest (Some e)),
          snd (retry_loop float_of_str self rand func rest (Some e))).
Proof.
  intros Hs Hr Ht Hf.
  assert (Hh : handle_failure float_of_str self attempt random e
               = ([EvLog WARNING (RateLimitedHeader d)], Return (Retry d))).
  { unfold handle_failure. rewrite Hs, Hr, Ht, Hf. reflexivity. }
  split; [exact Hh |].
  intros A rand func tr rest last Hrand Hfunc Ha Hd.
  apply retry_loop_sleep; try assumption.
  rewrite Hrand. exact Hh.
Qed.

(** A 429 failure whose response object has the given [retry-after]
    attribute, as a duck-typed response object can have. *)
Definition rate_limited (v : option pyval) : exn :=
  {| exc_class := "HttpError";
     exc_resp := Some {| status := Some 429%Z; retry_after := v; headers := [] |};
     exc_text := "Too Many Requests" |}.

(** An attribute of 30 is used as it is; an attribute of 0 is falsy, and
    the delay is the backoff with jitter. *)
Example retry_after_attribute_examples :
  handle_failure (fun _ => None) default_limiter 2 (1 # 2)
    (rate_limited (Some (PyNum 30)))
  = ([EvLog WARNING (RateLimitedHeader 30)], Return (Retry 30))
  /\ handle_failure (fun _ => None) default_limiter 0 (1 # 2)
       (rate_limited (Some (PyNum 0)))
     = ([EvLog WARNING (RateLimitedBackoff (9 # 8))], Return (Retry (9 # 8))).
Proof. split; reflexivity. Qed.

(** The failure [googleapiclient] raises for a 429 answer that carries the
    header [Retry-After: wait]: the header is the item ['retry-after'] of
    the response, and the response has no attribute of that name. *)
Definition too_many_requests (wait : string) : exn :=
  {| exc_class := "HttpError";
     exc_resp := Some {| status := Some 429%Z; retry_after := None;
                         headers := [("retry-after", wait)] |};
     exc_text := "Too Many Requests" |}.

(** The same failure with other items in its response. *)
Definition with_headers (e : exn) (h : list (string * string)) : exn :=
  {| exc_class := exc_class e;
     exc_resp := match exc_resp e with
                 | Some r => Some {| status := status r;
                                     retry_after := retry_after r;
                                     headers := h |}
                 | None => None
                 end;
     exc_text := exc_text e |}.

(** One call that fails with [e], then a call that returns 7. *)
Definition fails_once (e : exn) (k : nat) : M nat :=
  if (k =? 0)%nat then raise e else ret 7%nat.

(** C6: the wait a 429 answer suggests in its [Retry-After] header is not
    read.  The decision of the [except] block is the same whatever the
    items of the response are.  On the 429 failure with the header
    [Retry-After: 30], at attempt 0 with the draw 1/2, the block logs the
    exponential backoff and chooses 9/8 seconds, and the wrapper sleeps
    9/8 seconds before the second call, although [float] would read the
    text of the header as 30. *)
Theorem C6_retry_after_header_not_read :
  (forall (float_of_str : string -> option Q) (self : RateLimiter)
          (attempt : nat) (random : Q) (e : exn) (h : list (string * string)),
      handle_failure float_of_str self attempt random (with_headers e h)
      = handle_failure float_of_str self attempt random e)
  /\ handle_failure (fun _ => Some 30%Q) default_limiter 0 (1 # 2)
       (too_many_requests "30")
     = ([EvLog WARNING (RateLimitedBackoff (9 # 8))], Return (Retry (9 # 8)))
  /\ wrapper (fun _ => Some 30%Q) default_limiter (fun _ => 1 # 2)
       (fails_once (too_many_requests "30"))
     = ([EvCall 0; EvLog WARNING (RateLimitedBackoff (9 # 8)); EvSleep (9 # 8);
         EvCall 1; EvLog INFO (SuccessAfter 2)],
        Return 7%nat)
  /\ ~ (9 # 8 == 30)%Q.
Proof.
  split; [| split; [reflexivity | split; [reflexivity |]]].
  - intros float_of_str self attempt random e h.
    unfold handle_failure, status_of, retry_after_of, quota_or_rate, with_headers.
    cbn [exc_resp exc_text status retry_after].
    destruct (exc_resp e) as [r |]; reflexivity.
  - vm_compute. discriminate.
Qed.

(** ** Exhausting the attempts *)

(** Attempt [k] fails and the failure is retried after a wait. *)
Definition retried {A : Type} (float_of_str : string -> option Q)
    (self : RateLimiter) (rand : nat -> Q) (func : nat -> M A) (k : nat)
    : Prop :=
  exists (tr : trace) (e : exn) (trh : trace) (d : Q),
    func k = (tr, Raise e)
    /\ handle_failure float_of_str self k (rand k) e = (trh, Return (Retry d))
    /\ (0 <= d)%Q.

Lemma forallb_is_log_not_sleep (tr : trace) :
  forallb is_log tr = true -> sleeps_of tr = 0%nat.
Proof.
  unfold sleeps_of. induction tr as [| ev tr IH]; [reflexivity |].
  cbn [forallb]. intros H. apply andb_true_iff in H as [Hev Htr].
  destruct ev; try discriminate Hev. cbn. apply IH. exact Htr.
Qed.

(** What the wrapper raises when attempt [m], the last one, fails with
    [e]: [e] itself when the [except] block handles it, and otherwise the
    exception the [except] block raised while handling it. *)
Definition final_exception (float_of_str : string -> option Q)
    (self : RateLimiter) (m : nat) (random : Q) (e : exn) : exn :=
  match snd (handle_failure float_of_str self m random e) with
  | Return _ => e
  | Raise x => x
  end.

Lemma retry_loop_exhaust {A : Type} (float_of_str : string -> option Q)
    (self : RateLimiter) (rand : nat -> Q) (func : nat -> M A)
    (m : nat) (tr : trace) (e : exn) :
  max_retries self = Z.of_nat (S m) ->
  func m = (tr, Raise e) ->
  forall (len a : nat) (last : option exn),
    (a + len = m)%nat ->
    (forall k, (a <= k < m)%nat -> retried float_of_str self rand func k) ->
    exists pre post : trace,
      retry_loop float_of_str self rand func (seq a (S len)) last
      = (pre ++ EvCall m :: tr ++ post,
         Raise (final_exception float_of_str self m (rand m) e))
      /\ forallb is_log post = true.
Proof.
  intros Hn Hf. induction len as [| len IH]; intros a last Ha Hk.
  - assert (a = m) by lia. subst a. cbn [seq].
    pose proof (handle_failure_logs float_of_str self m (rand m) e) as Hlog.
    unfold final_exception.
    destruct (handle_failure float_of_str self m (rand m) e) as [trh [c | x]] eqn:Hh;
      cbn [fst snd] in *.
    + destruct c as [d |].
      * exists [], (trh ++ [EvLog ERROR (MaxRetriesExceeded (max_retries self))]).
        split.
        -- rewrite (retry_loop_final float_of_str self rand func m [] last tr trh e d Hf Hh)
             by lia.
           cbn. rewrite <- ?List.app_assoc. reflexivity.
        -- rewrite forallb_app, Hlog. reflexivity.
      * exists [], trh. split; [| exact Hlog].
        apply (retry_loop_break float_of_str self rand func m [] last tr trh e Hf Hh).
    + exists [], trh. split; [| exact Hlog].
      apply (retry_loop_crash float_of_str self rand func m [] last tr trh e x Hf Hh).
  - destruct (Hk a) as (tra & ea & trha & d & Hfa & Hha & Hd); [lia |].
    destruct (IH (S a) (Some ea)) as (pre & post & Hloop & Hpost); [lia | |].
    { intros k Hk'. apply Hk. lia. }
    exists (EvCall a :: tra ++ trha ++ EvSleep d :: pre), post.
    split; [| exact Hpost].
    change (seq a (S (S len))) with (a :: seq (S a) (S len)).
    rewrite (retry_loop_sleep float_of_str self rand func a _ last tra trha ea d Hfa Hha)
      by (try assumption; lia).
    rewrite Hloop. cbn [fst snd]. f_equal.
    cbn. rewrite <- !List.app_assoc. reflexivity.
Qed.

(** The [except] block handles a failure without raising when the attempt
    index is below 1024 and the suggested wait that would be used, if the
    failure is a 429 that has one, is a value [float] accepts. *)
Lemma handle_failure_completes (float_of_str : string -> option Q)
    (self : RateLimiter) (attempt : nat) (random : Q) (e : exn) :
  (attempt < 1024)%nat ->
  (forall v, status_of e = Some 429%Z -> retry_after_of e = Some v ->
             truthy v = true -> exists d, py_float float_of_str v = ret d) ->
  exists (trh : trace) (c : control),
    handle_failure float_of_str self attempt random e = (trh, Return c).
Proof.
  intros Ha Hv. unfold handle_failure.
  assert (Hb : exists t, exponential_backoff_with_jitter self attempt random = ret t).
  { unfold exponential_backoff_with_jitter, backoff_delay, float_of_pow2.
    destruct (Nat.ltb_spec attempt 1024) as [_ | Hge]; [| lia].
    rewrite !bind_ret_l. eexists. reflexivity. }
  destruct Hb as [t Ht]. rewrite !Ht.
  destruct (status_of e) as [s |].
  - destruct (Z.eqb_spec s 429) as [-> | _].
    + destruct (retry_after_of e) as [v |].
      * destruct (truthy v) eqn:Htv.
        -- destruct (Hv v eq_refl eq_refl Htv) as [d Hd]. rewrite Hd.
           eexists; eexists; reflexivity.
        -- eexists; eexists; reflexivity.
      * eexists; eexists; reflexivity.
    + destruct (500 <=? s)%Z; eexists; eexists; reflexivity.
  - destruct (quota_or_rate e); eexists; eexists; reflexivity.
Qed.


(** A 503 answer of the spreadsheet service. *)
Definition unavailable_error : exn :=
  {| exc_class := "HttpError";
     exc_resp := Some {| status := Some 503%Z; retry_after := None; headers := [] |};
     exc_text := "The service is currently unavailable." |}.


(** Four 503 answers, then a 429 answer whose [retry-after] attribute is a
    text that [float] rejects. *)
Definition unavailable_then_unreadable_wait (k : nat) : M nat :=
  if (k <? 4)%nat then raise unavailable_error
  else raise (rate_limited (Some (PyStr "soon"))).


(** In every run in which each call of the function fails, the wrapper
    ends by raising: it has no path that returns without a result of the
    function. *)
Lemma retry_loop_never_swallows {A : Type} (float_of_str : string -> option Q)
    (self : RateLimiter) (rand : nat -> Q) (func : nat -> M A) :
  (forall k, is_raise (snd (func k)) = true) ->
  forall (todo : list nat) (last : option exn),
    is_raise (snd (retry_loop float_of_str self rand func todo last)) = true.
Proof.
  intros Hall todo. induction todo as [| a rest IH]; intros last.
  - destruct last; reflexivity.
  - specialize (Hall a). destruct (func a) as [tr [x | e]] eqn:Hf;
      [discriminate Hall |].
    destruct (handle_failure float_of_str self a (rand a) e) as [trh [[d |] | x]] eqn:Hh.
    + destruct (Z.lt_ge_cases (Z.of_nat a) (max_retries self - 1)) as [Hlt | Hge].
      * destruct (Qlt_le_dec d 0) as [Hneg | Hpos].
        -- cbn [retry_loop]. rewrite bind_emit, Hf, bind_pair_raise.
           cbn [fst snd]. rewrite try_except_raise, Hh, bind_pair_return.
           destruct (Z.ltb_spec (Z.of_nat a) (max_retries self - 1)); [| lia].
           unfold time_sleep.
           destruct (Qle_bool 0 d) eqn:Hb;
             [apply Qle_bool_iff in Hb; exfalso; apply (Qlt_not_le _ _ Hneg Hb) |].
           reflexivity.
        -- rewrite (retry_loop_sleep float_of_str self rand func a rest last tr trh e d
                      Hf Hh Hlt Hpos).
           apply IH.
      * rewrite (retry_loop_final float_of_str self rand func a rest last tr trh e d
                   Hf Hh) by lia.
        apply IH.
    + rewrite (retry_loop_break float_of_str self rand func a rest last tr trh e Hf Hh).
      reflexivity.
    + rewrite (retry_loop_crash float_of_str self rand func a rest last tr trh e x Hf Hh).
      reflexivity.
Qed.

(** ** Reshaping of rows *)

Lemma reshape_row_length (header r : row) :
  List.length (reshape_row header r) = List.length header.
Proof.
  unfold reshape_row.
  destruct (Nat.ltb_spec (List.length r) (List.length header)) as [Hlt | Hge].
  - rewrite List.length_app, repeat_length. lia.
  - destruct (Nat.ltb_spec (List.length header) (List.length r)) as [Hgt | Hle].
    + rewrite List.length_firstn. lia.
    + lia.
Qed.

(** What the adapter promises of one row: [output] has the width of the
    header; it is [input] followed by empty strings when [input] is
    shorter, the first cells of [input] when it is longer, and [input]
    itself otherwise. *)
Definition padded_or_truncated (header input output : row) : Prop :=
  List.length output = List.length header
  /\ ((List.length input < List.length header)%nat ->
      output = input ++ repeat "" (List.length header - List.length input))
  /\ ((List.length header < List.length input)%nat ->
      output = firstn (List.length header) input)
  /\ (List.length input = List.length header -> output = input).

Lemma reshape_row_spec (header r : row) :
  padded_or_truncated header r (reshape_row header r).
Proof.
  split; [apply reshape_row_length |]. unfold reshape_row.
  destruct (Nat.ltb_spec (List.length r) (List.length header)) as [Hlt | Hge].
  - repeat split; intros; solve [reflexivity | lia].
  - destruct (Nat.ltb_spec (List.length header) (List.length r)) as [Hgt | Hle];
      repeat split; intros; solve [reflexivity | lia].
Qed.

Lemma reshape_rows_spec (header : row) (rows : list row) :
  Forall2 (padded_or_truncated header) rows (map (reshape_row header) rows).
Proof.
  induction rows as [| r rows IH]; constructor;
    [apply reshape_row_spec | exact IH].
Qed.

(** Every row of a frame built for a worksheet has the width of its
    header, so that the frame can be built at all. *)
Lemma reshape_sheet_rows (sheet_title : string) (values : list row) (f : frame) :
  reshape_sheet sheet_title values = Some f ->
  Forall (fun r => List.length r = List.length (frame_header f)) (frame_rows f)
  /\ frame_rows f <> [].
Proof.
  unfold reshape_sheet. intros H.
  assert (Hmap : forall header rows,
             Forall (fun r => List.length r = List.length header)
               (map (reshape_row header) rows)).
  { intros header rows. apply List.Forall_forall. intros r Hr.
    apply List.in_map_iff in Hr as (r0 & <- & _).
    apply reshape_row_length. }
  destruct (3 <? List.length values)%nat.
  - destruct (map (reshape_row (nth 2 values [])) (skipn 3 values)) as [| r0 rs] eqn:E;
      [discriminate H |].
    injection H as <-. cbn. split; [| discriminate].
    rewrite <- E. apply Hmap.
  - destruct (1 <? List.length values)%nat; [| discriminate H].
    destruct (map (reshape_row (nth 0 values [])) (skipn 1 values)) as [| r0 rs] eqn:E;
      [discriminate H |].
    injection H as <-. cbn. split; [| discriminate].
    rewrite <- E. apply Hmap.
Qed.

(** C9: the frame the adapter builds for a worksheet has one row for each
    data row of the worksheet, in order (the rows after the header, which
    is the third row of a worksheet of more than three rows and the first
    row otherwise); each of them has exactly the length of the header: a
    shorter row is the row followed by empty strings, a longer row is its
    first cells, and a row of the right length is unchanged.  The step
    applied to one row has these properties for every header and row. *)
Theorem C9_reshaped_rows_have_header_length (sheet_title : string)
    (values : list row) :
  (forall header r : row, padded_or_truncated header r (reshape_row header r))
  /\ forall f : frame,
       reshape_sheet sheet_title values = Some f ->
       Forall (fun r => List.length r = List.length (frame_header f))
         (frame_rows f)
       /\ ((3 < List.length values)%nat ->
           frame_header f = nth 2 values []
           /\ Forall2 (padded_or_truncated (frame_header f))
                (skipn 3 values) (frame_rows f))
       /\ ((List.length values <= 3)%nat ->
           frame_header f = nth 0 values []
           /\ Forall2 (padded_or_truncated (frame_header f))
                (skipn 1 values) (frame_rows f)).
Proof.
  split; [exact reshape_row_spec |]. intros f Hf.
  split; [exact (proj1 (reshape_sheet_rows sheet_title values f Hf)) |].
  unfold reshape_sheet in Hf.
  destruct (Nat.ltb_spec 3 (List.length values)) as [Hlong | Hshort].
  - destruct (map (reshape_row (nth 2 values [])) (skipn 3 values))
      as [| r0 rs] eqn:E; [discriminate Hf |].
    injection Hf as <-. cbn [frame_header frame_rows].
    split; [| intros Hle; lia]. intros _. split; [reflexivity |].
    rewrite <- E. apply reshape_rows_spec.
  - destruct (1 <? List.length values)%nat; [| discriminate Hf].
    destruct (map (reshape_row (nth 0 values [])) (skipn 1 values))
      as [| r0 rs] eqn:E; [discriminate Hf |].
    injection Hf as <-. cbn [frame_header frame_rows].
    split; [intros Hgt; lia |]. intros _. split; [reflexivity |].
    rewrite <- E. apply reshape_rows_spec.
Qed.

(** C9 on a worksheet of two summary rows, a header of two columns, a row
    of three cells and a row of one cell. *)
Lemma C9_reshaped_rows_have_header_length_witness :
  exists f : frame,
    reshape_sheet "Sales"
      [["Weekly summary"]; ["Total"; "12"]; ["id"; "item"];
       ["1"; "eggs"; "x"]; ["2"]] = Some f
    /\ frame_rows f = [["1"; "eggs"]; ["2"; ""]]
    /\ Forall (fun r => List.length r = List.length (frame_header f))
         (frame_rows f)
    /\ Forall2 (padded_or_truncated (frame_header f))
         [["1"; "eggs"; "x"]; ["2"]] (frame_rows f).
Proof.
  eexists. split; [reflexivity |]. split; [reflexivity |].
  pose proof (proj2 (C9_reshaped_rows_have_header_length "Sales"
                       [["Weekly summary"]; ["Total"; "12"]; ["id"; "item"];
                        ["1"; "eggs"; "x"]; ["2"]]) _ eq_refl)
    as (Hwidth & Hlong & _).
  split; [exact Hwidth |].
  apply Hlong. cbn. lia.
Defined.

(** ** One sheet *)

Lemma backup_single_sheet_with_spec (fetch : M DataFrame)
    (upload : DataFrame -> M string) (duration : Q) (sheet_name : string) :
  exists (tr : trace) (o : outcome),
    backup_single_sheet_with fetch upload duration sheet_name = (tr, Return o)
    /\ o_sheet_name o = sheet_name
    /\ (success o = true <->
        exists (tf : trace) (data : DataFrame) (tu : trace) (url : string),
          fetch = (tf, Return data)
          /\ df_empty data = false
          /\ upload data = (tu, Return url)).
Proof.
  unfold backup_single_sheet_with.
  destruct fetch as [tf [data | e]].
  - rewrite bind_pair_return. destruct (df_empty data) eqn:Hempty.
    + eexists; eexists. split; [reflexivity |]. split; [reflexivity |].
      cbn. split; [discriminate |].
      intros (tf' & data' & tu & url & Hf & He & _).
      injection Hf as _ <-. congruence.
    + destruct (upload data) as [tu [url | e]] eqn:Hup.
      * rewrite bind_pair_return. eexists; eexists.
        split; [reflexivity |]. split; [reflexivity |].
        cbn. split; [| reflexivity]. intros _.
        exists tf, data, tu, url. repeat split; assumption.
      * rewrite bind_pair_raise. cbn [fst snd]. rewrite try_except_raise.
        eexists; eexists. split; [reflexivity |]. split; [reflexivity |].
        cbn. split; [discriminate |].
        intros (tf' & data' & tu' & url & Hf & _ & Hu).
        injection Hf as _ <-. rewrite Hup in Hu. discriminate Hu.
  - rewrite bind_pair_raise, try_except_raise.
    eexists; eexists. split; [reflexivity |]. split; [reflexivity |].
    cbn. split; [discriminate |].
    intros (tf' & data' & tu & url & Hf & _). discriminate Hf.
Qed.

(** C3: [backup_single_sheet] always returns an outcome, and the outcome has
    [success = true] exactly when the extraction call returned data that is
    not empty and the archival call on that data returned; when the
    extraction raises, returns empty data, or the archival raises, the
    outcome has [success = false]. *)
Theorem C3_success_iff (E : env) (sheet_name sheet_id : string) :
  exists (tr : trace) (o : outcome),
    backup_single_sheet E sheet_name sheet_id = (tr, Return o)
    /\ o_sheet_name o = sheet_name
    /\ (success o = true <->
        exists (tf : trace) (data : DataFrame) (tu : trace) (url : string),
          _fetch_sheet_data E sheet_id sheet_name = (tf, Return data)
          /\ df_empty data = false
          /\ _upload_to_s3 E data sheet_name = (tu, Return url)).
Proof.
  unfold backup_single_sheet. apply backup_single_sheet_with_spec.
Qed.

(** ** The exit code *)

Lemma filter_length_le {A : Type} (p : A -> bool) (l : list A) :
  (List.length (List.filter p l) <= List.length l)%nat.
Proof.
  induction l as [| x l IH]; [reflexivity |].
  cbn. destruct (p x); cbn; lia.
Qed.

(** [successful == total] holds exactly when every outcome succeeded. *)
Lemma all_counted_iff (results : list outcome) :
  List.length (List.filter success results) = List.length results
  <-> forallb success results = true.
Proof.
  induction results as [| o rs IH]; [split; reflexivity |].
  cbn. pose proof (filter_length_le success rs) as Hle.
  destruct (success o); cbn.
  - rewrite <- IH. lia.
  - split; [lia | discriminate].
Qed.

(** [successful > 0] holds exactly when some outcome succeeded. *)
Lemma some_counted_iff (results : list outcome) :
  (0 < List.length (List.filter success results))%nat
  <-> existsb success results = true.
Proof.
  induction results as [| o rs IH]; [cbn; split; [lia | discriminate] |].
  cbn. destruct (success o); cbn.
  - split; [reflexivity | lia].
  - exact IH.
Qed.

Lemma exit_code_all (results : list outcome) :
  forallb success results = true -> snd (exit_classification results) = 0%Z.
Proof.
  intros H. apply all_counted_iff in H. unfold exit_classification.
  rewrite H, Nat.eqb_refl. reflexivity.
Qed.

Lemma exit_code_partial (results : list outcome) :
  existsb success results = true -> forallb success results = false ->
  snd (exit_classification results) = 1%Z.
Proof.
  intros Hsome Hall. apply some_counted_iff in Hsome. unfold exit_classification.
  destruct (Nat.eqb_spec (List.length (List.filter success results))
              (List.length results)) as [Heq | _].
  - apply all_counted_iff in Heq. congruence.
  - destruct (Nat.ltb_spec 0 (List.length (List.filter success results)));
      [reflexivity | lia].
Qed.

Lemma exit_code_none (results : list outcome) :
  results <> [] -> existsb success results = false ->
  snd (exit_classification results) = 2%Z.
Proof.
  intros Hne Hnone. unfold exit_classification.
  assert (Hz : List.length (List.filter success results) = 0%nat).
  { destruct (List.length (List.filter success results)) as [| k] eqn:E;
      [reflexivity |].
    assert (Hs : existsb success results = true)
      by (apply some_counted_iff; rewrite E; lia).
    congruence. }
  rewrite Hz. destruct results as [| o rs]; [congruence |]. reflexivity.
Qed.

Lemma main_after_return (E : env) (SHEETS_CONFIG : list (string * string))
    (tr : trace) (results : list outcome) :
  orchestrate E SHEETS_CONFIG = (tr, Return results) ->
  snd (main E SHEETS_CONFIG) = snd (exit_classification results).
Proof.
  intros H. unfold main. rewrite H.
  destruct (exit_classification results). reflexivity.
Qed.

Lemma main_after_raise (E : env) (SHEETS_CONFIG : list (string * string))
    (tr : trace) (e : exn) :
  orchestrate E SHEETS_CONFIG = (tr, Raise e) ->
  main E SHEETS_CONFIG = (tr ++ [EvLog ERROR (CriticalError (exc_text e))], 3%Z).
Proof. intros H. unfold main. rewrite H. reflexivity. Qed.

(** A failure of either client initialisation escapes [orchestrate] before
    any sheet is processed and before the notifier runs. *)
Lemma orchestrate_init_failure (E : env) (SHEETS_CONFIG : list (string * string)) :
  google_init E <> None \/ aws_init E <> None ->
  exists (tr : trace) (e : exn),
    orchestrate E SHEETS_CONFIG = (tr, Raise e)
    /\ calls_of tr = 0%nat
    /\ forallb is_log tr = true.
Proof.
  intros H. unfold orchestrate, SheetsBackup_init.
  destruct (google_init E) as [eg |].
  - exists [EvLog ERROR (SheetsApiInitFailed (exc_text eg))], eg.
    repeat split.
  - destruct (aws_init E) as [ea |].
    + exists [EvLog INFO SheetsApiInitialized; EvLog ERROR (S3InitFailed (exc_text ea))], ea.
      repeat split.
    + destruct H as [H | H]; congruence.
Qed.

(** C1: the exit code of [main] is 0 when every outcome of the run
    succeeded, 1 when some but not all succeeded, 2 when none succeeded and
    there is at least one outcome, and 3 when an exception escapes the
    orchestration, as a failed client initialisation does. *)
Theorem C1_exit_codes (E : env) (SHEETS_CONFIG : list (string * string)) :
  (forall (tr : trace) (results : list outcome),
      orchestrate E SHEETS_CONFIG = (tr, Return results) ->
      (forallb success results = true -> snd (main E SHEETS_CONFIG) = 0%Z)
      /\ (existsb success results = true -> forallb success results = false ->
          snd (main E SHEETS_CONFIG) = 1%Z)
      /\ (results <> [] -> existsb success results = false ->
          snd (main E SHEETS_CONFIG) = 2%Z))
  /\ (forall (tr : trace) (e : exn),
         orchestrate E SHEETS_CONFIG = (tr, Raise e) ->
         snd (main E SHEETS_CONFIG) = 3%Z)
  /\ (google_init E <> None \/ aws_init E <> None ->
      snd (main E SHEETS_CONFIG) = 3%Z).
Proof.
  split; [| split].
  - intros tr results H. rewrite (main_after_return _ _ _ _ H).
    split; [apply exit_code_all |].
    split; [apply exit_code_partial | apply exit_code_none].
  - intros tr e H. rewrite (main_after_raise _ _ _ _ H). reflexivity.
  - intros H. destruct (orchestrate_init_failure E SHEETS_CONFIG H)
      as (tr & e & Ho & _).
    rewrite (main_after_raise _ _ _ _ Ho). reflexivity.
Qed.

(** The notifier never raises and is called once: its body handles its own
    failures. *)
Lemma send_notification_returns (E : env) (results : list outcome) :
  exists tr : trace,
    send_notification E results = (tr, Return tt) /\ calls_of tr = 1%nat.
Proof.
  unfold send_notification, wrapper.
  change (seq 0 (Z.to_nat (max_retries default_limiter))) with (0 :: seq 1 4)%nat.
  assert (Hb : exists trb, send_notification_body E results = (trb, Return tt)
                           /\ calls_of trb = 0%nat).
  { unfold send_notification_body. destruct (post_error E) as [e |].
    - eexists. split; reflexivity.
    - eexists. split; reflexivity. }
  destruct Hb as (trb & Hb & Hc).
  rewrite (retry_loop_return (float_of_str E) default_limiter (notify_random E)
             (fun _ => send_notification_body E results) 0 (seq 1 4) None trb tt Hb).
  eexists. split; [reflexivity |].
  cbn [Nat.ltb Nat.leb]. rewrite app_nil_r.
  change (EvCall 0 :: trb) with ([EvCall 0] ++ trb).
  rewrite calls_of_app, Hc. reflexivity.
Qed.

(** C10: with an empty item mapping and both clients initialised, the run
    produces the empty outcome sequence and [main] exits with code 0, the
    code of a run in which every sheet succeeded, and not with code 2. *)
Theorem C10_empty_run_exits_zero (E : env) :
  google_init E = None -> aws_init E = None ->
  (exists tr : trace, orchestrate E [] = (tr, Return []))
  /\ snd (main E []) = 0%Z
  /\ snd (main E []) <> 2%Z
  /\ snd (exit_classification []) = 0%Z.
Proof.
  intros Hg Ha.
  destruct (send_notification_returns E []) as (trn & Hn & _).
  assert (Ho : orchestrate E []
               = ([EvLog INFO SheetsApiInitialized; EvLog INFO S3Initialized;
                   EvLog INFO StartingBackup; EvLog INFO BackupCompleted] ++ trn,
                  Return [])).
  { unfold orchestrate, SheetsBackup_init, backup_all_sheets.
    rewrite Hg, Ha. cbn -[send_notification]. rewrite Hn. cbn.
    rewrite app_nil_r. reflexivity. }
  split; [eexists; exact Ho |].
  rewrite (main_after_return _ _ _ _ Ho).
  repeat split. discriminate.
Qed.

(** ** Every run with initialised clients is classified *)

Lemma backup_single_sheet_returns (E : env) (sheet_name sheet_id : string) :
  exists (tr : trace) (o : outcome),
    backup_single_sheet E sheet_name sheet_id = (tr, Return o)
    /\ o_sheet_name o = sheet_name.
Proof.
  destruct (backup_single_sheet_with_spec
              (_fetch_sheet_data E sheet_id sheet_name)
              (fun data => _upload_to_s3 E data sheet_name)
              (elapsed E sheet_name) sheet_name) as (tr & o & H & Hn & _).
  exists tr, o. split; assumption.
Qed.

(** One outcome per configured item, in the order of the mapping. *)
Lemma backup_loop_returns (E : env) (total : nat) :
  (forall i, (0 <= 5 + pause_random E i)%Q) ->
  forall (items : list (string * string)) (i : nat),
  exists (tr : trace) (results : list outcome),
    backup_loop E total i items = (tr, Return results)
    /\ map o_sheet_name results = map fst items.
Proof.
  intros Hpause items. induction items as [| [sheet_name sheet_id] rest IH]; intros i.
  - exists [], []. split; reflexivity.
  - destruct (backup_single_sheet_returns E sheet_name sheet_id) as (tr1 & o & H1 & Ho).
    destruct (IH (S i)) as (tr2 & rs & H2 & Hrs).
    assert (Hp : exists trp,
               (if (Z.of_nat i <? Z.of_nat total - 1)%Z
                then (log INFO (WaitingBeforeNext (5 + pause_random E i)) ;;;
                      time_sleep (5 + pause_random E i))
                else ret tt) = (trp, Return tt)).
    { destruct (Z.of_nat i <? Z.of_nat total - 1)%Z; [| eexists; reflexivity].
      unfold time_sleep. specialize (Hpause i). apply Qle_bool_iff in Hpause.
      rewrite Hpause. eexists. reflexivity. }
    destruct Hp as (trp & Hp).
    cbn [backup_loop]. unfold log at 1. rewrite bind_emit, H1, bind_pair_return.
    cbv zeta. rewrite Hp, bind_pair_return, H2, bind_pair_return.
    eexists; eexists. split; [reflexivity |].
    cbn. rewrite Ho, Hrs. reflexivity.
Qed.

Lemma orchestrate_returns (E : env) (SHEETS_CONFIG : list (string * string)) :
  google_init E = None -> aws_init E = None ->
  (forall i, (0 <= 5 + pause_random E i)%Q) ->
  exists (tr : trace) (results : list outcome),
    orchestrate E SHEETS_CONFIG = (tr, Return results)
    /\ map o_sheet_name results = map fst SHEETS_CONFIG.
Proof.
  intros Hg Ha Hpause.
  destruct (backup_loop_returns E (List.length SHEETS_CONFIG) Hpause SHEETS_CONFIG 0)
    as (trl & results & Hl & Hnames).
  destruct (send_notification_returns E results) as (trn & Hn & _).
  unfold orchestrate, SheetsBackup_init, backup_all_sheets.
  rewrite Hg, Ha. cbn -[send_notification backup_loop]. rewrite Hl.
  cbn -[send_notification]. rewrite Hn. cbn.
  eexists; eexists. split; [reflexivity | exact Hnames].
Qed.

(** ** Concrete runs *)

(** A spreadsheet with one worksheet: two summary rows, a header of two
    columns, a full row and a short row. *)
Definition one_sheet_service : sheets_service :=
  {| spreadsheets_get := fun _ => Return ["Sales"];
     values_get := fun _ _ =>
       Return [["Weekly summary"]; ["Total"; "12"]; ["id"; "item"];
               ["1"; "eggs"]; ["2"]];
     dataframe_error := fun _ => None;
     concat_error := fun _ => None |}.

(** A spreadsheet whose only worksheet has no values. *)
Definition blank_service : sheets_service :=
  {| spreadsheets_get := fun _ => Return ["Sales"];
     values_get := fun _ _ => Return [];
     dataframe_error := fun _ => None;
     concat_error := fun _ => None |}.

(** A spreadsheet the service refuses with 404. *)
Definition missing_service : sheets_service :=
  {| spreadsheets_get := fun _ => Raise not_found_error;
     values_get := fun _ _ => Raise not_found_error;
     dataframe_error := fun _ => None;
     concat_error := fun _ => None |}.

Definition half_past_nine (s : nat) : datetime :=
  {| year := 2024; month := 1; day := 15; hour := 9; minute := 30; second := s |}.

(** A run in which both clients initialise, every upload succeeds, and the
    spreadsheet service answers as [services] says. *)
Definition demo_env (services : string -> nat -> sheets_service)
    (g_init : option exn) : env :=
  {| float_of_str := fun _ => None;
     google_init := g_init;
     aws_init := None;
     bucket_name := Some "pullus-backups";
     sheets_at := services;
     fetch_random := fun _ _ => (1 # 2)%Q;
     now_at := fun _ attempt => half_past_nine (5 + attempt);
     put_error_at := fun _ _ => None;
     upload_random := fun _ _ => (1 # 2)%Q;
     pause_random := fun _ => 2%Q;
     elapsed := fun _ => 3%Q;
     post_error := None;
     notify_random := fun _ => (1 # 2)%Q |}.

Definition three_items : list (string * string) :=
  [("north", "id-north"); ("south", "id-south"); ("west", "id-west")].

(** Scenario A: three items, all extracted and archived. *)
Example scenario_A :
  let E := demo_env (fun _ _ => one_sheet_service) None in
  map success (match snd (orchestrate E three_items) with
               | Return rs => rs | Raise _ => [] end) = [true; true; true]
  /\ snd (main E three_items) = 0%Z.
Proof. vm_compute. split; reflexivity. Qed.

(** Scenario B: the first item has no rows, the other two succeed. *)
Example scenario_B :
  let E := demo_env (fun name _ => if String.eqb name "north" then blank_service
                                   else one_sheet_service) None in
  map (fun o => (success o, error o))
      (match snd (orchestrate E three_items) with
       | Return rs => rs | Raise _ => [] end)
  = [(false, Some "No data found in sheet"); (true, None); (true, None)]
  /\ snd (main E three_items) = 1%Z.
Proof. vm_compute. split; reflexivity. Qed.

(** Scenario C: every item fails with a non-retryable failure; the
    spreadsheet function is called once per item (the fourth call is the
    notifier's). *)
Example scenario_C :
  let E := demo_env (fun _ _ => missing_service) None in
  map success (match snd (orchestrate E three_items) with
               | Return rs => rs | Raise _ => [] end) = [false; false; false]
  /\ calls_of (fst (orchestrate E three_items)) = 4%nat
  /\ snd (main E three_items) = 2%Z.
Proof. vm_compute. repeat split; reflexivity. Qed.

(** Scenario D: the credentials cannot be loaded. *)
Example scenario_D :
  let E := demo_env (fun _ _ => one_sheet_service)
             (Some (builtin_error "ValueError" "Invalid credentials")) in
  main E three_items
  = ([EvLog ERROR (SheetsApiInitFailed "Invalid credentials");
      EvLog ERROR (CriticalError "Invalid credentials")], 3%Z).
Proof. vm_compute. reflexivity. Qed.

(** C1 on the run of scenario B: one outcome failed, two succeeded, exit
    code 1. *)
Lemma C1_exit_codes_witness :
  snd (main (demo_env (fun name _ => if String.eqb name "north" then blank_service
                                     else one_sheet_service) None)
         three_items) = 1%Z.
Proof.
  set (E := demo_env (fun name _ => if String.eqb name "north" then blank_service
                                    else one_sheet_service) None).
  destruct (orchestrate E three_items) as [tr [results | e]] eqn:Ho.
  - assert (Hs : map success results = [false; true; true]).
    { assert (Hr : snd (orchestrate E three_items) = Return results)
        by (rewrite Ho; reflexivity).
      vm_compute in Hr. injection Hr as <-. reflexivity. }
    destruct results as [| o1 [| o2 [| o3 [| o4 rest]]]]; try discriminate Hs.
    injection Hs as H1 H2 H3.
    apply (proj1 (proj2 (proj1 (C1_exit_codes E three_items) tr [o1; o2; o3] Ho))).
    + cbn. rewrite H1, H2. reflexivity.
    + cbn. rewrite H1. reflexivity.
  - assert (Hr : snd (orchestrate E three_items) = Raise e)
      by (rewrite Ho; reflexivity).
    vm_compute in Hr. discriminate Hr.
Defined.

(** C10 on a run with initialised clients. *)
Lemma C10_empty_run_exits_zero_witness :
  snd (main (demo_env (fun _ _ => one_sheet_service) None) []) = 0%Z.
Proof.
  assert (Hg : google_init (demo_env (fun _ _ => one_sheet_service) None) = None)
    by reflexivity.
  assert (Ha : aws_init (demo_env (fun _ _ => one_sheet_service) None) = None)
    by reflexivity.
  exact (proj1 (proj2 (C10_empty_run_exits_zero
                         (demo_env (fun _ _ => one_sheet_service) None) Hg Ha))).
Defined.

(** ** Error text in log records *)

(** The error text a log record carries, if it carries one. *)
Definition logged_error (msg : logmsg) : option string :=
  match msg with
  | NonRetryableStatus _ err | NonRetryable err | FetchFailed _ err
  | UploadFailed _ err | BackupFailed _ err | NotificationFailed err
  | SheetsApiInitFailed err | S3InitFailed err | CriticalError err => Some err
  | _ => None
  end.

(** The error texts written to the log by a trace. *)
Fixpoint logged_errors (tr : trace) : list string :=
  match tr with
  | [] => []
  | EvLog _ msg :: rest =>
      match logged_error msg with
      | Some err => err :: logged_errors rest
      | None => logged_errors rest
      end
  | _ :: rest => logged_errors rest
  end.

(** The failure handler of the extraction adapter logs the sanitised
    text. *)
Lemma fetch_failure_logged_sanitized (svc : sheets_service)
    (sheet_id sheet_name : string) (e : exn) :
  spreadsheets_get svc sheet_id = Raise e ->
  fetch_sheet_data_body svc sheet_id sheet_name
  = ([EvLog INFO (FetchingData sheet_name);
      EvLog ERROR (FetchFailed sheet_name (sanitize_error_message (exc_text e)))],
     Raise e).
Proof.
  intros H. unfold fetch_sheet_data_body, lift. rewrite H. reflexivity.
Qed.

(** The failure handler of the archival adapter logs [str(e)] as it is. *)
Lemma upload_failure_logged_raw (bucket : option string) (now : datetime)
    (data : DataFrame) (sheet_name : string) (e : exn) :
  upload_to_s3_body bucket now (Some e) data sheet_name
  = ([EvLog ERROR (UploadFailed sheet_name (exc_text e))], Raise e).
Proof. reflexivity. Qed.

(** An object-store failure whose text holds a 44-character token. *)
Definition access_key_error : exn :=
  builtin_error "ClientError"
    "InvalidAccessKeyId: key AKIAIOSFODNN7EXAMPLEAKIAIOSFODNN7EXAMPLE1234 is unknown".

(** C7 fails on the code: when the upload of a sheet raises
    [access_key_error], the archival adapter writes the text with its
    44-character token to the log, although sanitising the text replaces the
    token; the retry wrapper, in the same call, logs the sanitised text. *)
Theorem C7_upload_logs_unsanitized :
  let E := {| float_of_str := fun _ => None;
              google_init := None; aws_init := None;
              bucket_name := Some "pullus-backups";
              sheets_at := fun _ _ => one_sheet_service;
              fetch_random := fun _ _ => (1 # 2)%Q;
              now_at := fun _ attempt => half_past_nine (5 + attempt);
              put_error_at := fun _ _ => Some access_key_error;
              upload_random := fun _ _ => (1 # 2)%Q;
              pause_random := fun _ => 2%Q;
              elapsed := fun _ => 3%Q;
              post_error := None;
              notify_random := fun _ => (1 # 2)%Q |} in
  sanitize_error_message (exc_text access_key_error)
  = "InvalidAccessKeyId: key [SHEET_ID] is unknown"
  /\ logged_errors (fst (_upload_to_s3 E [] "north"))
     = [exc_text access_key_error;
        sanitize_error_message (exc_text access_key_error)]
  /\ In "InvalidAccessKeyId: key AKIAIOSFODNN7EXAMPLEAKIAIOSFODNN7EXAMPLE1234 is unknown"
       (logged_errors (fst (main E three_items))).
Proof. vm_compute. repeat split. left. reflexivity. Qed.

(** ** Destination locators *)

(** A reading of the clock: a four-digit year and fields in their ranges. *)
Definition valid_clock (t : datetime) : Prop :=
  (1000 <= Z.of_nat (year t) <= 9999)%Z /\ (1 <= month t <= 12)%nat
  /\ (1 <= day t <= 31)%nat /\ (hour t < 24)%nat
  /\ (minute t < 60)%nat /\ (second t < 60)%nat.

(** Two readings in the same minute. *)
Definition same_minute (t1 t2 : datetime) : Prop :=
  year t1 = year t2 /\ month t1 = month t2 /\ day t1 = day t2
  /\ hour t1 = hour t2 /\ minute t1 = minute t2.

Lemma digit_mod (a b : nat) : digit a = digit b -> a mod 10 = b mod 10.
Proof.
  unfold digit. intros H. apply (f_equal nat_of_ascii) in H.
  pose proof (Nat.mod_upper_bound a 10) as Ha.
  pose proof (Nat.mod_upper_bound b 10) as Hb.
  rewrite !nat_ascii_embedding in H by lia. lia.
Qed.

Lemma pad2_inj (a b : nat) :
  (a < 100)%nat -> (b < 100)%nat -> pad2 a = pad2 b -> a = b.
Proof.
  unfold pad2. intros Ha Hb H.
  assert (H1 : digit (a / 10) = digit (b / 10)) by congruence.
  assert (H2 : digit a = digit b) by congruence.
  apply digit_mod in H1, H2.
  assert (Ha' : (a / 10 < 10)%nat) by (apply Nat.Div0.div_lt_upper_bound; lia).
  assert (Hb' : (b / 10 < 10)%nat) by (apply Nat.Div0.div_lt_upper_bound; lia).
  rewrite !Nat.mod_small in H1 by assumption.
  rewrite (Nat.div_mod_eq a 10), (Nat.div_mod_eq b 10). lia.
Qed.

Lemma hour12_lt (h : nat) : (hour12 h < 100)%nat.
Proof.
  unfold hour12. pose proof (Nat.mod_upper_bound h 12).
  destruct (h mod 12 =? 0)%nat; lia.
Qed.

Lemma hour_inj (h1 h2 : nat) :
  (h1 < 24)%nat -> (h2 < 24)%nat ->
  hour12 h1 = hour12 h2 -> (h1 <? 12)%nat = (h2 <? 12)%nat -> h1 = h2.
Proof.
  unfold hour12. intros H1 H2 Heq Hhalf.
  pose proof (Nat.mod_upper_bound h1 12) as B1.
  pose proof (Nat.mod_upper_bound h2 12) as B2.
  pose proof (Nat.div_mod_eq h1 12) as D1.
  pose proof (Nat.div_mod_eq h2 12) as D2.
  assert (Q1 : (h1 / 12 < 2)%nat) by (apply Nat.Div0.div_lt_upper_bound; lia).
  assert (Q2 : (h2 / 12 < 2)%nat) by (apply Nat.Div0.div_lt_upper_bound; lia).
  destruct (Nat.eqb_spec (h1 mod 12) 0), (Nat.eqb_spec (h2 mod 12) 0),
    (Nat.ltb_spec h1 12), (Nat.ltb_spec h2 12); try discriminate Hhalf; lia.
Qed.

Lemma append_cons (x : ascii) (a b : string) :
  (String x a ++ b)%string = String x (a ++ b).
Proof. reflexivity. Qed.

Lemma append_nil (b : string) : (EmptyString ++ b)%string = b.
Proof. reflexivity. Qed.

Lemma string_app_inv_head (p a b : string) : (p ++ a = p ++ b)%string -> a = b.
Proof.
  induction p as [| c p IH]; intros H; [exact H |].
  rewrite !append_cons in H. injection H as H. apply IH. exact H.
Qed.

Lemma string_app_assoc (a b c : string) :
  ((a ++ b) ++ c = a ++ (b ++ c))%string.
Proof.
  induction a as [| x a IH]; [reflexivity |].
  rewrite !append_cons. f_equal. exact IH.
Qed.

Lemma strftime_key_inj (t1 t2 : datetime) (suffix : string) :
  valid_clock t1 -> valid_clock t2 ->
  (strftime_key t1 ++ suffix = strftime_key t2 ++ suffix)%string ->
  same_minute t1 t2.
Proof.
  intros (Hy1 & Hm1 & Hd1 & Hh1 & Hn1 & _) (Hy2 & Hm2 & Hd2 & Hh2 & Hn2 & _) H.
  unfold strftime_key, fmt_year in H.
  assert (Hpad : forall n s, (pad2 n ++ s)%string
                             = String (digit (n / 10)) (String (digit n) s))
    by reflexivity.
  rewrite !string_app_assoc in H. rewrite !Hpad in H.
  rewrite ?append_cons, ?append_nil in H.
  assert (P : (am_pm (hour t1) ++ "_WAT" ++ suffix
               = am_pm (hour t2) ++ "_WAT" ++ suffix)%string)
    by (rewrite ?append_cons, ?append_nil; congruence).
  assert (Ey1 : (year t1 / 100 = year t2 / 100)%nat).
  { apply pad2_inj; [apply Nat.Div0.div_lt_upper_bound; lia
                    | apply Nat.Div0.div_lt_upper_bound; lia
                    | unfold pad2; congruence]. }
  assert (Ey2 : (year t1 mod 100 = year t2 mod 100)%nat).
  { apply pad2_inj; [apply Nat.mod_upper_bound; lia
                    | apply Nat.mod_upper_bound; lia
                    | unfold pad2; congruence]. }
  assert (Em : month t1 = month t2)
    by (apply pad2_inj; [lia | lia | unfold pad2; congruence]).
  assert (Ed : day t1 = day t2)
    by (apply pad2_inj; [lia | lia | unfold pad2; congruence]).
  assert (Ei : hour12 (hour t1) = hour12 (hour t2))
    by (apply pad2_inj; [apply hour12_lt | apply hour12_lt | unfold pad2; congruence]).
  assert (En : minute t1 = minute t2)
    by (apply pad2_inj; [lia | lia | unfold pad2; congruence]).
  assert (Eh : hour t1 = hour t2).
  { apply hour_inj; try assumption.
    unfold am_pm in P. clear H.
    destruct (hour t1 <? 12)%nat, (hour t2 <? 12)%nat;
      solve [reflexivity | discriminate P]. }
  unfold same_minute. repeat split; try assumption.
  rewrite (Nat.div_mod_eq (year t1) 100), (Nat.div_mod_eq (year t2) 100). lia.
Qed.

Lemma strftime_key_same_minute (t1 t2 : datetime) :
  same_minute t1 t2 -> strftime_key t1 = strftime_key t2.
Proof.
  intros (Hy & Hm & Hd & Hh & Hn). unfold strftime_key.
  rewrite Hy, Hm, Hd, Hh, Hn. reflexivity.
Qed.

Lemma upload_success (bucket : option string) (now : datetime)
    (data : DataFrame) (sheet_name : string) :
  upload_to_s3_body bucket now None data sheet_name
  = ([EvPut (str_of_bucket bucket) (s3_key_of sheet_name now) data;
      EvLog INFO (Uploaded sheet_name (s3_url_of bucket (s3_key_of sheet_name now)))],
     Return (s3_url_of bucket (s3_key_of sheet_name now))).
Proof. reflexivity. Qed.

Lemma s3_url_same_minute_iff (bucket : option string) (sheet_name : string)
    (t1 t2 : datetime) :
  valid_clock t1 -> valid_clock t2 ->
  (s3_url_of bucket (s3_key_of sheet_name t1)
   = s3_url_of bucket (s3_key_of sheet_name t2)
   <-> same_minute t1 t2).
Proof.
  intros V1 V2. split.
  - unfold s3_url_of, s3_key_of. intros H.
    repeat apply string_app_inv_head in H.
    apply (strftime_key_inj t1 t2 ".parquet" V1 V2 H).
  - intros H. unfold s3_key_of. rewrite (strftime_key_same_minute _ _ H). reflexivity.
Qed.

(** C8, as amended: two successful archival calls for the same item return
    the same locator exactly when their clock readings fall in the same
    minute.  Calls made in different minutes produce two distinct locators
    and two distinct keys, and after them the bucket holds both objects.
    Calls made in the same minute write the same key: after them the key
    holds the data of the later call, and the bucket is what the later call
    alone would have left, so the object of the earlier call is replaced. *)
Theorem C8_locators_distinct_across_minutes (bucket : option string)
    (sheet_name : string) (t1 t2 : datetime) (d1 d2 : DataFrame)
    (store : gmap string DataFrame) :
  valid_clock t1 -> valid_clock t2 ->
  exists (tr1 tr2 : trace) (u1 u2 : string),
    upload_to_s3_body bucket t1 None d1 sheet_name = (tr1, Return u1)
    /\ upload_to_s3_body bucket t2 None d2 sheet_name = (tr2, Return u2)
    /\ (u1 = u2 <-> same_minute t1 t2)
    /\ (~ same_minute t1 t2 ->
        u1 <> u2
        /\ s3_key_of sheet_name t1 <> s3_key_of sheet_name t2
        /\ s3_objects (tr1 ++ tr2) store !! s3_key_of sheet_name t1 = Some d1
        /\ s3_objects (tr1 ++ tr2) store !! s3_key_of sheet_name t2 = Some d2)
    /\ (same_minute t1 t2 ->
        s3_key_of sheet_name t1 = s3_key_of sheet_name t2
        /\ s3_objects tr1 store !! s3_key_of sheet_name t1 = Some d1
        /\ s3_objects (tr1 ++ tr2) store !! s3_key_of sheet_name t1 = Some d2
        /\ s3_objects (tr1 ++ tr2) store = s3_objects tr2 store).
Proof.
  intros V1 V2.
  pose proof (s3_url_same_minute_iff bucket sheet_name t1 t2 V1 V2) as Hiff.
  eexists; eexists; eexists; eexists.
  split; [apply upload_success |]. split; [apply upload_success |].
  split; [exact Hiff |].
  cbn [s3_objects app].
  split.
  - intros Hne.
    assert (Hkey : s3_key_of sheet_name t1 <> s3_key_of sheet_name t2).
    { intros Heq. apply Hne, Hiff. rewrite Heq. reflexivity. }
    split; [intros Heq; apply Hne, Hiff, Heq |]. split; [exact Hkey |].
    split.
    + rewrite lookup_insert_ne by (intros Heq; apply Hkey; symmetry; exact Heq).
      apply lookup_insert_eq.
    + apply lookup_insert_eq.
  - intros Hsame.
    assert (Hkey : s3_key_of sheet_name t1 = s3_key_of sheet_name t2).
    { unfold s3_key_of. rewrite (strftime_key_same_minute _ _ Hsame). reflexivity. }
    split; [exact Hkey |]. split; [apply lookup_insert_eq |].
    rewrite <- Hkey. split; [apply lookup_insert_eq | apply insert_insert_eq].
Qed.

Definition nine_thirty_one : datetime :=
  {| year := 2024; month := 1; day := 15; hour := 9; minute := 31; second := 5 |}.

Lemma half_past_nine_valid (s : nat) : (s < 60)%nat -> valid_clock (half_past_nine s).
Proof. intros H. unfold valid_clock. cbn. lia. Qed.

(** A frame with one data row. *)
Definition one_row (cell : string) : DataFrame :=
  [{| frame_title := "Sales"; frame_header := ["item"]; frame_rows := [[cell]] |}].

(** The amended C8 on two calls one minute apart, into an empty bucket:
    two locators, and both objects in the bucket. *)
Lemma C8_locators_distinct_across_minutes_witness :
  let first := upload_to_s3_body (Some "pullus-backups") (half_past_nine 5) None
                 (one_row "eggs") "north" in
  let second := upload_to_s3_body (Some "pullus-backups") nine_thirty_one None
                  (one_row "feed") "north" in
  snd first
  = Return "s3://pullus-backups/pullus/sales/north/20240115_09-30AM_WAT.parquet"
  /\ snd second
     = Return "s3://pullus-backups/pullus/sales/north/20240115_09-31AM_WAT.parquet"
  /\ s3_objects (fst first ++ fst second) ∅
       !! "pullus/sales/north/20240115_09-30AM_WAT.parquet"
     = Some (one_row "eggs")
  /\ s3_objects (fst first ++ fst second) ∅
       !! "pullus/sales/north/20240115_09-31AM_WAT.parquet"
     = Some (one_row "feed").
Proof.
  cbv zeta.
  assert (V1 : valid_clock (half_past_nine 5)) by (apply half_past_nine_valid; lia).
  assert (V2 : valid_clock nine_thirty_one) by (unfold valid_clock; cbn; lia).
  destruct (C8_locators_distinct_across_minutes (Some "pullus-backups") "north"
              (half_past_nine 5) nine_thirty_one (one_row "eggs") (one_row "feed")
              ∅ V1 V2)
    as (tr1 & tr2 & u1 & u2 & H1 & H2 & _ & Hne & _).
  rewrite H1, H2. cbn [fst snd].
  rewrite upload_success in H1, H2.
  injection H1 as _ <-. injection H2 as _ <-.
  split; [reflexivity |]. split; [reflexivity |].
  assert (Hdiff : ~ same_minute (half_past_nine 5) nine_thirty_one).
  { intros (_ & _ & _ & _ & Hmin). discriminate Hmin. }
  destruct (Hne Hdiff) as (_ & _ & Hk1 & Hk2).
  split; [exact Hk1 | exact Hk2].
Defined.

(** C8, as stated, fails for two archival calls of the same item at
    09:30:05 and 09:30:40: both return the same locator, and the second
    [put_object] replaces the object the first one wrote. *)
Lemma C8_counterexample :
  let key := "pullus/sales/north/20240115_09-30AM_WAT.parquet" in
  let url := "s3://pullus-backups/pullus/sales/north/20240115_09-30AM_WAT.parquet" in
  let first := upload_to_s3_body (Some "pullus-backups") (half_past_nine 5) None
                 (one_row "eggs") "north" in
  let second := upload_to_s3_body (Some "pullus-backups") (half_past_nine 40) None
                  (one_row "feed") "north" in
  snd first = Return url
  /\ snd second = Return url
  /\ s3_objects (fst first) ∅ !! key = Some (one_row "eggs")
  /\ s3_objects (fst first ++ fst second) ∅ !! key = Some (one_row "feed")
  /\ s3_objects (fst first ++ fst second) ∅ = {[ key := one_row "feed" ]}.
Proof.
  cbv zeta. rewrite !upload_success. cbn [fst snd].
  change (s3_key_of "north" (half_past_nine 5))
    with "pullus/sales/north/20240115_09-30AM_WAT.parquet".
  change (s3_key_of "north" (half_past_nine 40))
    with "pullus/sales/north/20240115_09-30AM_WAT.parquet".
  change (s3_url_of (Some "pullus-backups")
            "pullus/sales/north/20240115_09-30AM_WAT.parquet")
    with "s3://pullus-backups/pullus/sales/north/20240115_09-30AM_WAT.parquet".
  cbn [s3_objects app].
  split; [reflexivity |]. split; [reflexivity |].
  split; [apply lookup_insert_eq |].
  split; [apply lookup_insert_eq |].
  rewrite insert_insert_eq. reflexivity.
Qed.

(** * Further properties of the module *)

(** ** What the sanitiser guarantees *)

(** The number of leading characters of the class [[a-zA-Z0-9_-]]. *)
Fixpoint id_prefix_length (s : string) : nat :=
  match s with
  | EmptyString => 0
  | String c t => if Text.is_id_char c then S (id_prefix_length t) else 0
  end.

(** No run of class characters reaches 44, when [cur] class characters
    come just before [s]. *)
Fixpoint short_runs (cur : nat) (s : string) : bool :=
  match s with
  | EmptyString => true
  | String c t =>
      if Text.is_id_char c then (S cur <? 44)%nat && short_runs (S cur) t
      else short_runs 0 t
  end.

Fixpoint string_length (s : string) : nat :=
  match s with
  | EmptyString => 0
  | String _ t => S (string_length t)
  end.

Lemma all_next_id_prefix (n : nat) (s : string) :
  Text.all_next Text.is_id_char n s = true <-> (n <= id_prefix_length s)%nat.
Proof.
  revert s. induction n as [| n IH]; intros s; cbn.
  - split; [lia | reflexivity].
  - destruct s as [| c t]; cbn; [split; [discriminate | lia] |].
    destruct (Text.is_id_char c); cbn.
    + rewrite IH. lia.
    + split; [discriminate | lia].
Qed.

Lemma sub_sheet_id_skip (k : nat) (s : string) :
  sub_sheet_id k s = sub_sheet_id 0 (Text.drop k s).
Proof.
  revert k. induction s as [| c t IH]; intros k.
  - destruct k; reflexivity.
  - destruct k as [| k]; [reflexivity |]. cbn [sub_sheet_id Text.drop]. apply IH.
Qed.

Lemma drop_length (k : nat) (s : string) :
  (string_length (Text.drop k s) <= string_length s - k)%nat.
Proof.
  revert s. induction k as [| k IH]; intros s; [cbn; lia |].
  destruct s as [| c t]; cbn; [lia |]. apply IH.
Qed.

Lemma short_runs_sheet_id_placeholder (cur : nat) (rest : string) :
  short_runs cur ("[SHEET_ID]" ++ rest) = short_runs 0 rest.
Proof. reflexivity. Qed.

Lemma sub_sheet_id_short_runs (n : nat) :
  forall (s : string) (cur : nat),
    (string_length s <= n)%nat ->
    cur = 0%nat \/ (cur + id_prefix_length s < 44)%nat ->
    short_runs cur (sub_sheet_id 0 s) = true.
Proof.
  induction n as [| n IH]; intros s cur Hlen Hcur.
  - destruct s; [reflexivity | cbn in Hlen; lia].
  - destruct s as [| c t]; [reflexivity |].
    cbn [sub_sheet_id].
    destruct (Text.all_next Text.is_id_char 44 (String c t)) eqn:Hm.
    + apply all_next_id_prefix in Hm.
      destruct Hcur as [-> | Hcur]; [| lia].
      rewrite short_runs_sheet_id_placeholder, sub_sheet_id_skip.
      apply IH; [| left; reflexivity].
      pose proof (drop_length 43 t). cbn in Hlen. lia.
    + assert (Hlt : (id_prefix_length (String c t) < 44)%nat).
      { destruct (Nat.lt_ge_cases (id_prefix_length (String c t)) 44) as [H | H];
          [exact H |].
        apply all_next_id_prefix in H. congruence. }
      cbn [short_runs]. cbn [id_prefix_length] in Hlt, Hcur.
      destruct (Text.is_id_char c).
      * apply andb_true_iff. split.
        -- apply Nat.ltb_lt. lia.
        -- apply IH; [cbn in Hlen; lia | right; lia].
      * apply IH; [cbn in Hlen; lia | left; reflexivity].
Qed.

Lemma short_runs_mono (s : string) :
  forall cur cur' : nat,
    (cur' <= cur)%nat -> short_runs cur s = true -> short_runs cur' s = true.
Proof.
  induction s as [| c t IH]; intros cur cur' Hle H; [reflexivity |].
  cbn [short_runs] in *. destruct (Text.is_id_char c); [| exact H].
  apply andb_true_iff in H as [H1 H2]. apply Nat.ltb_lt in H1.
  apply andb_true_iff. split.
  - apply Nat.ltb_lt. lia.
  - apply (IH (S cur)); [lia | exact H2].
Qed.

Lemma short_runs_tail (c : ascii) (t : string) (cur : nat) :
  short_runs cur (String c t) = true -> exists cur', short_runs cur' t = true.
Proof.
  cbn [short_runs]. destruct (Text.is_id_char c); intros H.
  - apply andb_true_iff in H as [_ H]. eexists; exact H.
  - eexists; exact H.
Qed.

Lemma space_not_id_char (c : ascii) :
  Text.is_space c = true -> Text.is_id_char c = false.
Proof.
  destruct c as [[] [] [] [] [] [] [] []]; vm_compute; congruence.
Qed.

(** Replacing a match by a placeholder in brackets keeps the runs short. *)
Lemma sub_url_short_runs (matches_at : string -> bool) (placeholder : string) :
  (forall cur rest, short_runs cur (placeholder ++ rest) = short_runs 0 rest) ->
  forall (s : string) (in_match : bool) (cur cur' : nat),
    short_runs cur s = true ->
    (if in_match then cur' = 0%nat else (cur' <= cur)%nat) ->
    short_runs cur' (sub_url matches_at placeholder in_match s) = true.
Proof.
  intros Hph. induction s as [| c t IH]; intros in_match cur cur' Hs Hcur;
    [reflexivity |].
  cbn [sub_url]. destruct in_match.
  - subst cur'. destruct (Text.is_space c) eqn:Hsp.
    + apply space_not_id_char in Hsp. cbn [short_runs] in *. rewrite Hsp in *.
      apply (IH false 0%nat 0%nat); [exact Hs | lia].
    + destruct (short_runs_tail c t cur Hs) as (cur1 & H1).
      apply (IH true cur1 0%nat); [exact H1 | reflexivity].
  - destruct (matches_at (String c t)).
    + rewrite Hph. destruct (short_runs_tail c t cur Hs) as (cur1 & H1).
      apply (IH true cur1 0%nat); [exact H1 | reflexivity].
    + cbn [short_runs] in *. destruct (Text.is_id_char c).
      * apply andb_true_iff in Hs as [H1 H2]. apply Nat.ltb_lt in H1.
        apply andb_true_iff. split; [apply Nat.ltb_lt; lia |].
        apply (IH false (S cur) (S cur')); [exact H2 | lia].
      * apply (IH false 0%nat 0%nat); [exact Hs | lia].
Qed.

Lemma short_runs_id_prefix (s : string) :
  forall cur : nat,
    short_runs cur s = true ->
    id_prefix_length s = 0%nat \/ (cur + id_prefix_length s < 44)%nat.
Proof.
  induction s as [| c t IH]; intros cur H; [left; reflexivity |].
  cbn [short_runs id_prefix_length] in *.
  destruct (Text.is_id_char c); [| left; reflexivity].
  apply andb_true_iff in H as [H1 H2]. apply Nat.ltb_lt in H1.
  right. destruct (IH _ H2) as [E | E]; lia.
Qed.

Lemma short_runs_no_match (k : nat) :
  forall (s : string) (cur : nat),
    short_runs cur s = true ->
    Text.all_next Text.is_id_char 44 (Text.drop k s) = false.
Proof.
  induction k as [| k IH]; intros s cur H.
  - cbn [Text.drop]. destruct s as [| c t]; [reflexivity |].
    destruct (Text.all_next Text.is_id_char 44 (String c t)) eqn:Hm; [| reflexivity].
    apply all_next_id_prefix in Hm.
    destruct (short_runs_id_prefix _ _ H); lia.
  - destruct s as [| c t]; [reflexivity |]. cbn [Text.drop].
    destruct (short_runs_tail c t cur H) as (cur1 & H1). apply (IH t cur1 H1).
Qed.

Lemma sanitize_short_runs (s : string) :
  short_runs 0 (sanitize_error_message s) = true.
Proof.
  unfold sanitize_error_message.
  apply (sub_url_short_runs google_url_at "[GOOGLE_API_URL]"
           (fun _ _ => eq_refl) _ false 0%nat 0%nat); [| lia].
  apply (sub_url_short_runs sheets_url_at "[SHEETS_API_URL]"
           (fun _ _ => eq_refl) _ false 0%nat 0%nat); [| lia].
  apply (sub_sheet_id_short_runs (string_length s)); [lia | left; reflexivity].
Qed.

(** X1: whatever the message, the first pattern of the sanitiser,
    [[a-zA-Z0-9_-]{44}], matches nowhere in the sanitised message: no run of
    44 such characters is left. *)
Theorem X1_sanitize_leaves_no_long_token (s : string) (k : nat) :
  Text.all_next Text.is_id_char 44 (Text.drop k (sanitize_error_message s)) = false.
Proof.
  apply (short_runs_no_match k _ 0%nat). apply sanitize_short_runs.
Qed.

(** No character of [p] is [b]. *)
Fixpoint lacks_char (b : ascii) (p : string) : bool :=
  match p with
  | EmptyString => true
  | String a p' => negb (Ascii.eqb a b) && lacks_char b p'
  end.

Fixpoint no_space (p : string) : bool :=
  match p with
  | EmptyString => true
  | String a p' => negb (Text.is_space a) && no_space p'
  end.

(** A text that the output of [sub_url] starts with, and that has no
    character of the placeholder's head, was copied from the input. *)
Lemma starts_with_sub_url (matches_at : string -> bool) (b : ascii)
    (ph : string) (p : string) :
  lacks_char b p = true ->
  forall s : string,
    Text.starts_with p (sub_url matches_at (String b ph) false s) = true ->
    Text.starts_with p s = true
    /\ Text.drop (string_length p) (sub_url matches_at (String b ph) false s)
       = sub_url matches_at (String b ph) false (Text.drop (string_length p) s).
Proof.
  induction p as [| a p IH]; intros Hp s H; [split; reflexivity |].
  cbn [lacks_char] in Hp. apply andb_true_iff in Hp as [Hab Hp].
  apply negb_true_iff in Hab.
  destruct s as [| c t]; [discriminate H |].
  cbn [sub_url] in *. destruct (matches_at (String c t)).
  - rewrite append_cons in H. cbn [Text.starts_with] in H.
    rewrite Hab in H. discriminate H.
  - cbn [Text.starts_with string_length Text.drop] in *.
    apply andb_true_iff in H as [Hac H]. rewrite Hac.
    destruct (IH Hp t H) as [H1 H2]. split; assumption.
Qed.

Lemma non_space_run_prefix (p : string) :
  no_space p = true ->
  forall s : string,
    Text.starts_with p s = true ->
    Text.non_space_run s
    = (p ++ Text.non_space_run (Text.drop (string_length p) s))%string.
Proof.
  induction p as [| a p IH]; intros Hp s H; [reflexivity |].
  cbn [no_space] in Hp. apply andb_true_iff in Hp as [Ha Hp].
  apply negb_true_iff in Ha.
  destruct s as [| c t]; [discriminate H |].
  cbn [Text.starts_with] in H. apply andb_true_iff in H as [Hac H].
  apply Ascii.eqb_eq in Hac. subst c.
  cbn [Text.non_space_run string_length Text.drop]. rewrite Ha, append_cons.
  f_equal. apply IH; assumption.
Qed.

Lemma contains_app_r (needle p x : string) :
  Text.contains needle x = true -> Text.contains needle (p ++ x) = true.
Proof.
  intros H. induction p as [| c p IH]; [exact H |].
  rewrite append_cons. cbn [Text.contains]. rewrite IH. apply orb_true_r.
Qed.

Lemma contains_tail (needle : string) (c : ascii) (x : string) :
  Text.contains needle (String c x) = false -> Text.contains needle x = false.
Proof.
  cbn [Text.contains]. intros H. apply orb_false_iff in H as [_ H]. exact H.
Qed.

(** A match of the third pattern has the host text in the run of
    non-whitespace characters it starts. *)
Lemma google_url_at_run (s : string) :
  google_url_at s = true ->
  Text.contains "googleapis.com" (Text.non_space_run s) = true.
Proof.
  unfold google_url_at. intros H. apply andb_true_iff in H as [Hp Hc].
  rewrite (non_space_run_prefix "https://" eq_refl s Hp).
  apply contains_app_r. exact Hc.
Qed.

(** In a run without the host text the third pass replaces nothing. *)
Lemma sub_url_google_run (s : string) :
  Text.contains "googleapis.com" (Text.non_space_run s) = false ->
  Text.non_space_run (sub_url google_url_at "[GOOGLE_API_URL]" false s)
  = Text.non_space_run s.
Proof.
  induction s as [| c t IH]; intros H; [reflexivity |].
  cbn [sub_url].
  destruct (google_url_at (String c t)) eqn:Hg.
  - apply google_url_at_run in Hg. congruence.
  - cbn [Text.non_space_run] in *. destruct (Text.is_space c); [reflexivity |].
    f_equal. apply IH. apply (contains_tail _ c). exact H.
Qed.

Lemma google_url_at_eq (s : string) :
  google_url_at s
  = Text.starts_with "https://" s
    && Text.contains "googleapis.com" (Text.non_space_run (Text.drop 8 s)).
Proof. reflexivity. Qed.

Lemma sub_url_google_head (s : string) :
  google_url_at s = false ->
  google_url_at (sub_url google_url_at "[GOOGLE_API_URL]" false s) = false.
Proof.
  intros Hs.
  destruct (Text.starts_with "https://"
              (sub_url google_url_at "[GOOGLE_API_URL]" false s)) eqn:Hp.
  - destruct (starts_with_sub_url google_url_at "[" "GOOGLE_API_URL]" "https://"
                eq_refl s Hp) as [Hps Hdrop].
    rewrite google_url_at_eq in Hs. rewrite Hps in Hs. cbn [andb] in Hs.
    rewrite google_url_at_eq, Hp. cbn [andb]. cbn [string_length] in Hdrop.
    rewrite Hdrop. rewrite sub_url_google_run; exact Hs.
  - rewrite google_url_at_eq, Hp. reflexivity.
Qed.

Lemma space_not_h (c : ascii) :
  Text.is_space c = true -> Ascii.eqb "h" c = false.
Proof.
  intros H. destruct (Ascii.eqb "h" c) eqn:E; [| reflexivity].
  apply Ascii.eqb_eq in E. subst c. discriminate H.
Qed.

Lemma google_placeholder_clean (rest : string) :
  (forall j, google_url_at (Text.drop j rest) = false) ->
  forall k, google_url_at (Text.drop k ("[GOOGLE_API_URL]" ++ rest)) = false.
Proof.
  intros H k.
  do 16 (destruct k as [| k]; [reflexivity |]).
  exact (H k).
Qed.

(** The third pattern matches nowhere in the output of the third pass. *)
Lemma sub_url_google_clean (s : string) :
  forall (in_match : bool) (k : nat),
    google_url_at
      (Text.drop k (sub_url google_url_at "[GOOGLE_API_URL]" in_match s)) = false.
Proof.
  induction s as [| c t IH]; intros in_match k.
  - destruct k; reflexivity.
  - cbn [sub_url]. destruct in_match.
    + destruct (Text.is_space c) eqn:Hsp; [| apply IH].
      destruct k as [| k]; [| apply IH].
      cbn [Text.drop]. rewrite google_url_at_eq. cbn [Text.starts_with].
      rewrite (space_not_h c Hsp). reflexivity.
    + destruct (google_url_at (String c t)) eqn:Hg.
      * apply google_placeholder_clean. intros j. apply IH.
      * destruct k as [| k]; [| apply IH].
        cbn [Text.drop].
        pose proof (sub_url_google_head (String c t) Hg) as Hd.
        cbn [sub_url] in Hd. rewrite Hg in Hd. exact Hd.
Qed.

Lemma starts_with_split (p s : string) :
  Text.starts_with p s = true ->
  s = (p ++ Text.drop (string_length p) s)%string.
Proof.
  revert s. induction p as [| a p IH]; intros s H; [reflexivity |].
  destruct s as [| c t]; [discriminate H |].
  cbn [Text.starts_with] in H. apply andb_true_iff in H as [Hac H].
  apply Ascii.eqb_eq in Hac. subst c.
  rewrite append_cons. cbn [string_length Text.drop]. f_equal. apply IH. exact H.
Qed.

(** Whatever the second pattern matches, the third matches too. *)
Lemma sheets_url_is_google_url (s : string) :
  sheets_url_at s = true -> google_url_at s = true.
Proof.
  unfold sheets_url_at. intros H.
  rewrite (starts_with_split _ _ H).
  generalize (Text.drop (string_length "https://sheets.googleapis.com/") s) as r.
  intros r. rewrite google_url_at_eq.
  rewrite (non_space_run_prefix "sheets.googleapis.com/" eq_refl); reflexivity.
Qed.

(** X2: neither URL pattern of the sanitiser matches anywhere in the
    sanitised message: it holds no [https://] URL whose run of
    non-whitespace characters mentions [googleapis.com], and so no Sheets
    API URL. *)
Theorem X2_sanitize_leaves_no_api_url (s : string) (k : nat) :
  google_url_at (Text.drop k (sanitize_error_message s)) = false
  /\ sheets_url_at (Text.drop k (sanitize_error_message s)) = false.
Proof.
  assert (Hg : google_url_at (Text.drop k (sanitize_error_message s)) = false)
    by apply sub_url_google_clean.
  split; [exact Hg |].
  destruct (sheets_url_at (Text.drop k (sanitize_error_message s))) eqn:Hs;
    [| reflexivity].
  apply sheets_url_is_google_url in Hs. congruence.
Qed.

Lemma sub_sheet_id_no_match (s : string) :
  (forall k, Text.all_next Text.is_id_char 44 (Text.drop k s) = false) ->
  sub_sheet_id 0 s = s.
Proof.
  induction s as [| c t IH]; intros H; [reflexivity |].
  pose proof (H 0%nat) as H0. cbn [Text.drop] in H0.
  cbn [sub_sheet_id]. rewrite H0. f_equal.
  apply IH. intros k. exact (H (S k)).
Qed.

Lemma sub_url_no_match (matches_at : string -> bool) (placeholder s : string) :
  (forall k, matches_at (Text.drop k s) = false) ->
  sub_url matches_at placeholder false s = s.
Proof.
  induction s as [| c t IH]; intros H; [reflexivity |].
  pose proof (H 0%nat) as H0. cbn [Text.drop] in H0.
  cbn [sub_url]. rewrite H0. f_equal.
  apply IH. intros k. exact (H (S k)).
Qed.

Lemma sanitize_no_match (s : string) :
  (forall k, Text.all_next Text.is_id_char 44 (Text.drop k s) = false) ->
  (forall k, google_url_at (Text.drop k s) = false) ->
  sanitize_error_message s = s.
Proof.
  intros Hid Hg. unfold sanitize_error_message.
  rewrite (sub_sheet_id_no_match s Hid).
  rewrite (sub_url_no_match sheets_url_at _ s).
  - apply sub_url_no_match. exact Hg.
  - intros k. destruct (sheets_url_at (Text.drop k s)) eqn:E; [| reflexivity].
    apply sheets_url_is_google_url in E. rewrite Hg in E. discriminate E.
Qed.

Lemma sanitize_output_clean (s : string) (k : nat) :
  Text.all_next Text.is_id_char 44 (Text.drop k (sanitize_error_message s)) = false
  /\ google_url_at (Text.drop k (sanitize_error_message s)) = false.
Proof.
  split.
  - apply (short_runs_no_match k _ 0%nat). apply sanitize_short_runs.
  - apply sub_url_google_clean.
Qed.

(** X3: the sanitiser returns a message unchanged exactly when none of its
    patterns matches anywhere in the message. *)
Theorem X3_sanitize_fixed_points (s : string) :
  sanitize_error_message s = s
  <-> forall k,
        Text.all_next Text.is_id_char 44 (Text.drop k s) = false
        /\ google_url_at (Text.drop k s) = false.
Proof.
  split.
  - intros H k. rewrite <- H. apply sanitize_output_clean.
  - intros H. apply sanitize_no_match; intros k; apply (H k).
Qed.

(** X4: sanitising twice is sanitising once. *)
Theorem X4_sanitize_idempotent (s : string) :
  sanitize_error_message (sanitize_error_message s) = sanitize_error_message s.
Proof.
  apply sanitize_no_match; intros k; apply sanitize_output_clean.
Qed.

(** ** More on the retry wrapper *)

Lemma forallb_is_log_no_call (tr : trace) :
  forallb is_log tr = true -> calls_of tr = 0%nat.
Proof.
  unfold calls_of. induction tr as [| ev tr IH]; [reflexivity |].
  cbn [forallb]. intros H. apply andb_true_iff in H as [Hev Htr].
  destruct ev; try discriminate Hev. cbn. apply IH. exact Htr.
Qed.

Lemma handle_failure_quiet (float_of_str : string -> option Q)
    (self : RateLimiter) (attempt : nat) (random : Q) (e : exn)
    (trh : trace) (r : result control) :
  handle_failure float_of_str self attempt random e = (trh, r) ->
  calls_of trh = 0%nat /\ sleeps_of trh = 0%nat.
Proof.
  intros H.
  pose proof (handle_failure_logs float_of_str self attempt random e) as Hl.
  rewrite H in Hl. cbn [fst] in Hl.
  split; [apply forallb_is_log_no_call | apply forallb_is_log_not_sleep]; exact Hl.
Qed.

(** A negative wait makes [time.sleep] raise inside the handler. *)
Lemma retry_loop_bad_sleep {A : Type} (float_of_str : string -> option Q)
    (self : RateLimiter) (rand : nat -> Q) (func : nat -> M A)
    (a : nat) (rest : list nat) (last : option exn)
    (tr trh : trace) (e : exn) (d : Q) :
  func a = (tr, Raise e) ->
  handle_failure float_of_str self a (rand a) e = (trh, Return (Retry d)) ->
  (Z.of_nat a < max_retries self - 1)%Z ->
  (d < 0)%Q ->
  retry_loop float_of_str self rand func (a :: rest) last
  = (EvCall a :: tr ++ trh,
     Raise (builtin_error "ValueError" "sleep length must be non-negative")).
Proof.
  intros Hf Hh Ha Hd. cbn [retry_loop].
  rewrite bind_emit, Hf, bind_pair_raise. cbn [fst snd].
  rewrite try_except_raise, Hh, bind_pair_return.
  destruct (Z.ltb_spec (Z.of_nat a) (max_retries self - 1)) as [_ | Hge]; [| lia].
  unfold time_sleep.
  destruct (Qle_bool 0 d) eqn:Hb;
    [apply Qle_bool_iff in Hb; exfalso; apply (Qlt_not_le _ _ Hd Hb) |].
  cbn. rewrite app_nil_r. reflexivity.
Qed.

Lemma retry_loop_succeeds {A : Type} (float_of_str : string -> option Q)
    (self : RateLimiter) (rand : nat -> Q) (func : nat -> M A)
    (k : nat) (tr : trace) (x : A) (rest : list nat) :
  (Z.of_nat k < max_retries self)%Z ->
  func k = (tr, Return x) ->
  forall (len a : nat) (last : option exn),
    (a + len = k)%nat ->
    (forall j, (a <= j < k)%nat -> retried float_of_str self rand func j) ->
    exists pre : trace,
      retry_loop float_of_str self rand func (seq a len ++ k :: rest) last
      = (pre ++ EvCall k
           :: tr ++ (if (0 <? k)%nat then [EvLog INFO (SuccessAfter (k + 1))] else []),
         Return x)
      /\ (len = 0%nat -> pre = []).
Proof.
  intros Hk Hf. induction len as [| len IH]; intros a last Ha Hj.
  - assert (a = k) by lia. subst a. exists []. split; [| reflexivity].
    cbn [seq app]. apply retry_loop_return. exact Hf.
  - destruct (Hj a) as (tra & ea & trha & d & Hfa & Hha & Hd); [lia |].
    destruct (IH (S a) (Some ea)) as (pre & Hloop & _); [lia | |].
    { intros j Hj'. apply Hj. lia. }
    exists (EvCall a :: tra ++ trha ++ EvSleep d :: pre). split; [| discriminate].
    cbn [seq app].
    rewrite (retry_loop_sleep float_of_str self rand func a _ last tra trha ea d Hfa Hha)
      by (try assumption; lia).
    rewrite Hloop. cbn [fst snd]. f_equal.
    cbn. rewrite <- !List.app_assoc. reflexivity.
Qed.



(** X6: with [max_retries] zero or negative the loop body never runs: the
    function is not called and [raise last_exception] raises [TypeError],
    because [last_exception] is still [None]. *)
Theorem X6_no_attempts_raises_type_error {A : Type}
    (float_of_str : string -> option Q) (self : RateLimiter) (rand : nat -> Q)
    (func : nat -> M A) :
  (max_retries self <= 0)%Z ->
  wrapper float_of_str self rand func
  = ([], Raise (builtin_error "TypeError"
                  "exceptions must derive from BaseException")).
Proof.
  intros H. unfold wrapper.
  replace (Z.to_nat (max_retries self)) with 0%nat by lia. reflexivity.
Qed.

(** X6 on a limiter built with [max_retries=0]. *)
Lemma X6_no_attempts_raises_type_error_witness :
  wrapper (fun _ => None) (RateLimiter_init 0) (fun _ => 1 # 2)
    (fun _ => ret 7%nat)
  = ([], Raise (builtin_error "TypeError"
                  "exceptions must derive from BaseException")).
Proof.
  apply (X6_no_attempts_raises_type_error (fun _ => None) (RateLimiter_init 0)
           (fun _ => 1 # 2) (fun _ => ret 7%nat)).
  cbn. lia.
Defined.

Lemma calls_of_cons_call (a : nat) (tr : trace) :
  calls_of (EvCall a :: tr) = S (calls_of tr).
Proof. reflexivity. Qed.

Lemma sleeps_of_cons_call (a : nat) (tr : trace) :
  sleeps_of (EvCall a :: tr) = sleeps_of tr.
Proof. reflexivity. Qed.

Lemma retry_loop_bounds {A : Type} (float_of_str : string -> option Q)
    (self : RateLimiter) (rand : nat -> Q) (func : nat -> M A) :
  (forall j, calls_of (fst (func j)) = 0%nat /\ sleeps_of (fst (func j)) = 0%nat) ->
  forall (len a : nat) (last : option exn),
    (a + len = Z.to_nat (max_retries self))%nat ->
    (calls_of (fst (retry_loop float_of_str self rand func (seq a len) last))
       <= len)%nat
    /\ (sleeps_of (fst (retry_loop float_of_str self rand func (seq a len) last))
        <= len - 1)%nat.
Proof.
  intros Hq. induction len as [| len IH]; intros a last Ha.
  - cbn [seq retry_loop]. destruct last; cbn; lia.
  - cbn [seq]. destruct (Hq a) as [Hc Hs].
    destruct (func a) as [tr [x | e]] eqn:Hf; cbn [fst] in Hc, Hs.
    + rewrite (retry_loop_return float_of_str self rand func a _ last tr x Hf).
      cbn [fst]. rewrite calls_of_cons_call, sleeps_of_cons_call.
      rewrite calls_of_app, sleeps_of_app, Hc, Hs.
      destruct (0 <? a)%nat; cbn; lia.
    + destruct (handle_failure float_of_str self a (rand a) e)
        as [trh [[d |] | x]] eqn:Hh;
        destruct (handle_failure_quiet _ _ _ _ _ _ _ Hh) as [Hch Hsh].
      * destruct (Z.lt_ge_cases (Z.of_nat a) (max_retries self - 1)) as [Hlt | Hge].
        -- destruct (Qlt_le_dec d 0) as [Hneg | Hpos].
           ++ rewrite (retry_loop_bad_sleep float_of_str self rand func a _ last
                         tr trh e d Hf Hh Hlt Hneg).
              cbn [fst]. rewrite calls_of_cons_call, sleeps_of_cons_call.
              rewrite calls_of_app, sleeps_of_app, Hc, Hs, Hch, Hsh. lia.
           ++ rewrite (retry_loop_sleep float_of_str self rand func a _ last
                         tr trh e d Hf Hh Hlt Hpos).
              cbn [fst]. destruct (IH (S a) (Some e)) as [IHc IHs]; [lia |].
              rewrite calls_of_cons_call, sleeps_of_cons_call.
              rewrite !calls_of_app, !sleeps_of_app, Hc, Hs, Hch, Hsh.
              change (EvSleep d :: ?t) with ([EvSleep d] ++ t).
              rewrite calls_of_app, sleeps_of_app. cbn. lia.
        -- rewrite (retry_loop_final float_of_str self rand func a _ last
                      tr trh e d Hf Hh) by lia.
           cbn [fst]. destruct (IH (S a) (Some e)) as [IHc IHs]; [lia |].
           rewrite calls_of_cons_call, sleeps_of_cons_call.
           rewrite !calls_of_app, !sleeps_of_app, Hc, Hs, Hch, Hsh.
           change (EvLog ERROR (MaxRetriesExceeded (max_retries self)) :: ?t)
             with ([EvLog ERROR (MaxRetriesExceeded (max_retries self))] ++ t).
           rewrite calls_of_app, sleeps_of_app. cbn. lia.
      * rewrite (retry_loop_break float_of_str self rand func a _ last tr trh e Hf Hh).
        cbn [fst]. rewrite calls_of_cons_call, sleeps_of_cons_call.
        rewrite calls_of_app, sleeps_of_app, Hc, Hs, Hch, Hsh. lia.
      * rewrite (retry_loop_crash float_of_str self rand func a _ last tr trh e x Hf Hh).
        cbn [fst]. rewrite calls_of_cons_call, sleeps_of_cons_call.
        rewrite calls_of_app, sleeps_of_app, Hc, Hs, Hch, Hsh. lia.
Qed.

(** The wrapped function with its own events erased: it returns or raises
    as [func] does and records nothing, so that the trace of the wrapper
    around it holds the events of the wrapper alone. *)
Definition quiet {A : Type} (func : nat -> M A) (k : nat) : M A :=
  ([], snd (func k)).

(** The calls and the sleeps the function records in the attempts of
    [todo]. *)
Definition inner_calls {A : Type} (func : nat -> M A) (todo : list nat) : nat :=
  list_sum (map (fun j => calls_of (fst (func j))) todo).

Definition inner_sleeps {A : Type} (func : nat -> M A) (todo : list nat) : nat :=
  list_sum (map (fun j => sleeps_of (fst (func j))) todo).

Lemma calls_of_cons_sleep (d : Q) (tr : trace) :
  calls_of (EvSleep d :: tr) = calls_of tr.
Proof. reflexivity. Qed.

Lemma sleeps_of_cons_sleep (d : Q) (tr : trace) :
  sleeps_of (EvSleep d :: tr) = S (sleeps_of tr).
Proof. reflexivity. Qed.

Lemma calls_of_cons_log (l : level) (m : logmsg) (tr : trace) :
  calls_of (EvLog l m :: tr) = calls_of tr.
Proof. reflexivity. Qed.

Lemma sleeps_of_cons_log (l : level) (m : logmsg) (tr : trace) :
  sleeps_of (EvLog l m :: tr) = sleeps_of tr.
Proof. reflexivity. Qed.

Lemma list_sum_cons (n : nat) (l : list nat) :
  list_sum (n :: l) = (n + list_sum l)%nat.
Proof. reflexivity. Qed.

Ltac count_events :=
  cbn [fst snd];
  rewrite ?calls_of_cons_call, ?sleeps_of_cons_call, ?calls_of_app, ?sleeps_of_app,
    ?calls_of_cons_sleep, ?sleeps_of_cons_sleep, ?calls_of_cons_log,
    ?sleeps_of_cons_log.

(** The wrapper decides by the results of the calls alone: erasing the
    events of the function changes neither what the wrapper returns or
    raises nor the events of its own, and the whole trace holds no more
    calls and sleeps than those of the wrapper and those of the function. *)
Lemma retry_loop_quiet {A : Type} (float_of_str : string -> option Q)
    (self : RateLimiter) (rand : nat -> Q) (func : nat -> M A) :
  forall (todo : list nat) (last : option exn),
    snd (retry_loop float_of_str self rand func todo last)
    = snd (retry_loop float_of_str self rand (quiet func) todo last)
    /\ (calls_of (fst (retry_loop float_of_str self rand func todo last))
        <= calls_of (fst (retry_loop float_of_str self rand (quiet func) todo last))
           + inner_calls func todo)%nat
    /\ (sleeps_of (fst (retry_loop float_of_str self rand func todo last))
        <= sleeps_of (fst (retry_loop float_of_str self rand (quiet func) todo last))
           + inner_sleeps func todo)%nat.
Proof.
  unfold inner_calls, inner_sleeps.
  induction todo as [| a rest IH]; intros last.
  - cbn [retry_loop map]. split; [reflexivity | lia].
  - cbn [map]. rewrite !list_sum_cons.
    destruct (func a) as [tr [x | e]] eqn:Hf; cbn [fst].
    + assert (Hq : quiet func a = ([], Return x))
        by (unfold quiet; rewrite Hf; reflexivity).
      rewrite (retry_loop_return float_of_str self rand func a rest last tr x Hf).
      rewrite (retry_loop_return float_of_str self rand (quiet func) a rest last
                 [] x Hq).
      count_events. cbn [app]. split; [reflexivity | lia].
    + assert (Hq : quiet func a = ([], Raise e))
        by (unfold quiet; rewrite Hf; reflexivity).
      destruct (handle_failure float_of_str self a (rand a) e)
        as [trh [[d |] | x]] eqn:Hh;
        destruct (handle_failure_quiet _ _ _ _ _ _ _ Hh) as [Hch Hsh].
      * destruct (Z.lt_ge_cases (Z.of_nat a) (max_retries self - 1)) as [Hlt | Hge].
        -- destruct (Qlt_le_dec d 0) as [Hneg | Hpos].
           ++ rewrite (retry_loop_bad_sleep float_of_str self rand func a rest last
                         tr trh e d Hf Hh Hlt Hneg).
              rewrite (retry_loop_bad_sleep float_of_str self rand (quiet func) a rest
                         last [] trh e d Hq Hh Hlt Hneg).
              count_events. cbn [app]. split; [reflexivity | lia].
           ++ rewrite (retry_loop_sleep float_of_str self rand func a rest last
                         tr trh e d Hf Hh Hlt Hpos).
              rewrite (retry_loop_sleep float_of_str self rand (quiet func) a rest
                         last [] trh e d Hq Hh Hlt Hpos).
              destruct (IH (Some e)) as (IHr & IHc & IHs).
              count_events. cbn [app]. count_events.
              split; [exact IHr | lia].
        -- rewrite (retry_loop_final float_of_str self rand func a rest last
                      tr trh e d Hf Hh) by lia.
           rewrite (retry_loop_final float_of_str self rand (quiet func) a rest
                      last [] trh e d Hq Hh) by lia.
           destruct (IH (Some e)) as (IHr & IHc & IHs).
           count_events. cbn [app]. count_events.
           split; [exact IHr | lia].
      * rewrite (retry_loop_break float_of_str self rand func a rest last tr trh e
                   Hf Hh).
        rewrite (retry_loop_break float_of_str self rand (quiet func) a rest last
                   [] trh e Hq Hh).
        count_events. cbn [app]. split; [reflexivity | lia].
      * rewrite (retry_loop_crash float_of_str self rand func a rest last tr trh e x
                   Hf Hh).
        rewrite (retry_loop_crash float_of_str self rand (quiet func) a rest last
                   [] trh e x Hq Hh).
        count_events. cbn [app]. split; [reflexivity | lia].
Qed.

(** X7: whatever the wrapped function does, the wrapper calls it at most
    [max_retries] times and sleeps at most [max_retries - 1] times between
    the calls.  The events of the wrapper alone are those of its run around
    the function with the function's own events erased, a run that returns
    or raises the same; the whole trace holds no more calls and sleeps than
    these and the ones the function itself records (the two seconds per
    worksheet of the fetch, or the attempts of a wrapper inside it). *)
Theorem X7_wrapper_attempts_bounded {A : Type}
    (float_of_str : string -> option Q) (self : RateLimiter) (rand : nat -> Q)
    (func : nat -> M A) :
  snd (wrapper float_of_str self rand func)
  = snd (wrapper float_of_str self rand (quiet func))
  /\ (calls_of (fst (wrapper float_of_str self rand (quiet func)))
      <= Z.to_nat (max_retries self))%nat
  /\ (sleeps_of (fst (wrapper float_of_str self rand (quiet func)))
      <= Z.to_nat (max_retries self) - 1)%nat
  /\ (calls_of (fst (wrapper float_of_str self rand func))
      <= Z.to_nat (max_retries self)
         + inner_calls func (seq 0 (Z.to_nat (max_retries self))))%nat
  /\ (sleeps_of (fst (wrapper float_of_str self rand func))
      <= Z.to_nat (max_retries self) - 1
         + inner_sleeps func (seq 0 (Z.to_nat (max_retries self))))%nat.
Proof.
  unfold wrapper.
  destruct (retry_loop_quiet float_of_str self rand func
              (seq 0 (Z.to_nat (max_retries self))) None) as (Hr & Hc & Hs).
  destruct (retry_loop_bounds float_of_str self rand (quiet func)
              (fun j => conj eq_refl eq_refl)
              (Z.to_nat (max_retries self)) 0 None eq_refl) as [Hoc Hos].
  split; [exact Hr |]. split; [exact Hoc |]. split; [exact Hos |]. lia.
Qed.

(** X7 on the fetch of the spreadsheet with one worksheet, which itself
    sleeps two seconds after reading the worksheet: the wrapper makes one
    call and no sleep of its own, and the trace holds the one sleep of the
    fetch. *)
Lemma X7_wrapper_attempts_bounded_witness :
  let fetch := fun _ : nat =>
                 fetch_sheet_data_body one_sheet_service "id-north" "north" in
  calls_of (fst (wrapper (fun _ => None) default_limiter (fun _ => 1 # 2)
                   (quiet fetch))) = 1%nat
  /\ sleeps_of (fst (wrapper (fun _ => None) default_limiter (fun _ => 1 # 2)
                       (quiet fetch))) = 0%nat
  /\ sleeps_of (fst (wrapper (fun _ => None) default_limiter (fun _ => 1 # 2)
                       fetch)) = 1%nat
  /\ (sleeps_of (fst (wrapper (fun _ => None) default_limiter (fun _ => 1 # 2)
                        fetch))
      <= 4 + inner_sleeps fetch (seq 0 5))%nat.
Proof.
  cbv zeta.
  split; [vm_compute; reflexivity |]. split; [vm_compute; reflexivity |].
  split; [vm_compute; reflexivity |].
  exact (proj2 (proj2 (proj2 (proj2
    (X7_wrapper_attempts_bounded (fun _ => None) default_limiter (fun _ => 1 # 2)
       (fun _ : nat =>
          fetch_sheet_data_body one_sheet_service "id-north" "north")))))).
Defined.

(** The failures on which the handler reaches [break]: a status other than
    429 and below 500, whatever the text; or no status and neither keyword in
    the text. *)
Definition aborts (e : exn) : bool :=
  match status_of e with
  | Some s => negb (s =? 429)%Z && negb (500 <=? s)%Z
  | None => negb (quota_or_rate e)
  end.

(** X8: the handler stops retrying exactly on the failures of [aborts]: a
    failure that carries a status is judged by the status alone (a 404 whose
    text holds "rate" is not retried), and a failure without a status by the
    two keywords alone. *)
Theorem X8_handler_breaks_iff (float_of_str : string -> option Q)
    (self : RateLimiter) (attempt : nat) (random : Q) (e : exn) :
  (exists tr, handle_failure float_of_str self attempt random e = (tr, Return Break))
  <-> aborts e = true.
Proof.
  unfold aborts, handle_failure.
  destruct (backoff_cases self attempt random) as [[t Ht] | Ht]; rewrite !Ht;
    destruct (status_of e) as [s |];
    try destruct (s =? 429)%Z;
    try destruct (retry_after_of e) as [v |];
    try destruct (truthy v);
    try (destruct (py_float_cases float_of_str v) as [[d Hd] | [x Hd]]; rewrite Hd);
    try destruct (500 <=? s)%Z;
    try destruct (quota_or_rate e);
    cbn; split;
    solve [ intros (tr & H); discriminate H
          | discriminate
          | reflexivity
          | intros _; eexists; reflexivity ].
Qed.

Lemma retry_loop_return_inv {A : Type} (float_of_str : string -> option Q)
    (self : RateLimiter) (rand : nat -> Q) (func : nat -> M A) :
  forall (len a : nat) (last : option exn) (tr : trace) (x : A),
    retry_loop float_of_str self rand func (seq a len) last = (tr, Return x) ->
    exists (k : nat) (pre trk : trace),
      (a <= k < a + len)%nat
      /\ func k = (trk, Return x)
      /\ (forall j, (a <= j < k)%nat -> is_raise (snd (func j)) = true)
      /\ tr = pre ++ EvCall k
                :: trk ++ (if (0 <? k)%nat
                           then [EvLog INFO (SuccessAfter (k + 1))] else []).
Proof.
  induction len as [| len IH]; intros a last tr x H.
  - cbn [seq retry_loop] in H. destruct last; discriminate H.
  - cbn [seq] in H. destruct (func a) as [tra [y | e]] eqn:Hf.
    + rewrite (retry_loop_return float_of_str self rand func a _ last tra y Hf) in H.
      injection H as <- <-. exists a, [], tra.
      split; [lia |]. split; [exact Hf |]. split; [intros j Hj; lia | reflexivity].
    + assert (Hrec : forall tr', retry_loop float_of_str self rand func
                                   (seq (S a) len) (Some e) = (tr', Return x) ->
                                 forall front : trace,
                                   tr = front ++ tr' ->
                                   exists (k : nat) (pre trk : trace),
                                     (a <= k < a + S len)%nat
                                     /\ func k = (trk, Return x)
                                     /\ (forall j, (a <= j < k)%nat ->
                                                   is_raise (snd (func j)) = true)
                                     /\ tr = pre ++ EvCall k
                                               :: trk ++ (if (0 <? k)%nat
                                                          then [EvLog INFO (SuccessAfter (k + 1))]
                                                          else [])).
      { intros tr' Hloop front Htr.
        destruct (IH (S a) (Some e) tr' x Hloop) as (k & pre & trk & Hk & Hfk & Hj & Heq).
        exists k, (front ++ pre), trk. split; [lia |]. split; [exact Hfk |]. split.
        - intros j Hj'. destruct (Nat.eq_dec j a) as [-> | Hne].
          + rewrite Hf. reflexivity.
          + apply Hj. lia.
        - rewrite Htr, Heq, <- List.app_assoc. reflexivity. }
      destruct (handle_failure float_of_str self a (rand a) e)
        as [trh [[d |] | y]] eqn:Hh.
      * destruct (Z.lt_ge_cases (Z.of_nat a) (max_retries self - 1)) as [Hlt | Hge].
        -- destruct (Qlt_le_dec d 0) as [Hneg | Hpos].
           ++ rewrite (retry_loop_bad_sleep float_of_str self rand func a _ last
                         tra trh e d Hf Hh Hlt Hneg) in H. discriminate H.
           ++ rewrite (retry_loop_sleep float_of_str self rand func a _ last
                         tra trh e d Hf Hh Hlt Hpos) in H.
              destruct (retry_loop float_of_str self rand func (seq (S a) len) (Some e))
                as [tr' r'] eqn:Hloop.
              cbn [fst snd] in H. injection H as <- ->.
              apply (Hrec tr' eq_refl (EvCall a :: tra ++ trh ++ [EvSleep d])).
              cbn. rewrite <- !List.app_assoc. reflexivity.
        -- rewrite (retry_loop_final float_of_str self rand func a _ last
                      tra trh e d Hf Hh) in H by lia.
           destruct (retry_loop float_of_str self rand func (seq (S a) len) (Some e))
             as [tr' r'] eqn:Hloop.
           cbn [fst snd] in H. injection H as <- ->.
           apply (Hrec tr' eq_refl
                    (EvCall a :: tra ++ trh
                       ++ [EvLog ERROR (MaxRetriesExceeded (max_retries self))])).
           cbn. rewrite <- !List.app_assoc. reflexivity.
      * rewrite (retry_loop_break float_of_str self rand func a _ last tra trh e Hf Hh)
          in H. discriminate H.
      * rewrite (retry_loop_crash float_of_str self rand func a _ last tra trh e y Hf Hh)
          in H. discriminate H.
Qed.

(** X9: a result the wrapper returns is the result of one call of the
    function, made in an attempt [k] below [max_retries], after every earlier
    attempt raised; the trace ends with that call. *)
Theorem X9_wrapper_result_comes_from_a_call {A : Type}
    (float_of_str : string -> option Q) (self : RateLimiter) (rand : nat -> Q)
    (func : nat -> M A) (tr : trace) (x : A) :
  wrapper float_of_str self rand func = (tr, Return x) ->
  exists (k : nat) (pre trk : trace),
    (Z.of_nat k < max_retries self)%Z
    /\ func k = (trk, Return x)
    /\ (forall j, (j < k)%nat -> is_raise (snd (func j)) = true)
    /\ tr = pre ++ EvCall k
              :: trk ++ (if (0 <? k)%nat
                         then [EvLog INFO (SuccessAfter (k + 1))] else []).
Proof.
  unfold wrapper. intros H.
  destruct (retry_loop_return_inv float_of_str self rand func _ _ _ _ _ H)
    as (k & pre & trk & Hk & Hf & Hj & Heq).
  exists k, pre, trk. split; [lia |]. split; [exact Hf |]. split; [| exact Heq].
  intros j Hj'. apply Hj. lia.
Qed.

(** X9 on a function that answers 503 twice and then returns. *)
Lemma X9_wrapper_result_comes_from_a_call_witness :
  exists (k : nat) (pre trk : trace),
    (Z.of_nat k < 5)%Z
    /\ (if (k <? 2)%nat then @raise nat unavailable_error else ret 7%nat)
       = (trk, Return 7%nat).
Proof.
  destruct (X9_wrapper_result_comes_from_a_call (fun _ => None) default_limiter
              (fun _ => 1 # 2)
              (fun j => if (j <? 2)%nat then @raise nat unavailable_error
                        else ret 7%nat)
              (fst (wrapper (fun _ => None) default_limiter (fun _ => 1 # 2)
                      (fun j => if (j <? 2)%nat then @raise nat unavailable_error
                                else ret 7%nat)))
              7%nat eq_refl)
    as (k & pre & trk & Hk & Hf & _).
  exists k, pre, trk. split; assumption.
Defined.

(** X10: for every attempt index below 1024 the delay before jitter lies
    between 1 and 60 seconds, is [2^i] up to attempt 5 and the cap of 60
    seconds from attempt 6 on, and the delay returned with a draw in [0, 1)
    is at least 1 second and at most 75 seconds.  The two bounds are closed:
    they also hold of the doubles the code computes, where the sum can round
    up to 75. *)
Theorem X10_backoff_range (n : Z) (i : nat) (r : Q) :
  (i < 1024)%nat -> (0 <= r)%Q -> (r < 1)%Q ->
  exists d t : Q,
    backoff_delay (RateLimiter_init n) i = ret d
    /\ exponential_backoff_with_jitter (RateLimiter_init n) i r = ret t
    /\ (1 <= d)%Q /\ (d <= 60)%Q
    /\ (1 <= t)%Q /\ (t <= 75)%Q
    /\ ((i <= 5)%nat -> (d == inject_Z (2 ^ Z.of_nat i))%Q)
    /\ ((6 <= i)%nat -> (d == 60)%Q).
Proof.
  intros Hi Hr0 Hr1.
  set (p := inject_Z (2 ^ Z.of_nat i)).
  set (d := Qmin (1 * p) 60).
  assert (Hp1 : (1 <= p)%Q).
  { unfold p. change 1%Q with (inject_Z 1). rewrite <- Zle_Qle.
    assert (0 < 2 ^ Z.of_nat i)%Z by (apply Z.pow_pos_nonneg; lia). lia. }
  assert (Hd60 : (d <= 60)%Q) by apply Q.le_min_r.
  assert (Hd1 : (1 <= d)%Q).
  { unfold d. apply Q.min_glb; [rewrite Qmult_1_l; exact Hp1 | discriminate]. }
  assert (Hj : (0 <= d * r)%Q) by (apply Qmult_le_0_compat; lra).
  assert (Hk : (d * r < d)%Q).
  { rewrite <- (Qmult_1_r d) at 2. apply Qmult_lt_l; lra. }
  exists d, (d + d * (1 # 4) * r)%Q.
  split; [apply backoff_delay_small; exact Hi |].
  split.
  { unfold exponential_backoff_with_jitter.
    rewrite (backoff_delay_small n _ Hi), bind_ret_l. reflexivity. }
  split; [exact Hd1 |]. split; [exact Hd60 |].
  split; [lra |]. split; [lra |]. split.
  - intros Hle. unfold d. rewrite Qmult_1_l. apply Q.min_l.
    unfold p. change 60%Q with (inject_Z 60). rewrite <- Zle_Qle.
    assert (2 ^ Z.of_nat i <= 2 ^ 5)%Z by (apply Z.pow_le_mono_r; lia).
    change (2 ^ 5)%Z with 32%Z in *. lia.
  - intros Hge. unfold d. rewrite Qmult_1_l. apply Q.min_r.
    unfold p. change 60%Q with (inject_Z 60). rewrite <- Zle_Qle.
    assert (2 ^ 6 <= 2 ^ Z.of_nat i)%Z by (apply Z.pow_le_mono_r; lia).
    change (2 ^ 6)%Z with 64%Z in *. lia.
Qed.

(** X10 at attempt 7 with the draw 1/2: the cap applies. *)
Lemma X10_backoff_range_witness :
  exists d t : Q,
    backoff_delay (RateLimiter_init 5) 7 = ret d
    /\ exponential_backoff_with_jitter (RateLimiter_init 5) 7 (1 # 2) = ret t
    /\ (d == 60)%Q /\ (t <= 75)%Q.
Proof.
  assert (Hi : (7 < 1024)%nat) by lia.
  assert (Hr0 : (0 <= 1 # 2)%Q) by (vm_compute; discriminate).
  assert (Hr1 : (1 # 2 < 1)%Q) by reflexivity.
  destruct (X10_backoff_range 5 7 (1 # 2) Hi Hr0 Hr1)
    as (d & t & H1 & H2 & _ & _ & _ & H6 & _ & H8).
  exists d, t. repeat split; try assumption. apply H8. lia.
Defined.

(** ** More on the extraction adapter *)

(** A frame as [pd.DataFrame(data_rows, columns=header)] accepts it: at least
    one row, and every row as wide as the header. *)
Definition well_formed_frame (f : frame) : Prop :=
  frame_rows f <> []
  /\ Forall (fun r => List.length r = List.length (frame_header f)) (frame_rows f).

(** X11: a worksheet with at most one row of values gives no frame; with
    four rows or more the header is row 2 and the data are rows 3 onwards;
    with two or three rows the header is row 0 and the data are rows 1
    onwards; every frame built has at least one row, and every row has the
    width of its header. *)
Theorem X11_reshape_sheet_cases (sheet_title : string) (values : list row) :
  (reshape_sheet sheet_title values = None <-> (List.length values <= 1)%nat)
  /\ ((3 < List.length values)%nat ->
      exists f, reshape_sheet sheet_title values = Some f
                /\ frame_title f = sheet_title
                /\ frame_header f = nth 2 values []
                /\ frame_rows f = map (reshape_row (nth 2 values [])) (skipn 3 values)
                /\ List.length (frame_rows f) = (List.length values - 3)%nat)
  /\ ((2 <= List.length values <= 3)%nat ->
      exists f, reshape_sheet sheet_title values = Some f
                /\ frame_title f = sheet_title
                /\ frame_header f = nth 0 values []
                /\ frame_rows f = map (reshape_row (nth 0 values [])) (skipn 1 values)
                /\ List.length (frame_rows f) = (List.length values - 1)%nat)
  /\ (forall f, reshape_sheet sheet_title values = Some f -> well_formed_frame f).
Proof.
  assert (Hlen : forall h k, List.length (map (reshape_row h) (skipn k values))
                             = (List.length values - k)%nat).
  { intros h k. rewrite List.length_map, List.length_skipn. reflexivity. }
  assert (Hwf : forall f, reshape_sheet sheet_title values = Some f ->
                          well_formed_frame f).
  { intros f Hf. destruct (reshape_sheet_rows sheet_title values f Hf) as [Hw Hne].
    split; assumption. }
  refine (conj _ (conj _ (conj _ Hwf))); clear Hwf; unfold reshape_sheet;
    destruct (Nat.ltb_spec 3 (List.length values)) as [H3 | H3];
    destruct (Nat.ltb_spec 1 (List.length values)) as [H1 | H1];
    pose proof (Hlen (nth 2 values []) 3%nat) as Hl3;
    pose proof (Hlen (nth 0 values []) 1%nat) as Hl1;
    try (destruct (map (reshape_row (nth 2 values [])) (skipn 3 values))
           as [| r3 rs3]; [cbn in Hl3; lia |]);
    try (destruct (map (reshape_row (nth 0 values [])) (skipn 1 values))
           as [| r1 rs1]; [cbn in Hl1; lia |]);
    try lia;
    try solve [ split; [discriminate | lia]
              | split; [lia | reflexivity]
              | intros ?; lia
              | intros _; eexists; repeat split; cbn; assumption ].
Qed.

Lemma bind_return_inv {A B : Type} (m : M A) (k : A -> M B) (tr : trace) (b : B) :
  bind m k = (tr, Return b) ->
  exists (tr1 : trace) (a : A) (tr2 : trace),
    m = (tr1, Return a) /\ k a = (tr2, Return b) /\ tr = tr1 ++ tr2.
Proof.
  unfold bind. destruct m as [tr1 [a | e]]; [| discriminate].
  destruct (k a) as [tr2 r] eqn:Hk. intros H. injection H as <- ->.
  exists tr1, a, tr2. repeat split. exact Hk.
Qed.

Lemma bind_raise_inv {A B : Type} (m : M A) (k : A -> M B) (tr : trace) (e : exn) :
  bind m k = (tr, Raise e) ->
  m = (tr, Raise e)
  \/ exists (tr1 : trace) (a : A) (tr2 : trace),
       m = (tr1, Return a) /\ k a = (tr2, Raise e) /\ tr = tr1 ++ tr2.
Proof.
  unfold bind. destruct m as [tr1 [a | e1]].
  - destruct (k a) as [tr2 r] eqn:Hk. intros H. injection H as <- ->.
    right. exists tr1, a, tr2. repeat split. exact Hk.
  - intros H. injection H as <- <-. left. reflexivity.
Qed.

Lemma reshape_sheet_none_iff (sheet_title : string) (values : list row) :
  reshape_sheet sheet_title values = None <-> (List.length values <= 1)%nat.
Proof.
  assert (Hlen : forall h k, List.length (map (reshape_row h) (skipn k values))
                             = (List.length values - k)%nat).
  { intros h k. rewrite List.length_map, List.length_skipn. reflexivity. }
  unfold reshape_sheet.
  destruct (Nat.ltb_spec 3 (List.length values)) as [H3 | H3].
  - pose proof (Hlen (nth 2 values []) 3%nat) as Hl.
    destruct (map (reshape_row (nth 2 values [])) (skipn 3 values));
      [cbn in Hl; lia | split; [discriminate | lia]].
  - destruct (Nat.ltb_spec 1 (List.length values)) as [H1 | H1].
    + pose proof (Hlen (nth 0 values []) 1%nat) as Hl.
      destruct (map (reshape_row (nth 0 values [])) (skipn 1 values));
        [cbn in Hl; lia | split; [discriminate | lia]].
    + split; [lia | reflexivity].
Qed.

Definition is_put (ev : event) : bool :=
  match ev with EvPut _ _ _ => true | _ => false end.

(** The writes to the bucket that a trace records. *)
Definition puts_of (tr : trace) : trace := List.filter is_put tr.

Lemma puts_of_app (t1 t2 : trace) : puts_of (t1 ++ t2) = puts_of t1 ++ puts_of t2.
Proof. apply List.filter_app. Qed.

(** The worksheet loop: one sleep of two seconds per worksheet read, no
    write to the bucket, and only frames that pandas accepts. *)
Lemma sheet_frames_cases (svc : sheets_service) (t : string) (values : list row) :
  sheet_frames svc t values
  = ([], Return match reshape_sheet t values with
                | Some f => [f]
                | None => []
                end)
  \/ exists (f : frame) (e : exn),
       reshape_sheet t values = Some f /\ dataframe_error svc f = Some e
       /\ sheet_frames svc t values = ([], Raise e).
Proof.
  unfold sheet_frames.
  destruct (reshape_sheet t values) as [f |]; [| left; reflexivity].
  destruct (dataframe_error svc f) as [e |] eqn:Hd; [| left; reflexivity].
  right. exists f, e. repeat split. exact Hd.
Qed.

Lemma fetch_sheets_returns (svc : sheets_service) (sheet_id : string) :
  forall (titles : list string) (tr : trace) (frames : list frame),
    fetch_sheets svc sheet_id titles = (tr, Return frames) ->
    Forall well_formed_frame frames
    /\ sleeps_of tr = List.length titles
    /\ tr = repeat (EvSleep 2) (List.length titles)
    /\ (frames = [] <->
        forall t, In t titles ->
                  exists values, values_get svc sheet_id t = Return values
                                 /\ (List.length values <= 1)%nat).
Proof.
  induction titles as [| t titles IH]; intros tr frames H.
  - injection H as <- <-. repeat split; try constructor.
    intros _ t' [].
  - cbn [fetch_sheets] in H. unfold lift in H.
    destruct (values_get svc sheet_id t) as [values | e] eqn:Hv; [| discriminate H].
    rewrite bind_pair_return in H. cbn [app] in H.
    destruct (sheet_frames_cases svc t values) as [Hf | (f & e & _ & _ & Hf)];
      rewrite Hf in H; [| discriminate H].
    rewrite bind_pair_return in H. cbn [app] in H.
    change (time_sleep 2) with (emit (EvSleep 2)) in H. rewrite bind_emit in H.
    destruct (fetch_sheets svc sheet_id titles) as [tr' [more | e]] eqn:Hrec;
      [| discriminate H].
    rewrite bind_pair_return in H. cbn [fst snd ret app] in H.
    injection H as <- <-. rewrite app_nil_r.
    destruct (IH tr' more eq_refl) as (Hwf & Hs & Htr & Hempty).
    split; [| split; [| split]].
    + apply Forall_app. split; [| exact Hwf].
      destruct (reshape_sheet t values) as [f |] eqn:Hr; [| constructor].
      constructor; [| constructor].
      destruct (reshape_sheet_rows t values f Hr). split; assumption.
    + change (EvSleep 2 :: tr') with ([EvSleep 2] ++ tr').
      rewrite sleeps_of_app, Hs. reflexivity.
    + rewrite Htr. reflexivity.
    + split.
      * intros Hnil. apply app_eq_nil in Hnil as [Hhead Hmore].
        intros t' [<- | Hin].
        -- exists values. split; [exact Hv |].
           destruct (reshape_sheet t values) as [f |] eqn:Hr; [discriminate Hhead |].
           apply (proj1 (reshape_sheet_none_iff t values)). exact Hr.
        -- apply (proj1 Hempty Hmore). exact Hin.
      * intros Hall.
        assert (Hmore : more = []).
        { apply (proj2 Hempty). intros t' Hin. apply Hall. right. exact Hin. }
        rewrite Hmore, app_nil_r.
        destruct (Hall t (or_introl eq_refl)) as (values' & Hv' & Hlen).
        rewrite Hv in Hv'. injection Hv' as <-.
        rewrite (proj2 (reshape_sheet_none_iff t values) Hlen). reflexivity.
Qed.

(** The exception that ends the worksheet loop comes from the read of one
    worksheet or from pandas building the frame of one worksheet. *)
Definition sheet_failure (svc : sheets_service) (sheet_id t : string)
    (e : exn) : Prop :=
  values_get svc sheet_id t = Raise e
  \/ exists (values : list row) (f : frame),
       values_get svc sheet_id t = Return values
       /\ reshape_sheet t values = Some f
       /\ dataframe_error svc f = Some e.

Lemma fetch_sheets_raises (svc : sheets_service) (sheet_id : string) :
  forall (titles : list string) (tr : trace) (e : exn),
    fetch_sheets svc sheet_id titles = (tr, Raise e) ->
    (exists t, In t titles /\ sheet_failure svc sheet_id t e)
    /\ exists n, (n < List.length titles)%nat /\ tr = repeat (EvSleep 2) n.
Proof.
  induction titles as [| t titles IH]; intros tr e H; [discriminate H |].
  cbn [fetch_sheets] in H. unfold lift in H.
  destruct (values_get svc sheet_id t) as [values | e1] eqn:Hv.
  - rewrite bind_pair_return in H. cbn [app] in H.
    destruct (sheet_frames_cases svc t values) as [Hf | (f & e1 & Hr & Hd & Hf)];
      rewrite Hf in H.
    + rewrite bind_pair_return in H. cbn [app] in H.
      change (time_sleep 2) with (emit (EvSleep 2)) in H. rewrite bind_emit in H.
      destruct (fetch_sheets svc sheet_id titles) as [tr' [more | e2]] eqn:Hrec.
      * rewrite bind_pair_return in H. discriminate H.
      * rewrite bind_pair_raise in H. cbn [fst snd] in H. injection H as <- <-.
        destruct (IH tr' e2 eq_refl) as ((t' & Hin & Ht') & n & Hn & Htr).
        split; [exists t'; split; [right; exact Hin | exact Ht'] |].
        exists (S n). split; [cbn; lia | rewrite Htr; reflexivity].
    + rewrite bind_pair_raise in H. injection H as <- <-.
      split; [exists t; split; [left; reflexivity |] |].
      * right. exists values, f. repeat split; assumption.
      * exists 0%nat. split; [cbn; lia | reflexivity].
  - rewrite bind_pair_raise in H. injection H as <- <-.
    split; [exists t; split; [left; reflexivity | left; exact Hv] |].
    exists 0%nat. split; [cbn; lia | reflexivity].
Qed.

Lemma puts_of_sleeps (n : nat) (d : Q) : puts_of (repeat (EvSleep d) n) = [].
Proof. induction n as [| n IH]; [reflexivity | exact IH]. Qed.

Lemma sleeps_of_sleeps (n : nat) (d : Q) : sleeps_of (repeat (EvSleep d) n) = n.
Proof.
  induction n as [| n IH]; [reflexivity |].
  unfold sleeps_of in *. cbn. rewrite IH. reflexivity.
Qed.

Lemma df_empty_well_formed (data : DataFrame) :
  Forall well_formed_frame data -> (df_empty data = true <-> data = []).
Proof.
  intros H. unfold df_empty, df_len. split.
  - intros He. apply Nat.eqb_eq in He. destruct data as [| f rest]; [reflexivity |].
    exfalso. apply Forall_inv in H. destruct H as [Hne _].
    cbn in He. destruct (frame_rows f); [congruence | cbn in He; lia].
  - intros ->. reflexivity.
Qed.

(** What the undecorated fetch does, by the answers of the service and of
    pandas. *)
Lemma fetch_body_cases (svc : sheets_service) (sheet_id sheet_name : string) :
  match spreadsheets_get svc sheet_id with
  | Raise e =>
      fetch_sheet_data_body svc sheet_id sheet_name
      = ([EvLog INFO (FetchingData sheet_name);
          EvLog ERROR (FetchFailed sheet_name (sanitize_error_message (exc_text e)))],
         Raise e)
  | Return titles =>
      match fetch_sheets svc sheet_id titles with
      | (tr, Raise e) =>
          fetch_sheet_data_body svc sheet_id sheet_name
          = (EvLog INFO (FetchingData sheet_name) :: tr ++
               [EvLog ERROR (FetchFailed sheet_name
                               (sanitize_error_message (exc_text e)))],
             Raise e)
      | (tr, Return frames) =>
          match frames, concat_error svc frames with
          | _ :: _, Some e =>
              fetch_sheet_data_body svc sheet_id sheet_name
              = (EvLog INFO (FetchingData sheet_name) :: tr ++
                   [EvLog ERROR (FetchFailed sheet_name
                                   (sanitize_error_message (exc_text e)))],
                 Raise e)
          | _, _ =>
              fetch_sheet_data_body svc sheet_id sheet_name
              = (EvLog INFO (FetchingData sheet_name) :: tr ++
                   [match frames with
                    | [] => EvLog WARNING (NoDataFound sheet_name)
                    | _ :: _ => EvLog INFO (FetchedRows (df_len frames) sheet_name)
                    end],
                 Return frames)
          end
      end
  end.
Proof.
  unfold fetch_sheet_data_body, lift.
  destruct (spreadsheets_get svc sheet_id) as [titles | e]; [| reflexivity].
  destruct (fetch_sheets svc sheet_id titles) as [tr [frames | e]] eqn:Hs.
  - destruct frames as [| f fs]; [cbn -[fetch_sheets]; rewrite Hs; reflexivity |].
    destruct (concat_error svc (f :: fs)) as [e |] eqn:Hc;
      cbn -[fetch_sheets]; rewrite Hs; cbn -[app]; rewrite Hc; cbn;
      rewrite ?app_nil_r; reflexivity.
  - cbn -[fetch_sheets]. rewrite Hs. reflexivity.
Qed.

(** The shape of a run of the undecorated fetch that returns. *)
Lemma fetch_body_returns (svc : sheets_service) (sheet_id sheet_name : string)
    (tr : trace) (data : DataFrame) :
  fetch_sheet_data_body svc sheet_id sheet_name = (tr, Return data) ->
  exists (titles : list string) (tr' : trace),
    spreadsheets_get svc sheet_id = Return titles
    /\ fetch_sheets svc sheet_id titles = (tr', Return data)
    /\ tr = EvLog INFO (FetchingData sheet_name) :: tr' ++
              [match data with
               | [] => EvLog WARNING (NoDataFound sheet_name)
               | _ :: _ => EvLog INFO (FetchedRows (df_len data) sheet_name)
               end].
Proof.
  intros H. pose proof (fetch_body_cases svc sheet_id sheet_name) as Hc.
  destruct (spreadsheets_get svc sheet_id) as [titles | e];
    [| rewrite Hc in H; discriminate H].
  destruct (fetch_sheets svc sheet_id titles) as [tr' [frames | e]] eqn:Hs;
    [| rewrite Hc in H; discriminate H].
  exists titles, tr'. split; [reflexivity |].
  destruct frames as [| f fs].
  - rewrite Hc in H. injection H as <- <-. split; [exact Hs | reflexivity].
  - destruct (concat_error svc (f :: fs)) as [e |];
      rewrite Hc in H; [discriminate H |].
    injection H as <- <-. split; [exact Hs | reflexivity].
Qed.

(** The shape of a run of the undecorated fetch that raises: the exception
    comes from the read of the metadata, from one worksheet, or from the
    concatenation of the frames. *)
Lemma fetch_body_raises (svc : sheets_service) (sheet_id sheet_name : string)
    (tr : trace) (e : exn) :
  fetch_sheet_data_body svc sheet_id sheet_name = (tr, Raise e) ->
  exists pre : trace,
    tr = EvLog INFO (FetchingData sheet_name) :: pre ++
           [EvLog ERROR (FetchFailed sheet_name
                           (sanitize_error_message (exc_text e)))]
    /\ (exists n : nat, pre = repeat (EvSleep 2) n)
    /\ (spreadsheets_get svc sheet_id = Raise e
        \/ exists titles : list string,
             spreadsheets_get svc sheet_id = Return titles
             /\ ((exists t, In t titles /\ sheet_failure svc sheet_id t e)
                 \/ exists frames : list frame,
                      snd (fetch_sheets svc sheet_id titles) = Return frames
                      /\ frames <> []
                      /\ concat_error svc frames = Some e)).
Proof.
  intros H. pose proof (fetch_body_cases svc sheet_id sheet_name) as Hc.
  destruct (spreadsheets_get svc sheet_id) as [titles | e1].
  - destruct (fetch_sheets svc sheet_id titles) as [tr' [frames | e2]] eqn:Hs.
    + destruct frames as [| f fs]; [rewrite Hc in H; discriminate H |].
      destruct (concat_error svc (f :: fs)) as [e2 |] eqn:Hce;
        rewrite Hc in H; [| discriminate H].
      injection H as <- <-. exists tr'. split; [reflexivity |].
      destruct (fetch_sheets_returns svc sheet_id titles tr' (f :: fs) Hs)
        as (_ & _ & Htr & _).
      split; [exists (List.length titles); exact Htr |].
      right. exists titles. split; [reflexivity |]. right.
      exists (f :: fs).
      split; [rewrite Hs; reflexivity | split; [discriminate | exact Hce]].
    + rewrite Hc in H. injection H as <- <-. exists tr'. split; [reflexivity |].
      destruct (fetch_sheets_raises svc sheet_id titles tr' e2 Hs)
        as (Hfail & n & _ & Htr).
      split; [exists n; exact Htr |].
      right. exists titles. split; [reflexivity |]. left. exact Hfail.
  - rewrite Hc in H. injection H as <- <-. exists []. split; [reflexivity |].
    split; [exists 0%nat; reflexivity | left; reflexivity].
Qed.

(** X12: when the undecorated fetch returns, every frame of the result has
    at least one row and rows as wide as its header; the result is empty
    ([df.empty]) exactly when it has no frame, which is exactly when every
    worksheet of the spreadsheet has at most one row of values; the function
    has slept two seconds once per worksheet and written nothing to the
    bucket. *)
Theorem X12_fetch_returns_well_formed_data (svc : sheets_service)
    (sheet_id sheet_name : string) (tr : trace) (data : DataFrame) :
  fetch_sheet_data_body svc sheet_id sheet_name = (tr, Return data) ->
  Forall well_formed_frame data
  /\ (df_empty data = true <-> data = [])
  /\ exists titles : list string,
       spreadsheets_get svc sheet_id = Return titles
       /\ (data = [] <->
           forall t, In t titles ->
                     exists values, values_get svc sheet_id t = Return values
                                    /\ (List.length values <= 1)%nat)
       /\ sleeps_of tr = List.length titles
       /\ puts_of tr = [].
Proof.
  intros H.
  destruct (fetch_body_returns svc sheet_id sheet_name tr data H)
    as (titles & tr' & Hg & Hs & ->).
  destruct (fetch_sheets_returns svc sheet_id titles tr' data Hs)
    as (Hwf & Hsl & Htr & Hempty).
  split; [exact Hwf |]. split; [apply df_empty_well_formed; exact Hwf |].
  exists titles. split; [exact Hg |]. split; [exact Hempty |].
  change (EvLog INFO (FetchingData sheet_name) :: tr' ++ ?l)
    with ([EvLog INFO (FetchingData sheet_name)] ++ tr' ++ l).
  rewrite !sleeps_of_app, !puts_of_app, Hsl, Htr, puts_of_sleeps.
  split; [destruct data; cbn; lia | destruct data; reflexivity].
Qed.

(** X12 on the spreadsheet with one worksheet of five rows. *)
Lemma X12_fetch_returns_well_formed_data_witness :
  exists data : DataFrame,
    snd (fetch_sheet_data_body one_sheet_service "id-north" "north") = Return data
    /\ Forall well_formed_frame data
    /\ df_empty data = false.
Proof.
  destruct (fetch_sheet_data_body one_sheet_service "id-north" "north")
    as [tr [data | e]] eqn:H.
  - exists data. split; [reflexivity |].
    destruct (X12_fetch_returns_well_formed_data one_sheet_service
                "id-north" "north" tr data H) as (Hwf & _ & _).
    split; [exact Hwf |].
    assert (Hd : snd (fetch_sheet_data_body one_sheet_service "id-north" "north")
                 = Return data) by (rewrite H; reflexivity).
    vm_compute in Hd. injection Hd as <-. reflexivity.
  - assert (Hd : snd (fetch_sheet_data_body one_sheet_service "id-north" "north")
                 = Raise e) by (rewrite H; reflexivity).
    vm_compute in Hd. discriminate Hd.
Defined.

(** A spreadsheet with two worksheets whose headers repeat a column name
    and differ, a combination [pd.concat] refuses with
    [InvalidIndexError]. *)
Definition invalid_index_error : exn :=
  builtin_error "InvalidIndexError"
    "Reindexing only valid with uniquely valued Index objects".

Definition clashing_service : sheets_service :=
  {| spreadsheets_get := fun _ => Return ["Jan"; "Feb"];
     values_get := fun _ t =>
       if String.eqb t "Jan" then Return [["id"; "id"]; ["1"; "2"]]
       else Return [["id"; "id"; "qty"]; ["1"; "2"; "3"]];
     dataframe_error := fun _ => None;
     concat_error := fun frames =>
       match frames with
       | _ :: _ :: _ => Some invalid_index_error
       | _ => None
       end |}.

(** X13: when the undecorated fetch raises, the exception is one that was
    raised inside its [try] block: by the spreadsheet service (for the
    metadata or for the values of one worksheet) or by pandas (building the
    frame of one worksheet, or concatenating the frames after every
    worksheet was read).  The trace is the opening record, one sleep of two
    seconds per worksheet completed, and last the error record with the
    sanitised text of that exception; nothing was written to the bucket. *)
Theorem X13_fetch_reraises_failure (svc : sheets_service)
    (sheet_id sheet_name : string) (tr : trace) (e : exn) :
  fetch_sheet_data_body svc sheet_id sheet_name = (tr, Raise e) ->
  (exists n : nat,
      tr = EvLog INFO (FetchingData sheet_name) :: repeat (EvSleep 2) n ++
             [EvLog ERROR (FetchFailed sheet_name
                             (sanitize_error_message (exc_text e)))])
  /\ (spreadsheets_get svc sheet_id = Raise e
      \/ exists titles : list string,
           spreadsheets_get svc sheet_id = Return titles
           /\ ((exists t : string,
                   In t titles
                   /\ (values_get svc sheet_id t = Raise e
                       \/ exists (values : list row) (f : frame),
                            values_get svc sheet_id t = Return values
                            /\ reshape_sheet t values = Some f
                            /\ dataframe_error svc f = Some e))
               \/ exists frames : list frame,
                    snd (fetch_sheets svc sheet_id titles) = Return frames
                    /\ frames <> []
                    /\ concat_error svc frames = Some e))
  /\ puts_of tr = [].
Proof.
  intros H.
  destruct (fetch_body_raises svc sheet_id sheet_name tr e H)
    as (pre & -> & (n & ->) & Hsrc).
  split; [exists n; reflexivity |]. split; [exact Hsrc |].
  change (EvLog INFO (FetchingData sheet_name) :: repeat (EvSleep 2) n ++ ?l)
    with ([EvLog INFO (FetchingData sheet_name)] ++ repeat (EvSleep 2) n ++ l).
  rewrite !puts_of_app, puts_of_sleeps. reflexivity.
Qed.

(** X13 on the spreadsheet whose two worksheets pandas cannot concatenate:
    both worksheets are read, then the fetch raises what [pd.concat]
    raised. *)
Lemma X13_fetch_reraises_failure_witness :
  fetch_sheet_data_body clashing_service "id-north" "north"
  = ([EvLog INFO (FetchingData "north"); EvSleep 2; EvSleep 2;
      EvLog ERROR (FetchFailed "north"
                     (sanitize_error_message (exc_text invalid_index_error)))],
     Raise invalid_index_error)
  /\ exists n : nat,
       fst (fetch_sheet_data_body clashing_service "id-north" "north")
       = EvLog INFO (FetchingData "north") :: repeat (EvSleep 2) n ++
           [EvLog ERROR (FetchFailed "north"
                           (sanitize_error_message (exc_text invalid_index_error)))].
Proof.
  split; [reflexivity |].
  exact (proj1 (X13_fetch_reraises_failure clashing_service
                  "id-north" "north"
                  (fst (fetch_sheet_data_body clashing_service "id-north" "north"))
                  invalid_index_error eq_refl)).
Defined.

(** ** More on the archival adapter *)

Lemma string_length_app (a b : string) :
  string_length (a ++ b) = (string_length a + string_length b)%nat.
Proof.
  induction a as [| c a IH]; [reflexivity |].
  rewrite append_cons. cbn [string_length]. rewrite IH. reflexivity.
Qed.

Lemma strftime_key_length (t : datetime) : string_length (strftime_key t) = 20%nat.
Proof.
  unfold strftime_key, fmt_year, am_pm. rewrite !string_length_app.
  destruct (hour t <? 12)%nat; reflexivity.
Qed.

(** Two texts with tails of the same length are equal part by part. *)
Lemma string_app_inv_tail (a b x y : string) :
  (a ++ x = b ++ y)%string -> string_length x = string_length y ->
  a = b /\ x = y.
Proof.
  revert b. induction a as [| c a IH]; intros b H Hlen.
  - destruct b as [| d b]; [split; [reflexivity | exact H] |].
    exfalso. rewrite append_nil in H. apply (f_equal string_length) in H.
    rewrite string_length_app in H. cbn [string_length] in H. lia.
  - destruct b as [| d b].
    + exfalso. rewrite append_nil in H. apply (f_equal string_length) in H.
      rewrite string_length_app in H. cbn [string_length] in H. lia.
    + rewrite !append_cons in H. injection H as -> H.
      destruct (IH b H Hlen) as [-> ->]. split; reflexivity.
Qed.

Lemma s3_key_inj (n1 n2 : string) (t1 t2 : datetime) :
  valid_clock t1 -> valid_clock t2 ->
  s3_key_of n1 t1 = s3_key_of n2 t2 -> n1 = n2 /\ same_minute t1 t2.
Proof.
  intros V1 V2 H. unfold s3_key_of in H.
  apply string_app_inv_head in H.
  destruct (string_app_inv_tail n1 n2 _ _ H) as [-> Htail].
  - rewrite !string_length_app, !strftime_key_length. reflexivity.
  - split; [reflexivity |]. apply string_app_inv_head in Htail.
    apply (strftime_key_inj t1 t2 ".parquet" V1 V2 Htail).
Qed.

(** X14: for clock readings with a four-digit year, the key and the locator
    of an upload determine the item name and the minute: two uploads share a
    key only when they are for the same item in the same minute, so an upload
    never replaces the object of another item. *)
Theorem X14_key_determines_item_and_minute (bucket : option string)
    (n1 n2 : string) (t1 t2 : datetime) :
  valid_clock t1 -> valid_clock t2 ->
  (s3_key_of n1 t1 = s3_key_of n2 t2 <-> n1 = n2 /\ same_minute t1 t2)
  /\ (s3_url_of bucket (s3_key_of n1 t1) = s3_url_of bucket (s3_key_of n2 t2)
      <-> n1 = n2 /\ same_minute t1 t2).
Proof.
  intros V1 V2.
  assert (Hback : n1 = n2 /\ same_minute t1 t2 -> s3_key_of n1 t1 = s3_key_of n2 t2).
  { intros [-> Hm]. unfold s3_key_of.
    rewrite (strftime_key_same_minute _ _ Hm). reflexivity. }
  split; split.
  - apply s3_key_inj; assumption.
  - exact Hback.
  - unfold s3_url_of. intros H. do 3 apply string_app_inv_head in H.
    apply s3_key_inj; assumption.
  - intros H. rewrite (Hback H). reflexivity.
Qed.

(** X14 on two items uploaded in the same minute. *)
Lemma X14_key_determines_item_and_minute_witness :
  s3_key_of "north" (half_past_nine 5) = s3_key_of "south" (half_past_nine 40)
  <-> "north" = "south" /\ same_minute (half_past_nine 5) (half_past_nine 40).
Proof.
  assert (V1 : valid_clock (half_past_nine 5)) by (apply half_past_nine_valid; lia).
  assert (V2 : valid_clock (half_past_nine 40)) by (apply half_past_nine_valid; lia).
  exact (proj1 (X14_key_determines_item_and_minute None "north" "south"
                  (half_past_nine 5) (half_past_nine 40) V1 V2)).
Defined.

(** ** Effects on the outside: writes to the bucket and webhook posts *)

Definition is_post (ev : event) : bool :=
  match ev with EvPost _ _ => true | _ => false end.

(** An event that changes something outside the process. *)
Definition is_effect (ev : event) : bool := is_put ev || is_post ev.

Definition effects_of (tr : trace) : trace := List.filter is_effect tr.

Lemma effects_of_app (t1 t2 : trace) :
  effects_of (t1 ++ t2) = effects_of t1 ++ effects_of t2.
Proof. apply List.filter_app. Qed.

Lemma effects_of_logs (tr : trace) : forallb is_log tr = true -> effects_of tr = [].
Proof.
  induction tr as [| ev tr IH]; [reflexivity |].
  cbn [forallb]. intros H. apply andb_true_iff in H as [Hev Htr].
  destruct ev; try discriminate Hev. cbn. apply IH. exact Htr.
Qed.

Lemma handle_failure_no_effect (float_of_str : string -> option Q)
    (self : RateLimiter) (attempt : nat) (random : Q) (e : exn)
    (trh : trace) (r : result control) :
  handle_failure float_of_str self attempt random e = (trh, r) ->
  effects_of trh = [].
Proof.
  intros H. apply effects_of_logs.
  pose proof (handle_failure_logs float_of_str self attempt random e) as Hl.
  rewrite H in Hl. exact Hl.
Qed.

(** The wrapper adds no effect of its own: the effects of its trace are
    those of the call that returned, when failing calls have none. *)
Lemma retry_loop_effects {A : Type} (float_of_str : string -> option Q)
    (self : RateLimiter) (rand : nat -> Q) (func : nat -> M A) :
  (forall j, is_raise (snd (func j)) = true -> effects_of (fst (func j)) = []) ->
  forall (len a : nat) (last : option exn) (tr : trace) (r : result A),
    retry_loop float_of_str self rand func (seq a len) last = (tr, r) ->
    match r with
    | Return x =>
        exists (k : nat) (trk : trace),
          (a <= k < a + len)%nat /\ func k = (trk, Return x)
          /\ effects_of tr = effects_of trk
    | Raise _ => effects_of tr = []
    end.
Proof.
  intros Hq. induction len as [| len IH]; intros a last tr r H.
  - cbn [seq retry_loop] in H. destruct last; injection H as <- <-; reflexivity.
  - cbn [seq] in H. destruct (func a) as [tra [y | e]] eqn:Hf.
    + rewrite (retry_loop_return float_of_str self rand func a _ last tra y Hf) in H.
      injection H as <- <-. exists a, tra. split; [lia |]. split; [exact Hf |].
      change (EvCall a :: tra ++ ?l) with ([EvCall a] ++ tra ++ l).
      rewrite !effects_of_app. destruct (0 <? a)%nat; cbn; rewrite app_nil_r; reflexivity.
    + assert (Hea : effects_of tra = []).
      { specialize (Hq a). rewrite Hf in Hq. apply Hq. reflexivity. }
      assert (Hrec : forall tr' front,
                 retry_loop float_of_str self rand func (seq (S a) len) (Some e)
                 = (tr', r) ->
                 effects_of front = [] ->
                 tr = front ++ tr' ->
                 match r with
                 | Return x =>
                     exists (k : nat) (trk : trace),
                       (a <= k < a + S len)%nat /\ func k = (trk, Return x)
                       /\ effects_of tr = effects_of trk
                 | Raise _ => effects_of tr = []
                 end).
      { intros tr' front Hloop Hfront ->. specialize (IH (S a) (Some e) tr' r Hloop).
        rewrite effects_of_app, Hfront. cbn [app].
        destruct r as [x | e']; [| exact IH].
        destruct IH as (k & trk & Hk & Hfk & Heq).
        exists k, trk. split; [lia |]. split; assumption. }
      destruct (handle_failure float_of_str self a (rand a) e)
        as [trh [[d |] | y]] eqn:Hh;
        pose proof (handle_failure_no_effect _ _ _ _ _ _ _ Hh) as Heh.
      * destruct (Z.lt_ge_cases (Z.of_nat a) (max_retries self - 1)) as [Hlt | Hge].
        -- destruct (Qlt_le_dec d 0) as [Hneg | Hpos].
           ++ rewrite (retry_loop_bad_sleep float_of_str self rand func a _ last
                         tra trh e d Hf Hh Hlt Hneg) in H.
              injection H as <- <-.
              change (EvCall a :: tra ++ trh) with ([EvCall a] ++ tra ++ trh).
              rewrite !effects_of_app, Hea, Heh. reflexivity.
           ++ rewrite (retry_loop_sleep float_of_str self rand func a _ last
                         tra trh e d Hf Hh Hlt Hpos) in H.
              destruct (retry_loop float_of_str self rand func (seq (S a) len) (Some e))
                as [tr' r'] eqn:Hloop.
              cbn [fst snd] in H. injection H as <- <-.
              apply (Hrec tr' (EvCall a :: tra ++ trh ++ [EvSleep d]) eq_refl).
              ** change (EvCall a :: tra ++ trh ++ [EvSleep d])
                   with ([EvCall a] ++ tra ++ trh ++ [EvSleep d]).
                 rewrite !effects_of_app, Hea, Heh. reflexivity.
              ** cbn. rewrite <- !List.app_assoc. reflexivity.
        -- rewrite (retry_loop_final float_of_str self rand func a _ last
                      tra trh e d Hf Hh) in H by lia.
           destruct (retry_loop float_of_str self rand func (seq (S a) len) (Some e))
             as [tr' r'] eqn:Hloop.
           cbn [fst snd] in H. injection H as <- <-.
           apply (Hrec tr' (EvCall a :: tra ++ trh
                              ++ [EvLog ERROR (MaxRetriesExceeded (max_retries self))])
                    eq_refl).
           ** change (EvCall a :: tra ++ trh ++ ?l) with ([EvCall a] ++ tra ++ trh ++ l).
              rewrite !effects_of_app, Hea, Heh. reflexivity.
           ** cbn. rewrite <- !List.app_assoc. reflexivity.
      * rewrite (retry_loop_break float_of_str self rand func a _ last tra trh e Hf Hh)
          in H. injection H as <- <-.
        change (EvCall a :: tra ++ trh) with ([EvCall a] ++ tra ++ trh).
        rewrite !effects_of_app, Hea, Heh. reflexivity.
      * rewrite (retry_loop_crash float_of_str self rand func a _ last tra trh e y Hf Hh)
          in H. injection H as <- <-.
        change (EvCall a :: tra ++ trh) with ([EvCall a] ++ tra ++ trh).
        rewrite !effects_of_app, Hea, Heh. reflexivity.
Qed.

Lemma effects_of_sleeps (n : nat) (d : Q) : effects_of (repeat (EvSleep d) n) = [].
Proof. induction n as [| n IH]; [reflexivity | exact IH]. Qed.

Lemma s3_objects_effects (tr : trace) :
  forall store, s3_objects tr store = s3_objects (effects_of tr) store.
Proof.
  induction tr as [| ev tr IH]; intros store; [reflexivity |].
  destruct ev; cbn; apply IH.
Qed.

Lemma fetch_body_no_effect (svc : sheets_service) (sheet_id sheet_name : string) :
  effects_of (fst (fetch_sheet_data_body svc sheet_id sheet_name)) = [].
Proof.
  destruct (fetch_sheet_data_body svc sheet_id sheet_name) as [tr [data | e]] eqn:H;
    cbn [fst].
  - destruct (fetch_body_returns svc sheet_id sheet_name tr data H)
      as (titles & tr' & _ & Hs & ->).
    destruct (fetch_sheets_returns svc sheet_id titles tr' data Hs) as (_ & _ & -> & _).
    change (EvLog INFO (FetchingData sheet_name) :: ?m ++ ?l)
      with ([EvLog INFO (FetchingData sheet_name)] ++ m ++ l).
    rewrite !effects_of_app, effects_of_sleeps. destruct data; reflexivity.
  - destruct (fetch_body_raises svc sheet_id sheet_name tr e H)
      as (pre & -> & (n & ->) & _).
    change (EvLog INFO (FetchingData sheet_name) :: ?m ++ ?l)
      with ([EvLog INFO (FetchingData sheet_name)] ++ m ++ l).
    rewrite !effects_of_app, effects_of_sleeps. reflexivity.
Qed.

(** The decorated fetch changes nothing outside. *)
Lemma fetch_no_effect (E : env) (sheet_id sheet_name : string) :
  effects_of (fst (_fetch_sheet_data E sheet_id sheet_name)) = [].
Proof.
  unfold _fetch_sheet_data, wrapper.
  destruct (retry_loop _ _ _ _ _ None) as [tr r] eqn:H.
  apply retry_loop_effects in H.
  - cbn [fst]. destruct r as [x | e]; [| exact H].
    destruct H as (k & trk & _ & Hf & ->).
    pose proof (fetch_body_no_effect (sheets_at E sheet_name k) sheet_id sheet_name) as Hn.
    rewrite Hf in Hn. exact Hn.
  - intros j _. apply fetch_body_no_effect.
Qed.

(** The decorated upload: a raise leaves the bucket untouched; a return is
    the return of one call, which wrote the data under the key of its clock
    reading. *)
Lemma upload_effects (E : env) (data : DataFrame) (sheet_name : string)
    (tu : trace) (r : result string) :
  _upload_to_s3 E data sheet_name = (tu, r) ->
  match r with
  | Raise _ => effects_of tu = []
  | Return url =>
      exists k : nat,
        (k < 5)%nat
        /\ put_error_at E sheet_name k = None
        /\ url = s3_url_of (bucket_name E) (s3_key_of sheet_name (now_at E sheet_name k))
        /\ effects_of tu
           = [EvPut (str_of_bucket (bucket_name E))
                (s3_key_of sheet_name (now_at E sheet_name k)) data]
  end.
Proof.
  unfold _upload_to_s3, wrapper. intros H. apply retry_loop_effects in H.
  - destruct r as [url | e]; [| exact H].
    destruct H as (k & trk & Hk & Hf & ->).
    exists k. split; [cbn in Hk; lia |].
    destruct (put_error_at E sheet_name k) as [e |]; [discriminate Hf |].
    rewrite upload_success in Hf. injection Hf as <- <-.
    repeat split.
  - intros j. destruct (put_error_at E sheet_name j) as [e |]; [reflexivity |].
    rewrite upload_success. discriminate.
Qed.

(** The trace and the outcome of [backup_single_sheet], case by case. *)
Lemma backup_single_sheet_cases (E : env) (sheet_name sheet_id : string) :
  match _fetch_sheet_data E sheet_id sheet_name with
  | (tf, Raise e) =>
      backup_single_sheet E sheet_name sheet_id
      = (tf ++ [EvLog ERROR (BackupFailed sheet_name
                               (sanitize_error_message (exc_text e)))],
         Return {| o_sheet_name := sheet_name; success := false;
                   error := Some (sanitize_error_message (exc_text e));
                   s3_url := None; rows_backed_up := 0;
                   duration_seconds := elapsed E sheet_name |})
  | (tf, Return data) =>
      if df_empty data then
        backup_single_sheet E sheet_name sheet_id
        = (tf ++ [EvLog WARNING (NoDataFound sheet_name)],
           Return {| o_sheet_name := sheet_name; success := false;
                     error := Some "No data found in sheet";
                     s3_url := None; rows_backed_up := 0; duration_seconds := 0 |})
      else
        match _upload_to_s3 E data sheet_name with
        | (tu, Raise e) =>
            backup_single_sheet E sheet_name sheet_id
            = (tf ++ tu ++ [EvLog ERROR (BackupFailed sheet_name
                                           (sanitize_error_message (exc_text e)))],
               Return {| o_sheet_name := sheet_name; success := false;
                         error := Some (sanitize_error_message (exc_text e));
                         s3_url := None; rows_backed_up := 0;
                         duration_seconds := elapsed E sheet_name |})
        | (tu, Return url) =>
            backup_single_sheet E sheet_name sheet_id
            = (tf ++ tu ++ [EvLog INFO (BackedUp sheet_name (df_len data)
                                          (elapsed E sheet_name))],
               Return {| o_sheet_name := sheet_name; success := true; error := None;
                         s3_url := Some url; rows_backed_up := df_len data;
                         duration_seconds := elapsed E sheet_name |})
        end
  end.
Proof.
  unfold backup_single_sheet, backup_single_sheet_with.
  destruct (_fetch_sheet_data E sheet_id sheet_name) as [tf [data | e]].
  - rewrite bind_pair_return. destruct (df_empty data).
    + reflexivity.
    + destruct (_upload_to_s3 E data sheet_name) as [tu [url | e]].
      * rewrite bind_pair_return. cbn. reflexivity.
      * rewrite bind_pair_raise. cbn [fst snd]. rewrite try_except_raise.
        cbn. rewrite <- List.app_assoc. reflexivity.
  - rewrite bind_pair_raise, try_except_raise. reflexivity.
Qed.

(** X15: at the end of [backup_single_sheet], a failed outcome has left the
    bucket as it was, and a succeeded outcome has added exactly one object:
    the extracted data, under the key whose locator the outcome reports, with
    the row count the outcome reports. *)
Theorem X15_success_means_stored (E : env) (sheet_name sheet_id : string)
    (tr : trace) (o : outcome) (store : gmap string DataFrame) :
  backup_single_sheet E sheet_name sheet_id = (tr, Return o) ->
  (success o = false -> s3_objects tr store = store)
  /\ (success o = true ->
      exists (k : nat) (data : DataFrame),
        (k < 5)%nat
        /\ s3_url o = Some (s3_url_of (bucket_name E)
                              (s3_key_of sheet_name (now_at E sheet_name k)))
        /\ rows_backed_up o = df_len data
        /\ df_empty data = false
        /\ s3_objects tr store
           = <[s3_key_of sheet_name (now_at E sheet_name k) := data]> store
        /\ s3_objects tr store !! s3_key_of sheet_name (now_at E sheet_name k)
           = Some data).
Proof.
  intros H. pose proof (backup_single_sheet_cases E sheet_name sheet_id) as Hc.
  pose proof (fetch_no_effect E sheet_id sheet_name) as Hfe.
  destruct (_fetch_sheet_data E sheet_id sheet_name) as [tf [data | e]];
    cbn [fst] in Hfe.
  - destruct (df_empty data) eqn:Hem.
    + rewrite Hc in H. injection H as <- <-. split; [| discriminate].
      intros _. rewrite s3_objects_effects, effects_of_app, Hfe. reflexivity.
    + destruct (_upload_to_s3 E data sheet_name) as [tu [url | e]] eqn:Hu;
        rewrite Hc in H; injection H as <- <-;
        pose proof (upload_effects E data sheet_name _ _ Hu) as Hue.
      * split; [discriminate |]. intros _.
        destruct Hue as (k & Hk & _ & -> & Heff).
        exists k, data. split; [exact Hk |]. repeat split; try assumption.
        -- rewrite s3_objects_effects, !effects_of_app, Hfe, Heff. reflexivity.
        -- rewrite s3_objects_effects, !effects_of_app, Hfe, Heff. cbn.
           apply lookup_insert_eq.
      * split; [| discriminate]. intros _.
        rewrite s3_objects_effects, !effects_of_app, Hfe, Hue. reflexivity.
  - rewrite Hc in H. injection H as <- <-. split; [| discriminate].
    intros _. rewrite s3_objects_effects, effects_of_app, Hfe. reflexivity.
Qed.

(** X15 on the first item of scenario A. *)
Lemma X15_success_means_stored_witness :
  exists (k : nat) (data : DataFrame),
    s3_objects (fst (backup_single_sheet (demo_env (fun _ _ => one_sheet_service) None)
                       "north" "id-north")) ∅
    !! s3_key_of "north" (half_past_nine (5 + k)) = Some data
    /\ df_empty data = false.
Proof.
  destruct (backup_single_sheet (demo_env (fun _ _ => one_sheet_service) None)
              "north" "id-north") as [tr [o | e]] eqn:H.
  - assert (Hs : success o = true).
    { assert (Ho : snd (backup_single_sheet
                          (demo_env (fun _ _ => one_sheet_service) None)
                          "north" "id-north") = Return o) by (rewrite H; reflexivity).
      vm_compute in Ho. injection Ho as <-. reflexivity. }
    destruct (proj2 (X15_success_means_stored _ _ _ tr o ∅ H) Hs)
      as (k & data & _ & _ & _ & He & _ & Hl).
    exists k, data. split; [exact Hl | exact He].
  - assert (Ho : snd (backup_single_sheet
                        (demo_env (fun _ _ => one_sheet_service) None)
                        "north" "id-north") = Raise e) by (rewrite H; reflexivity).
    vm_compute in Ho. discriminate Ho.
Defined.

(** ** Every outcome of a run *)

(** Each outcome of the loop is the outcome of [backup_single_sheet] on the
    item at the same position. *)
Lemma backup_loop_inv (E : env) (total : nat) :
  forall (items : list (string * string)) (i : nat) (tr : trace)
         (results : list outcome),
    backup_loop E total i items = (tr, Return results) ->
    Forall2 (fun item o =>
               exists tr', backup_single_sheet E (fst item) (snd item)
                           = (tr', Return o))
      items results.
Proof.
  induction items as [| [sheet_name sheet_id] rest IH]; intros i tr results H.
  - injection H as <- <-. constructor.
  - cbn [backup_loop] in H.
    apply bind_return_inv in H as (t1 & [] & t2 & _ & H & _).
    apply bind_return_inv in H as (t3 & o & t4 & Ho & H & _).
    apply bind_return_inv in H as (t5 & [] & t6 & _ & H & _).
    apply bind_return_inv in H as (t7 & rs & t8 & Hrs & H & _).
    injection H as _ <-. constructor.
    + exists t3. exact Ho.
    + apply (IH (S i) t7 rs Hrs).
Qed.

Lemma orchestrate_inv (E : env) (SHEETS_CONFIG : list (string * string))
    (tr : trace) (results : list outcome) :
  orchestrate E SHEETS_CONFIG = (tr, Return results) ->
  google_init E = None /\ aws_init E = None
  /\ Forall2 (fun item o =>
                exists tr', backup_single_sheet E (fst item) (snd item)
                            = (tr', Return o))
       SHEETS_CONFIG results.
Proof.
  unfold orchestrate, SheetsBackup_init, backup_all_sheets. intros H.
  apply bind_return_inv in H as (t1 & [] & t2 & Hinit & H & _).
  apply bind_return_inv in H as (t3 & rs & t4 & Hall & H & _).
  apply bind_return_inv in H as (t5 & [] & t6 & _ & H & _).
  injection H as _ <-.
  apply bind_return_inv in Hall as (t7 & [] & t8 & _ & Hall & _).
  apply bind_return_inv in Hall as (t9 & rs' & t10 & Hloop & Hall & _).
  apply bind_return_inv in Hall as (t11 & [] & t12 & _ & Hall & _).
  injection Hall as _ <-.
  split; [| split].
  - destruct (google_init E); [discriminate Hinit | reflexivity].
  - destruct (google_init E); [discriminate Hinit |].
    destruct (aws_init E); [discriminate Hinit | reflexivity].
  - apply (backup_loop_inv E _ _ _ _ _ Hloop).
Qed.

(** The record of an outcome is consistent: a success has a locator, a
    positive row count and no error; a failure has an error text, no
    locator and no rows. *)
Definition consistent_outcome (o : outcome) : Prop :=
  if success o
  then error o = None /\ (exists url, s3_url o = Some url)
       /\ (0 < rows_backed_up o)%nat
  else (exists m, error o = Some m) /\ s3_url o = None
       /\ rows_backed_up o = 0%nat.

(** No pattern of the sanitiser matches anywhere in the text. *)
Definition clean_text (m : string) : Prop :=
  forall k, Text.all_next Text.is_id_char 44 (Text.drop k m) = false
            /\ google_url_at (Text.drop k m) = false
            /\ sheets_url_at (Text.drop k m) = false.

Lemma sanitized_is_clean (s : string) : clean_text (sanitize_error_message s).
Proof.
  intros k. destruct (sanitize_output_clean s k) as [H1 H2].
  split; [exact H1 |]. split; [exact H2 |].
  destruct (sheets_url_at (Text.drop k (sanitize_error_message s))) eqn:Hs;
    [| reflexivity].
  apply sheets_url_is_google_url in Hs. congruence.
Qed.

Lemma single_outcome_facts (E : env) (sheet_name sheet_id : string)
    (tr : trace) (o : outcome) :
  backup_single_sheet E sheet_name sheet_id = (tr, Return o) ->
  o_sheet_name o = sheet_name
  /\ consistent_outcome o
  /\ (forall m, error o = Some m -> clean_text m).
Proof.
  intros H. pose proof (backup_single_sheet_cases E sheet_name sheet_id) as Hc.
  unfold consistent_outcome.
  destruct (_fetch_sheet_data E sheet_id sheet_name) as [tf [data | e]].
  - destruct (df_empty data) eqn:Hem.
    + rewrite Hc in H. injection H as <- <-. cbn.
      split; [reflexivity |]. split; [repeat split; eexists; reflexivity |].
      intros m Hm. injection Hm as <-.
      change "No data found in sheet"
        with (sanitize_error_message "No data found in sheet").
      apply sanitized_is_clean.
    + destruct (_upload_to_s3 E data sheet_name) as [tu [url | e]];
        rewrite Hc in H; injection H as <- <-; cbn.
      * split; [reflexivity |]. split; [| discriminate].
        split; [reflexivity |]. split; [eexists; reflexivity |].
        unfold df_empty in Hem. apply Nat.eqb_neq in Hem. lia.
      * split; [reflexivity |]. split; [repeat split; eexists; reflexivity |].
        intros m Hm. injection Hm as <-. apply sanitized_is_clean.
  - rewrite Hc in H. injection H as <- <-. cbn.
    split; [reflexivity |]. split; [repeat split; eexists; reflexivity |].
    intros m Hm. injection Hm as <-. apply sanitized_is_clean.
Qed.

Lemma orchestrate_outcomes (E : env) (SHEETS_CONFIG : list (string * string))
    (tr : trace) (results : list outcome) (P : outcome -> Prop) :
  (forall sheet_name sheet_id tr' o,
      backup_single_sheet E sheet_name sheet_id = (tr', Return o) -> P o) ->
  orchestrate E SHEETS_CONFIG = (tr, Return results) ->
  Forall P results.
Proof.
  intros HP H. apply orchestrate_inv in H as (_ & _ & H).
  induction H as [| item o items rs (tr' & Ho) _ IH]; constructor.
  - apply (HP _ _ _ _ Ho).
  - exact IH.
Qed.

(** X16: every outcome of a run is consistent: a succeeded outcome has a
    locator, at least one row and no error; a failed outcome has an error
    text, no locator and zero rows. *)
Theorem X16_outcomes_consistent (E : env) (SHEETS_CONFIG : list (string * string))
    (tr : trace) (results : list outcome) :
  orchestrate E SHEETS_CONFIG = (tr, Return results) ->
  Forall consistent_outcome results.
Proof.
  apply orchestrate_outcomes. intros sheet_name sheet_id tr' o Ho.
  apply (single_outcome_facts E sheet_name sheet_id tr' o Ho).
Qed.

(** X17: in every outcome of a run, the error text, which is what the
    notifier reports for a failed sheet, is one that no pattern of the
    sanitiser matches: it holds no run of 44 token characters and no Google
    API URL. *)
Theorem X17_outcome_errors_clean (E : env) (SHEETS_CONFIG : list (string * string))
    (tr : trace) (results : list outcome) :
  orchestrate E SHEETS_CONFIG = (tr, Return results) ->
  Forall (fun o => forall m, error o = Some m -> clean_text m) results.
Proof.
  apply orchestrate_outcomes. intros sheet_name sheet_id tr' o Ho.
  apply (single_outcome_facts E sheet_name sheet_id tr' o Ho).
Qed.

(** The outcomes a computation returned, if it returned. *)
Definition outcomes_of (m : M (list outcome)) : list outcome :=
  match snd m with
  | Return rs => rs
  | Raise _ => []
  end.

Definition scenario_B_env : env :=
  demo_env (fun name _ => if String.eqb name "north" then blank_service
                          else one_sheet_service) None.

Lemma scenario_B_run :
  orchestrate scenario_B_env three_items
  = (fst (orchestrate scenario_B_env three_items),
     Return (outcomes_of (orchestrate scenario_B_env three_items))).
Proof. vm_compute. reflexivity. Qed.

(** X16 on the run of scenario B. *)
Lemma X16_outcomes_consistent_witness :
  Forall consistent_outcome (outcomes_of (orchestrate scenario_B_env three_items)).
Proof.
  exact (X16_outcomes_consistent scenario_B_env three_items _ _ scenario_B_run).
Defined.

(** X17 on the run of scenario B. *)
Lemma X17_outcome_errors_clean_witness :
  Forall (fun o => forall m, error o = Some m -> clean_text m)
    (outcomes_of (orchestrate scenario_B_env three_items)).
Proof.
  exact (X17_outcome_errors_clean scenario_B_env three_items _ _ scenario_B_run).
Defined.

(** X18: when both clients initialise (and the pause between items is not
    negative, as [5 + random.uniform(1, 3)] never is), the run returns
    exactly one outcome per configured item, in the order of the mapping,
    each under the name of its item. *)
Theorem X18_one_outcome_per_item (E : env) (SHEETS_CONFIG : list (string * string)) :
  google_init E = None -> aws_init E = None ->
  (forall i, (0 <= 5 + pause_random E i)%Q) ->
  exists (tr : trace) (results : list outcome),
    orchestrate E SHEETS_CONFIG = (tr, Return results)
    /\ map o_sheet_name results = map fst SHEETS_CONFIG
    /\ List.length results = List.length SHEETS_CONFIG.
Proof.
  intros Hg Ha Hp.
  destruct (orchestrate_returns E SHEETS_CONFIG Hg Ha Hp) as (tr & results & H & Hn).
  exists tr, results. split; [exact H |]. split; [exact Hn |].
  rewrite <- (List.length_map o_sheet_name), Hn, List.length_map. reflexivity.
Qed.

(** X18 on the run of scenario B. *)
Lemma X18_one_outcome_per_item_witness :
  exists (tr : trace) (results : list outcome),
    orchestrate scenario_B_env three_items = (tr, Return results)
    /\ map o_sheet_name results = ["north"; "south"; "west"]
    /\ List.length results = 3%nat.
Proof.
  apply (X18_one_outcome_per_item scenario_B_env three_items).
  - reflexivity.
  - reflexivity.
  - intros i. vm_compute. discriminate.
Defined.

(** X19: when a client initialisation raises, [main] writes the error
    record of that initialisation and the critical-error record and exits
    with 3: no sheet is fetched, nothing is uploaded, no notification is
    posted; a failure of the Sheets client stops the run before the S3
    client is created. *)
Theorem X19_init_failure_stops_run (E : env) (SHEETS_CONFIG : list (string * string)) :
  (forall e, google_init E = Some e ->
             main E SHEETS_CONFIG
             = ([EvLog ERROR (SheetsApiInitFailed (exc_text e));
                 EvLog ERROR (CriticalError (exc_text e))], 3%Z))
  /\ (forall e, google_init E = None -> aws_init E = Some e ->
                main E SHEETS_CONFIG
                = ([EvLog INFO SheetsApiInitialized;
                    EvLog ERROR (S3InitFailed (exc_text e));
                    EvLog ERROR (CriticalError (exc_text e))], 3%Z)).
Proof.
  split.
  - intros e Hg. unfold main, orchestrate, SheetsBackup_init. rewrite Hg. reflexivity.
  - intros e Hg Ha. unfold main, orchestrate, SheetsBackup_init.
    rewrite Hg, Ha. reflexivity.
Qed.

(** The environment with another answer of the webhook. *)
Definition with_post_error (E : env) (p : option exn) : env :=
  {| float_of_str := float_of_str E;
     google_init := google_init E;
     aws_init := aws_init E;
     bucket_name := bucket_name E;
     sheets_at := sheets_at E;
     fetch_random := fetch_random E;
     now_at := now_at E;
     put_error_at := put_error_at E;
     upload_random := upload_random E;
     pause_random := pause_random E;
     elapsed := elapsed E;
     post_error := p;
     notify_random := notify_random E |}.

Lemma backup_loop_with_post_error (E : env) (p : option exn) (total : nat) :
  forall (items : list (string * string)) (i : nat),
    backup_loop (with_post_error E p) total i items = backup_loop E total i items.
Proof.
  induction items as [| [sheet_name sheet_id] rest IH]; intros i; [reflexivity |].
  cbn [backup_loop]. rewrite IH. reflexivity.
Qed.

(** X20: the answer of the webhook changes neither the outcomes of the run
    nor the exit code: a notification that fails is logged and nothing
    more. *)
Theorem X20_notification_is_best_effort (E : env) (p : option exn)
    (SHEETS_CONFIG : list (string * string)) :
  snd (orchestrate (with_post_error E p) SHEETS_CONFIG)
  = snd (orchestrate E SHEETS_CONFIG)
  /\ snd (main (with_post_error E p) SHEETS_CONFIG) = snd (main E SHEETS_CONFIG).
Proof.
  assert (Ho : snd (orchestrate (with_post_error E p) SHEETS_CONFIG)
               = snd (orchestrate E SHEETS_CONFIG)).
  { unfold orchestrate.
    change (SheetsBackup_init (with_post_error E p)) with (SheetsBackup_init E).
    destruct (SheetsBackup_init E) as [ti [[] | e]]; [| reflexivity].
    rewrite !bind_pair_return. cbn [snd].
    unfold backup_all_sheets. rewrite backup_loop_with_post_error.
    destruct (backup_loop E (List.length SHEETS_CONFIG) 0 SHEETS_CONFIG)
      as [tl [rs | e]]; [| reflexivity].
    cbn -[send_notification].
    destruct (send_notification_returns (with_post_error E p) rs) as (t1 & -> & _).
    destruct (send_notification_returns E rs) as (t2 & -> & _).
    reflexivity. }
  split; [exact Ho |].
  unfold main.
  destruct (orchestrate (with_post_error E p) SHEETS_CONFIG) as [t1 r1].
  destruct (orchestrate E SHEETS_CONFIG) as [t2 r2].
  cbn [snd] in Ho. subst r2.
  destruct r1 as [rs | e]; [| reflexivity].
  destruct (exit_classification rs). reflexivity.
Qed.

Lemma filter_nil_iff {A : Type} (p : A -> bool) (l : list A) :
  List.filter p l = [] <-> existsb p l = false.
Proof.
  induction l as [| x l IH]; [split; reflexivity |].
  cbn. destruct (p x); cbn; [split; discriminate | exact IH].
Qed.

Lemma existsb_negb_forallb {A : Type} (p : A -> bool) (l : list A) :
  existsb (fun x => negb (p x)) l = negb (forallb p l).
Proof.
  induction l as [| x l IH]; [reflexivity |].
  cbn. rewrite IH. destruct (p x); reflexivity.
Qed.

(** X21: the status of the notification is "PARTIAL SUCCESS" as soon as one
    outcome failed, also when every outcome failed; it is "SUCCESS" when
    there is at least one outcome and all succeeded; it is "FAILED" only for
    an empty outcome sequence. *)
Theorem X21_notification_status_cases (results : list outcome) :
  (notification_status results = "PARTIAL SUCCESS"
   <-> forallb success results = false)
  /\ (notification_status results = "SUCCESS"
      <-> results <> [] /\ forallb success results = true)
  /\ (notification_status results = "FAILED" <-> results = []).
Proof.
  unfold notification_status.
  destruct (List.filter (fun r => negb (success r)) results) as [| f fs] eqn:Hf.
  - apply filter_nil_iff in Hf. rewrite existsb_negb_forallb in Hf.
    apply negb_false_iff in Hf. rewrite Hf.
    destruct (List.filter success results) as [| s ss] eqn:Hs.
    + apply filter_nil_iff in Hs.
      assert (Hnil : results = []).
      { destruct results as [| o rs]; [reflexivity |]. cbn in Hf, Hs.
        destruct (success o); discriminate. }
      subst results.
      split; [split; discriminate |].
      split; [split; [discriminate | intros [H _]; congruence] |].
      split; reflexivity.
    + assert (Hne : results <> []) by (intros ->; discriminate Hs).
      split; [split; discriminate |].
      split; [split; [intros _; split; [exact Hne | reflexivity] | reflexivity] |].
      split; [discriminate | intros ->; congruence].
  - assert (Hall : forallb success results = false).
    { destruct (forallb success results) eqn:E; [| reflexivity].
      assert (Hn : List.filter (fun r => negb (success r)) results = []).
      { apply filter_nil_iff. rewrite existsb_negb_forallb, E. reflexivity. }
      congruence. }
    rewrite Hall.
    assert (Hne : results <> []) by (intros ->; discriminate Hf).
    split; [split; reflexivity |].
    split; [split; [discriminate | intros [_ H]; discriminate H] |].
    split; [discriminate | intros ->; congruence].
Qed.

(** X22: the exit code computed from the outcomes is 0, 1 or 2, and each
    value tells the run apart: 0 exactly when every outcome succeeded (also
    for no outcome at all), 1 exactly when some succeeded and some failed,
    2 exactly when there is an outcome and none succeeded. *)
Theorem X22_exit_code_iff (results : list outcome) :
  (snd (exit_classification results) = 0%Z <-> forallb success results = true)
  /\ (snd (exit_classification results) = 1%Z
      <-> existsb success results = true /\ forallb success results = false)
  /\ (snd (exit_classification results) = 2%Z
      <-> existsb success results = false /\ results <> [])
  /\ (snd (exit_classification results) = 0%Z
      \/ snd (exit_classification results) = 1%Z
      \/ snd (exit_classification results) = 2%Z).
Proof.
  destruct (forallb success results) eqn:Hall.
  - rewrite (exit_code_all results Hall).
    assert (H2 : ~ (existsb success results = false /\ results <> [])).
    { intros [Hn Hne]. destruct results as [| o rs]; [congruence |].
      cbn in Hall, Hn. destruct (success o); discriminate. }
    split; [split; reflexivity |].
    split; [split; [discriminate | intros [_ H]; discriminate H] |].
    split; [split; [discriminate | intros H; contradiction] |].
    left. reflexivity.
  - assert (Hne : results <> []) by (intros ->; discriminate Hall).
    destruct (existsb success results) eqn:Hsome.
    + rewrite (exit_code_partial results Hsome Hall).
      split; [split; discriminate |].
      split; [split; [intros _; split; reflexivity | reflexivity] |].
      split; [split; [discriminate | intros [H _]; discriminate H] |].
      right. left. reflexivity.
    + rewrite (exit_code_none results Hne Hsome).
      split; [split; discriminate |].
      split; [split; [discriminate | intros [H _]; discriminate H] |].
      split; [split; [intros _; split; [reflexivity | exact Hne] | reflexivity] |].
      right. right. reflexivity.
Qed.

(** ** [config.py] and the start of the script *)

(** What [json.loads] decoded: a mapping, given by its items in order (the
    identifiers are taken to be texts), or a value of another type, given
    by the name of its type. *)
Inductive config_value : Type :=
| Mapping (items : list (string * string))
| NotMapping (type_name : string).

Section Config.

(** [json.loads(s)]: the text of the [JSONDecodeError], or the value. *)
Variable json_loads : string -> string + config_value.

(** [get_sheets_config], on the value of [os.getenv('SHEETS_CONFIG_JSON')]. *)
Definition get_sheets_config (sheets_json : option string) : result config_value :=
  match sheets_json with
  | None =>
      Raise (builtin_error "ValueError"
               "SHEETS_CONFIG_JSON environment variable not found")
  | Some s =>
      if String.eqb s "" then
        Raise (builtin_error "ValueError"
                 "SHEETS_CONFIG_JSON environment variable not found")
      else
        match json_loads s with
        | inr v => Return v
        | inl err =>
            Raise (builtin_error "ValueError"
                     ("Invalid JSON in SHEETS_CONFIG_JSON: " ++ err))
        end
  end.

(** [main] on the loaded configuration.  A value that is not a mapping has
    no [items]: [backup_all_sheets] raises [AttributeError] after its first
    log record, inside the [try] of [main]. *)
Definition main_on (E : env) (SHEETS_CONFIG : config_value) : trace * Z :=
  match SHEETS_CONFIG with
  | Mapping items => main E items
  | NotMapping type_name =>
      match (SheetsBackup_init E ;;;
             log INFO StartingBackup ;;;
             @raise Empty_set
               (builtin_error "AttributeError"
                  ("'" ++ type_name ++ "' object has no attribute 'items'")))
      with
      | (tr, Return nothing) => match nothing with end
      | (tr, Raise e) => (tr ++ [EvLog ERROR (CriticalError (exc_text e))], 3%Z)
      end
  end.

(** Running the script: [from config import SHEETS_CONFIG] evaluates
    [get_sheets_config()] before [main] is entered; an exception raised
    there is not caught, and the interpreter ends with status 1. *)
Definition run_script (E : env) (sheets_json : option string) : trace * Z :=
  match get_sheets_config sheets_json with
  | Raise _ => ([], 1%Z)
  | Return v => main_on E v
  end.

End Config.

